(** * pH monitor: calibration engine, line parser and sample buffers

    A shallow embedding of [software/UI_streamlit/main.py], and of the
    unguarded calibration and the list buffer of
    [software/UI_streamlit/tests/test2.py].

    Python's [float] is IEEE 754 binary64 with round-to-nearest-even; it is
    embedded as Rocq's primitive [float], whose operations are specified by
    [FloatAxioms] against [SpecFloat].  Python raises where IEEE arithmetic
    would return an infinity or a NaN for a division by zero, so fallible
    code lives in a small exception monad. *)

From Stdlib Require Import ZArith NArith List Bool Lia Ascii String QArith Qabs Qfield.
From Stdlib Require Import Floats.
Import ListNotations.

Close Scope Q_scope.

Set Warnings "-inexact-float,-abstract-large-number".

(** ** Python exceptions *)

Inductive exn : Type :=
| ZeroDivisionError
| ValueError
| TypeError
| OSError.

Inductive result (A : Type) : Type :=
| Ok (a : A)
| Raise (e : exn).

Arguments Ok {A} a.
Arguments Raise {A} e.

Definition bind {A B : Type} (m : result A) (k : A -> result B) : result B :=
  match m with
  | Ok a => k a
  | Raise e => Raise e
  end.

Notation "x <- m ;; k" := (bind m (fun x => k))
  (at level 61, m at next level, right associativity).

(** ** Calibration engine over binary64 *)

Module F64.

Open Scope float_scope.

(** [x / y] on Python floats: [ZeroDivisionError] when [y == 0.0]. *)
Definition py_truediv (x y : float) : result float :=
  if y =? 0 then Raise ZeroDivisionError else Ok (x / y).

(** [float(i)] for an int below 2^63 in magnitude, as the polarity signs
    [1] and [-1] are: the nearest float, exact below 2^53. *)
Definition float_of_int (i : Z) : float :=
  match i with
  | Z0 => 0
  | Zpos _ => of_uint63 (Uint63.of_Z i)
  | Zneg _ => - of_uint63 (Uint63.of_Z (Z.opp i))
  end.

Definition R : float := 8.31446261815324.
Definition F : float := 96485.33212.

(** [math.log(10.0)]: the binary64 value nearest to ln 10,
    [0x1.26bb1bbb55516p+1]. *)
Definition LN10 : float := 2.302585092994046.

Definition nernst_slope_volt_per_pH (temp_c : float) : result float :=
  let T := temp_c + 273.15 in
  q <- py_truediv (R * T) F ;;
  Ok (q * LN10).

Definition ph_two_point (volts pH1 V1 pH2 V2 : float) : result float :=
  if abs (V2 - V1) <? 1e-12 then Ok nan
  else
    a <- py_truediv (pH2 - pH1) (V2 - V1) ;;
    let b := pH1 - a * V1 in
    Ok (a * volts + b).

Definition ph_nernst (volts E0 temp_c : float) (sign : Z) : result float :=
  S <- nernst_slope_volt_per_pH temp_c ;;
  if S <=? 0 then Ok nan
  else
    q <- py_truediv (float_of_int sign * (volts - E0)) S ;;
    Ok (7.0 + q).

(** [tests/test2.py], [CalibParams]: the same two-point model without the
    degenerate-calibration guard. *)
Record CalibParams : Type := mkCalibParams {
  cp_pH1 : float;
  cp_V1 : float;
  cp_pH2 : float;
  cp_V2 : float;
  cp_tempC : float
}.

Definition a_gain (c : CalibParams) : result float :=
  py_truediv (cp_pH2 c - cp_pH1 c) (cp_V2 c - cp_V1 c).

Definition b_off (c : CalibParams) : result float :=
  a <- a_gain c ;;
  Ok (cp_pH1 c - a * cp_V1 c).

Definition ph_from_voltage (c : CalibParams) (V : float) : result float :=
  a <- a_gain c ;;
  b <- b_off c ;;
  Ok (a * V + b).

(** The rational a finite float stands for. *)
Definition exact_value (x : float) : option Q :=
  match Prim2SF x with
  | S754_zero _ => Some 0%Q
  | S754_finite s m e =>
      Some ((if s then inject_Z (Zneg m) else inject_Z (Zpos m)) * (2 # 1) ^ e)%Q
  | _ => None
  end.

(** The sign a result carries, zero and infinity included. *)
Definition signed (s : bool) (f : spec_float) : Prop :=
  match f with
  | S754_zero s' | S754_infinity s' | S754_finite s' _ _ => s' = s
  | S754_nan => False
  end.

(** A result of sign [s] that is not zero, its exponent at least [b] when
    it is finite. *)
Definition nonzero_from (s : bool) (b : Z) (f : spec_float) : Prop :=
  match f with
  | S754_finite s' _ e => s' = s /\ (b <= e)%Z
  | S754_infinity s' => s' = s
  | _ => False
  end.

End F64.

(** ** The two-point model over exact rational arithmetic

    The same source function read over the rationals, to separate what the
    formula guarantees from what binary64 rounding does to it.  [None] is the
    undefined sentinel. *)

Module Exact.

Open Scope Q_scope.

Definition py_truediv (x y : Q) : result Q :=
  if Qeq_bool y 0 then Raise ZeroDivisionError else Ok (x / y).

Definition ph_two_point (volts pH1 V1 pH2 V2 : Q) : result (option Q) :=
  if Qlt_le_dec (Qabs (V2 - V1)) (1 # 1000000000000) then Ok None
  else
    a <- py_truediv (pH2 - pH1) (V2 - V1) ;;
    let b := pH1 - a * V1 in
    Ok (Some (a * volts + b)).

End Exact.

(** ** Regular expressions, as [re.search] runs them

    A backtracking matcher for the fragment the two patterns of
    [parse_voltage_from_line] use: character classes, sequence, greedy
    [?], greedy [*] and [+] over a class, and one capturing group.  [run]
    lists the matches anchored at the head of the text in the order a
    backtracking engine tries them, so its head is what [re.match] returns;
    [search] moves the anchor from left to right.

    A Python [str] is a sequence of Unicode code points, and both patterns
    are [str] patterns: [\d] matches every decimal digit of the Unicode
    database ([str.isdecimal]) and [\s] every blank ([str.isspace]).  The
    two tables are those of Unicode 14.0, the database of CPython 3.11. *)

Module Re.

(** A code point. *)
Abbreviation char := N (only parsing).

Definition text : Type := list char.

(** The text of an ASCII literal. *)
Definition text_of_string (s : string) : text :=
  map N_of_ascii (list_ascii_of_string s).

(** The decimal digits of Unicode come in runs of ten, [0] to [9]; these
    are the code points of the zeros, from [U+0030] to [U+1FBF0]. *)
Definition digit_zeros : list N :=
  [48; 1632; 1776; 1984; 2406; 2534; 2662; 2790; 2918; 3046; 3174; 3302;
   3430; 3558; 3664; 3792; 3872; 4160; 4240; 6112; 6160; 6470; 6608; 6784;
   6800; 6992; 7088; 7232; 7248; 42528; 43216; 43264; 43472; 43504; 43600;
   44016; 65296; 66720; 68912; 69734; 69872; 69942; 70096; 70384; 70736;
   70864; 71248; 71360; 71472; 71904; 72016; 72784; 73040; 73120; 92768;
   92864; 93008; 120782; 120792; 120802; 120812; 120822; 123200; 123632;
   125264; 130032]%N.

(** The blanks: [U+0009] to [U+000D], [U+001C] to [U+0020], [U+0085],
    [U+00A0], [U+1680], [U+2000] to [U+200A], [U+2028], [U+2029], [U+202F],
    [U+205F] and [U+3000]. *)
Definition blanks : list N :=
  [9; 10; 11; 12; 13; 28; 29; 30; 31; 32; 133; 160; 5760; 8192; 8193; 8194;
   8195; 8196; 8197; 8198; 8199; 8200; 8201; 8202; 8232; 8233; 8239; 8287;
   12288]%N.

(** The zero of the run of digits a code point stands in. *)
Definition zero_of (c : char) : option N :=
  find (fun z => (z <=? c)%N && (c <=? z + 9)%N) digit_zeros.

Definition is_digit (c : char) : bool :=
  match zero_of c with
  | Some _ => true
  | None => false
  end.

Definition is_space (c : char) : bool := existsb (N.eqb c) blanks.

Definition is_Vv (c : char) : bool := (c =? 86)%N || (c =? 118)%N.
Definition is_colon_eq (c : char) : bool := (c =? 58)%N || (c =? 61)%N.
Definition is_sign (c : char) : bool := (c =? 43)%N || (c =? 45)%N.
Definition is_dot (c : char) : bool := (c =? 46)%N.

Inductive regex : Type :=
| Cls (p : char -> bool)
| Seq (r1 r2 : regex)
| Opt (r : regex)
| Star (p : char -> bool)
| Plus (p : char -> bool)
| Group (r : regex).

(** A match anchored at the head of a text: what group 1 captured, and the
    text left after the match. *)
Record rmatch : Type := mkMatch { group1 : option text; rest : text }.

(** The texts left by [p*], longest repetition first. *)
Fixpoint star_alts (p : char -> bool) (s : text) : list text :=
  match s with
  | c :: s' => if p c then star_alts p s' ++ [s] else [s]
  | [] => [s]
  end.

Definition plus_alts (p : char -> bool) (s : text) : list text :=
  match s with
  | c :: s' => if p c then star_alts p s' else []
  | [] => []
  end.

Definition consumed (s r : text) : text :=
  firstn (List.length s - List.length r) s.

Definition or_group (g1 g2 : option text) : option text :=
  match g2 with
  | Some _ => g2
  | None => g1
  end.

Fixpoint run (r : regex) (s : text) : list rmatch :=
  match r with
  | Cls p =>
      match s with
      | c :: s' => if p c then [mkMatch None s'] else []
      | [] => []
      end
  | Seq r1 r2 =>
      flat_map
        (fun m1 =>
           map (fun m2 => mkMatch (or_group (group1 m1) (group1 m2)) (rest m2))
               (run r2 (rest m1)))
        (run r1 s)
  | Opt r1 => run r1 s ++ [mkMatch None s]
  | Star p => map (mkMatch None) (star_alts p s)
  | Plus p => map (mkMatch None) (plus_alts p s)
  | Group r1 =>
      map (fun m => mkMatch (Some (consumed s (rest m))) (rest m)) (run r1 s)
  end.

Fixpoint search (r : regex) (s : text) : option rmatch :=
  match run r s with
  | m :: _ => Some m
  | [] =>
      match s with
      | [] => None
      | _ :: s' => search r s'
      end
  end.

(** [\.\d+] *)
Definition frac : regex := Seq (Cls is_dot) (Plus is_digit).

(** [\d+(?:\.\d+)?] *)
Definition digits_frac : regex := Seq (Plus is_digit) (Opt frac).

(** [[+-]?\d+(?:\.\d+)?] *)
Definition number : regex := Seq (Opt (Cls is_sign)) digits_frac.

(** [[Vv]\s*[:=]\s*([+-]?\d+(?:\.\d+)?)] *)
Definition tagged : regex :=
  Seq (Cls is_Vv)
      (Seq (Star is_space)
           (Seq (Cls is_colon_eq) (Seq (Star is_space) (Group number)))).

(** [([+-]?\d+(?:\.\d+)?)] *)
Definition bare : regex := Group number.

(** What the second half of a sequence adds to a match of the first. *)
Definition seq_step (k : regex) (m1 : rmatch) : list rmatch :=
  map (fun m2 => mkMatch (or_group (group1 m1) (group1 m2)) (rest m2))
      (run k (rest m1)).

(** A match read as the second half of a sequence whose first half
    captured nothing. *)
Definition regroup (m : rmatch) : rmatch :=
  mkMatch (or_group None (group1 m)) (rest m).

(** A text that starts with a character of the class. *)
Definition starts_in (p : char -> bool) (t : text) : Prop :=
  match t with
  | c :: _ => p c = true
  | [] => False
  end.

(** A pattern that matches no text starting in the class. *)
Definition rejects (p : char -> bool) (k : regex) : Prop :=
  forall c t, p c = true -> run k (c :: t) = [].

End Re.

(** ** Decimal text to binary64, and the line parser *)

Module Parse.

Import Re.

Fixpoint span (p : char -> bool) (s : text) : text * text :=
  match s with
  | c :: s' =>
      if p c then let (a, b) := span p s' in (c :: a, b) else ([], s)
  | [] => ([], [])
  end.

Definition split_sign (s : text) : text * text :=
  match s with
  | c :: s' => if is_sign c then ([c], s') else ([], s)
  | [] => ([], s)
  end.

Definition is_minus (sg : text) : bool :=
  match sg with
  | c :: _ => (c =? 45)%N
  | [] => false
  end.

(** The decimal value of a digit, whatever its script. *)
Definition digit_value (c : char) : N :=
  match zero_of c with
  | Some z => (c - z)%N
  | None => 0%N
  end.

Definition decimal_value (ds : text) : N :=
  fold_left (fun acc c => (10 * acc + digit_value c)%N) ds 0%N.

(** The binary64 value nearest to [(-1)^neg * n / 10^k], ties to even: the
    quotient of the two integers, rounded once by [SFdiv]. *)
Definition float_of_decimal (neg : bool) (n : N) (k : nat) : float :=
  match n with
  | N0 => if neg then neg_zero else zero
  | Npos m =>
      SF2Prim (SFdiv prec emax (S754_finite neg m 0)
                     (S754_finite false (Z.to_pos (10 ^ Z.of_nat k)) 0))
  end.

(** [float(s)] on decimal text: an optional sign, digits of any script, and
    an optional point with digits, at least one digit in all.  Anything
    else is [ValueError] here (Python accepts more: exponents, [inf],
    [nan], surrounding blanks), so a text this model accepts Python accepts
    too. *)
Definition py_float (s : text) : result float :=
  let (sg, s1) := split_sign s in
  let (ip, s2) := span is_digit s1 in
  match s2 with
  | [] =>
      match ip with
      | [] => Raise ValueError
      | _ => Ok (float_of_decimal (is_minus sg) (decimal_value ip) 0)
      end
  | d :: s3 =>
      if is_dot d then
        let (fp, s4) := span is_digit s3 in
        match s4, ip ++ fp with
        | [], _ :: _ =>
            Ok (float_of_decimal (is_minus sg) (decimal_value (ip ++ fp))
                                 (List.length fp))
        | _, _ => Raise ValueError
        end
      else Raise ValueError
  end.

(** [float(m.group(1))]; a group that took no part in the match is [None],
    on which [float] raises [TypeError]. *)
Definition float_of_group (m : rmatch) : result float :=
  match group1 m with
  | Some g => py_float g
  | None => Raise TypeError
  end.

Definition parse_voltage_from_line (line : text) : result (option float) :=
  match search tagged line with
  | Some m => x <- float_of_group m ;; Ok (Some x)
  | None =>
      match search bare line with
      | Some m2 => x <- float_of_group m2 ;; Ok (Some x)
      | None => Ok None
      end
  end.

(** *** The contract in words: the first decimal number, a tagged one first *)

(** A fraction at the head of the text, a point and digits, and what
    follows it; no fraction is the empty token. *)
Definition frac_at (s : text) : text * text :=
  match s with
  | d :: s3 =>
      if is_dot d then
        let (fp, s4) := span is_digit s3 in
        match fp with
        | [] => ([], s)
        | _ :: _ => (d :: fp, s4)
        end
      else ([], s)
  | [] => ([], s)
  end.

(** A decimal number at the head of the text: the token and what follows. *)
Definition number_at (s : text) : option (text * text) :=
  let (sg, s1) := split_sign s in
  let (ip, s2) := span is_digit s1 in
  match ip with
  | [] => None
  | _ :: _ => let (fr, s4) := frac_at s2 in Some (sg ++ ip ++ fr, s4)
  end.

Fixpoint first_number (s : text) : option text :=
  match number_at s with
  | Some (tok, _) => Some tok
  | None =>
      match s with
      | [] => None
      | _ :: s' => first_number s'
      end
  end.

Fixpoint drop_while (p : char -> bool) (s : text) : text :=
  match s with
  | c :: s' => if p c then drop_while p s' else s
  | [] => []
  end.

(** [V] or [v], blanks, [:] or [=], blanks, then a decimal number. *)
Definition tagged_at (s : text) : option text :=
  match s with
  | c :: s1 =>
      if is_Vv c then
        match drop_while is_space s1 with
        | d :: s2 =>
            if is_colon_eq d then
              option_map fst (number_at (drop_while is_space s2))
            else None
        | [] => None
        end
      else None
  | [] => None
  end.

Fixpoint first_tagged (s : text) : option text :=
  match tagged_at s with
  | Some tok => Some tok
  | None =>
      match s with
      | [] => None
      | _ :: s' => first_tagged s'
      end
  end.

(** The value of a number token [[+-]?digits(.digits)?]: its digits read
    as one decimal numeral, with as many decimal places as digits stand
    after the point, negative when the token holds a minus sign. *)
Definition token_negative (tok : text) : bool := existsb (N.eqb 45) tok.

Definition token_digits (tok : text) : text := filter is_digit tok.

Definition token_places (tok : text) : nat :=
  List.length (filter is_digit (drop_while (fun c => negb (is_dot c)) tok)).

Definition token_value (tok : text) : float :=
  float_of_decimal (token_negative tok) (decimal_value (token_digits tok))
                   (token_places tok).

Definition first_voltage_token (line : text) : option text :=
  match first_tagged line with
  | Some tok => Some tok
  | None => first_number line
  end.

Definition has_digit (line : text) : bool := existsb is_digit line.

(** The shape of a number token: an optional sign, digits, and an optional
    point followed by digits. *)
Inductive number_token : text -> Prop :=
| token_parts (sg ip fr : text) :
    (sg = [] \/ exists c, sg = [c] /\ is_sign c = true) ->
    ip <> [] -> forallb is_digit ip = true ->
    (fr = [] \/ exists d fp, fr = d :: fp /\ is_dot d = true /\ fp <> []
                             /\ forallb is_digit fp = true) ->
    number_token (sg ++ ip ++ fr).

End Parse.

(** ** [float] on a [str], in full

    What [float(s)] accepts and returns: blanks at both ends, underscores
    between digits, [inf], [infinity] and [nan] in any case, and decimal
    numerals with a point and an exponent, their digits of any script; the
    value is the nearest binary64 number. *)

Module PyFloat.

Import Re Parse.

(** The blanks [float] strips from both ends: those of C's [isspace], and
    the blanks beyond ASCII, which it has turned into [' '] first. *)
Definition is_fspace (c : char) : bool :=
  ((9 <=? c)%N && (c <=? 13)%N) || (c =? 32)%N
  || ((127 <=? c)%N && is_space c).

Definition fstrip (s : text) : text :=
  rev (drop_while is_fspace (rev (drop_while is_fspace s))).

Definition is_underscore (c : char) : bool := (c =? 95)%N.

(** An underscore is allowed only between two digits. *)
Fixpoint underscores_ok (prev : option char) (s : text) : bool :=
  match s with
  | [] =>
      match prev with
      | Some p => negb (is_underscore p)
      | None => true
      end
  | c :: s' =>
      (if is_underscore c then
         match prev with
         | Some p => is_digit p
         | None => false
         end
       else
         match prev with
         | Some p => negb (is_underscore p) || is_digit c
         | None => true
         end)
      && underscores_ok (Some c) s'
  end.

Definition drop_underscores (s : text) : text :=
  filter (fun c => negb (is_underscore c)) s.

Definition lower (c : char) : char :=
  if ((65 <=? c)%N && (c <=? 90)%N)%bool then (c + 32)%N else c.

(** A lower-case word at the head of the text, in any case. *)
Fixpoint word_at (word s : text) : option text :=
  match word with
  | [] => Some s
  | a :: word' =>
      match s with
      | c :: s' => if (lower c =? a)%N then word_at word' s' else None
      | [] => None
      end
  end.

Definition is_e (c : char) : bool := (c =? 101)%N || (c =? 69)%N.

(** The value [(-1)^neg * n * 10^e10], rounded once. *)
Definition scale10 (neg : bool) (n : N) (e10 : Z) : float :=
  match e10 with
  | Zneg p => float_of_decimal neg n (Pos.to_nat p)
  | _ => float_of_decimal neg (n * N.pow 10 (Z.to_N e10)) 0
  end.

(** An exponent at the head of the text, and what follows it; a lone [e]
    is no exponent. *)
Definition exponent_at (s : text) : Z * text :=
  match s with
  | c :: s1 =>
      if is_e c then
        let (sg, s2) := split_sign s1 in
        let (ds, s3) := span is_digit s2 in
        match ds with
        | [] => (0%Z, s)
        | _ :: _ =>
            let e := Z.of_N (decimal_value ds) in
            (if is_minus sg then Z.opp e else e, s3)
        end
      else (0%Z, s)
  | [] => (0%Z, s)
  end.

(** [float(s)] on a [str]. *)
Definition py_float_str (s : text) : result float :=
  let t := fstrip s in
  if negb (underscores_ok None t) then Raise ValueError
  else
    let (sg, s1) := split_sign (drop_underscores t) in
    let neg := is_minus sg in
    match word_at (text_of_string "inf") s1 with
    | Some r =>
        let r' := match word_at (text_of_string "inity") r with
                  | Some r2 => r2
                  | None => r
                  end in
        match r' with
        | [] => Ok (if neg then neg_infinity else infinity)
        | _ :: _ => Raise ValueError
        end
    | None =>
        match word_at (text_of_string "nan") s1 with
        | Some [] => Ok nan
        | Some (_ :: _) => Raise ValueError
        | None =>
            let (ip, s2) := span is_digit s1 in
            let (fp, s3) :=
              match s2 with
              | d :: s2' => if is_dot d then span is_digit s2' else ([], s2)
              | [] => ([], s2)
              end in
            match ip ++ fp with
            | [] => Raise ValueError
            | _ :: _ =>
                let (e, s4) := exponent_at s3 in
                match s4 with
                | [] =>
                    Ok (scale10 neg (decimal_value (ip ++ fp))
                                (e - Z.of_nat (List.length fp)))
                | _ :: _ => Raise ValueError
                end
            end
        end
    end.

(** The characters of a plain decimal numeral: signs, digits, the point. *)
Definition plain (c : char) : bool := is_sign c || is_digit c || is_dot c.

End PyFloat.

(** ** [collections.deque(maxlen=n)] *)

Module Deque.

Record deque (A : Type) : Type := mkDeque { maxlen : nat; items : list A }.

Arguments mkDeque {A} maxlen items.
Arguments maxlen {A} d.
Arguments items {A} d.

Definition empty {A : Type} (n : nat) : deque A := mkDeque n [].

(** [d.append(x)]: the item goes in on the right, then a deque longer than
    [maxlen] drops its leftmost item. *)
Definition append {A : Type} (x : A) (d : deque A) : deque A :=
  let l := items d ++ [x] in
  mkDeque (maxlen d) (if (maxlen d <? List.length l)%nat then tl l else l).

Definition clear {A : Type} (d : deque A) : deque A := mkDeque (maxlen d) [].

Definition extend {A : Type} (d : deque A) (xs : list A) : deque A :=
  fold_left (fun acc x => append x acc) xs d.

(** The last [k] elements of a list, in their order. *)
Definition lastn {A : Type} (k : nat) (l : list A) : list A :=
  skipn (List.length l - k) l.

End Deque.

(** ** The session and one run of the script ([main.py]) *)

Module App.

Import Deque.
Open Scope float_scope.

Record Sample : Type := mkSample {
  t_rel : float;
  V : float;
  pH_tp : float;
  pH_nernst : float
}.

Definition MAX_BUFFER : nat := 10000.

(** [st.session_state]. [ser] is the open serial handle, named by its port. *)
Record session : Type := mkSession {
  t0 : float;
  buf_V : deque float;
  buf_pH_tp : deque float;
  buf_pH_nernst : deque float;
  buf_t : deque float;
  ser : option string;
  serial_connected : bool;
  cached_ports : list string
}.

Definition initial_session (now : float) : session :=
  mkSession now (empty MAX_BUFFER) (empty MAX_BUFFER) (empty MAX_BUFFER)
            (empty MAX_BUFFER) None false [].

Inductive source_kind : Type := Serial | Simulador.

(** What the sidebar widgets return in one run. *)
Record widgets : Type := mkWidgets {
  btn_connect : bool;
  btn_disconnect : bool;
  btn_rescan : bool;
  btn_reset : bool;
  port : string;
  source : source_kind;
  window : Z;
  pH1 : float;
  V1 : float;
  pH2 : float;
  V2 : float;
  temp_c : float;
  E0 : float
}.

(** What the world answers in one run: the clock at each [time.time()],
    [math.sin], and the serial port.  [readline] is the line read, as the
    [str] that [decode(errors="ignore")] makes of it, or [None] when the
    read raised; [open_ok] tells whether
    [serial.Serial] opens the port. *)
Record env : Type := mkEnv {
  comports : list string;
  pyserial_installed : bool;
  open_ok : bool;
  readline : option Re.text;
  clock_reset : float;
  clock_sim : float;
  clock_tick : float;
  math_sin : float -> float
}.

Definition sign : Z := (-1)%Z.

Definition math_pi : float := 3.141592653589793.

(** The integer nearest to [a / b] for [a >= 0] and [b > 0], ties to even. *)
Definition round_half_even_div (a : Z) (b : Z) : Z :=
  let q := (a / b)%Z in
  match (2 * (a mod b) ?= b)%Z with
  | Lt => q
  | Gt => (q + 1)%Z
  | Eq => if Z.even q then q else (q + 1)%Z
  end.

(** [round(x, 3)]: the decimal with three places nearest to the exact value
    of [x], ties to even, read back as a float. *)
Definition py_round3 (x : float) : float :=
  match Prim2SF x with
  | S754_finite s m e =>
      let n :=
        match e with
        | Zneg p => round_half_even_div (Zpos m * 1000) (2 ^ Zpos p)
        | _ => (Zpos m * 1000 * 2 ^ e)%Z
        end in
      Parse.float_of_decimal s (Z.to_N n) 3
  | _ => x
  end.

(** [str.strip()]: the blanks at both ends go. *)
Definition strip (s : Re.text) : Re.text :=
  rev (Parse.drop_while Re.is_space (rev (Parse.drop_while Re.is_space s))).

Definition read_sample_sim (st : session) (w : env) : result float :=
  let t := clock_sim w - t0 st in
  q <- F64.py_truediv (2 * math_pi * t) 40 ;;
  Ok (2.97 + 0.005 * math_sin w q).

(** [readline w = None] is a read that raised; every exception of the body
    is caught and turned into [None]. *)
Definition read_sample_serial (st : session) (w : env) : option float :=
  if negb (serial_connected st) then None
  else
    match ser st with
    | None => None
    | Some _ =>
        match readline w with
        | None => None
        | Some raw =>
            match strip raw with
            | [] => None
            | line =>
                match Parse.parse_voltage_from_line line with
                | Ok v => v
                | Raise _ => None
                end
            end
        end
    end.

Definition acquire_voltage (st : session) (ui : widgets) (w : env)
  : result (option float) :=
  match source ui with
  | Simulador => v <- read_sample_sim st w ;; Ok (Some v)
  | Serial => Ok (read_sample_serial st w)
  end.

(** The "Reset buffers" handler, up to its [st.rerun()]. *)
Definition reset_buffers (now : float) (st : session) : session :=
  mkSession now (clear (buf_V st)) (clear (buf_pH_tp st))
            (clear (buf_pH_nernst st)) (clear (buf_t st))
            (ser st) (serial_connected st) (cached_ports st).

(** The four appends of one sample. *)
Definition append_sample (x : Sample) (st : session) : session :=
  mkSession (t0 st) (append (V x) (buf_V st)) (append (pH_tp x) (buf_pH_tp st))
            (append (pH_nernst x) (buf_pH_nernst st)) (append (t_rel x) (buf_t st))
            (ser st) (serial_connected st) (cached_ports st).

(** "Actualizar buffers": both estimates are computed before the first
    append. *)
Definition record_voltage (ui : widgets) (t : float) (v : option float)
    (st : session) : result session :=
  match v with
  | None => Ok st
  | Some volts =>
      ph_tp_val <- F64.ph_two_point volts (pH1 ui) (V1 ui) (pH2 ui) (V2 ui) ;;
      ph_nernst_val <- F64.ph_nernst volts (E0 ui) (temp_c ui) sign ;;
      Ok (append_sample (mkSample t volts ph_tp_val ph_nernst_val) st)
  end.

Definition update_buffers (ui : widgets) (w : env) (st : session)
  : result session :=
  v <- acquire_voltage st ui w ;;
  let t := py_round3 (clock_tick w - t0 st) in
  record_voltage ui t v st.

(** [pd.DataFrame] of four columns: [ValueError] unless they are equally
    long; a frame is the list of its rows. *)
Definition DataFrame : Type := list Sample.

Fixpoint zip_rows (ts vs tps ns : list float) : DataFrame :=
  match ts, vs, tps, ns with
  | t :: ts', v :: vs', p :: tps', n :: ns' =>
      mkSample t v p n :: zip_rows ts' vs' tps' ns'
  | _, _, _, _ => []
  end.

Definition make_df (ts vs tps ns : list float) : result DataFrame :=
  if ((List.length ts =? List.length vs)%nat
      && (List.length vs =? List.length tps)%nat
      && (List.length tps =? List.length ns)%nat)%bool
  then Ok (zip_rows ts vs tps ns)
  else Raise ValueError.

(** [df.tail(n)]: nothing for [n = 0], the last [n] rows for [n > 0], all
    rows but the first [-n] for [n < 0]. *)
Definition tail (n : Z) (df : DataFrame) : DataFrame :=
  match n with
  | Z0 => []
  | Zpos _ => skipn (List.length df - Z.to_nat n) df
  | Zneg _ => skipn (Z.to_nat (- n)) df
  end.

Record frames : Type := mkFrames { df : DataFrame; df_vis : DataFrame }.

Definition dataframes (ui : widgets) (st : session) : result frames :=
  d <- make_df (items (buf_t st)) (items (buf_V st)) (items (buf_pH_tp st))
               (items (buf_pH_nernst st)) ;;
  Ok (mkFrames d (tail (window ui) d)).

(** The same widgets with another number of samples to show. *)
Definition set_window (n : Z) (ui : widgets) : widgets :=
  mkWidgets (btn_connect ui) (btn_disconnect ui) (btn_rescan ui) (btn_reset ui)
            (port ui) (source ui) n (pH1 ui) (V1 ui) (pH2 ui) (V2 ui)
            (temp_c ui) (E0 ui).

(** The sidebar's connection handlers. *)
Definition refresh_ports (w : env) (st : session) : session :=
  match cached_ports st with
  | [] => mkSession (t0 st) (buf_V st) (buf_pH_tp st) (buf_pH_nernst st)
                    (buf_t st) (ser st) (serial_connected st)
                    (if pyserial_installed w then comports w else [])
  | _ :: _ => st
  end.

Definition set_serial (h : option string) (c : bool) (st : session) : session :=
  mkSession (t0 st) (buf_V st) (buf_pH_tp st) (buf_pH_nernst st) (buf_t st)
            h c (cached_ports st).

Definition connect (ui : widgets) (w : env) (st : session) : session :=
  if negb (pyserial_installed w) then st
  else if open_ok w then set_serial (Some (port ui)) true st
  else set_serial None false st.

Definition disconnect (st : session) : session := set_serial None false st.

Definition rescan (w : env) (st : session) : session :=
  mkSession (t0 st) (buf_V st) (buf_pH_tp st) (buf_pH_nernst st) (buf_t st)
            (ser st) (serial_connected st)
            (if pyserial_installed w then comports w else []).

(** How a run of the script ends: [st.rerun()] before anything is drawn, the
    page drawn from the two frames, or an uncaught exception. *)
Inductive outcome : Type :=
| Rerun (st : session)
| Rendered (st : session) (fr : frames)
| Crashed (e : exn) (st : session).

Definition script (ui : widgets) (w : env) (st0 : session) : outcome :=
  let st1 := refresh_ports w st0 in
  let st2 := if btn_connect ui then connect ui w st1 else st1 in
  let st3 := if btn_disconnect ui then disconnect st2 else st2 in
  if btn_rescan ui then Rerun (rescan w st3)
  else if btn_reset ui then Rerun (reset_buffers (clock_reset w) st3)
  else
    match update_buffers ui w st3 with
    | Raise e => Crashed e st3
    | Ok st4 =>
        match dataframes ui st4 with
        | Raise e => Crashed e st4
        | Ok fr => Rendered st4 fr
        end
    end.

Definition session_of (o : outcome) : session :=
  match o with
  | Rerun st => st
  | Rendered st _ => st
  | Crashed _ st => st
  end.

(** The sessions the script can reach from a fresh one. *)
Inductive reachable : session -> Prop :=
| reach_init (now : float) : reachable (initial_session now)
| reach_run (ui : widgets) (w : env) (st : session) :
    reachable st -> reachable (session_of (script ui w st)).

(** The samples the four buffers hold, read index by index. *)
Definition samples (st : session) : list Sample :=
  zip_rows (items (buf_t st)) (items (buf_V st)) (items (buf_pH_tp st))
           (items (buf_pH_nernst st)).

(** The four buffers are parallel: one capacity, one length. *)
Definition coherent (st : session) : Prop :=
  (maxlen (buf_t st) = MAX_BUFFER /\ maxlen (buf_V st) = MAX_BUFFER
   /\ maxlen (buf_pH_tp st) = MAX_BUFFER
   /\ maxlen (buf_pH_nernst st) = MAX_BUFFER)
  /\ List.length (items (buf_V st)) = List.length (items (buf_t st))
  /\ List.length (items (buf_pH_tp st)) = List.length (items (buf_t st))
  /\ List.length (items (buf_pH_nernst st)) = List.length (items (buf_t st)).

(** Successive runs of the script, each on the session the previous one
    left. *)
Definition runs (steps : list (widgets * env)) (st : session) : session :=
  fold_left (fun acc step => session_of (script (fst step) (snd step) acc))
            steps st.

End App.

(** ** The list buffer of [tests/test2.py] *)

Module Stream.

Definition MAX_POINTS : nat := 4000.

(** The message of an ["__ERROR__"] item: which handler made it, and from
    which exception; its wording is left out. *)
Inductive message : Type :=
| CannotOpen
| ReadFailed (e : exn).

(** What the reader thread puts on the queue. *)
Inductive item : Type :=
| DATA (t V pH_cal pH_nernst : float)
| LOG (line : Re.text)
| ERROR (msg : message).

Record rec : Type := mkRec {
  r_t : float;
  r_V : float;
  r_pH_arduino : float;
  r_pH_nernst : float;
  r_pH_local : option float
}.

Record state : Type := mkState {
  running : bool;
  stop_event : bool;
  calib : F64.CalibParams;
  q : list item;
  data : list rec
}.

(** [data[-n:]] on a list. *)
Definition slice_last {A : Type} (n : nat) (l : list A) : list A :=
  match n with
  | O => l
  | S _ => skipn (List.length l - n) l
  end.

(** The [while True] loop of [drain_queue_to_buffer]: it ends on an empty
    queue or after an ["__ERROR__"] item. *)
Fixpoint drain_loop (use_local_cal : bool) (c : F64.CalibParams)
    (queue : list item) (st : state) : result state :=
  match queue with
  | [] => Ok (mkState (running st) (stop_event st) c [] (data st))
  | DATA t V pH_cal pH_nernst :: queue' =>
      loc <- (if use_local_cal
              then x <- F64.ph_from_voltage c V ;; Ok (Some x)
              else Ok None) ;;
      drain_loop use_local_cal c queue'
        (mkState (running st) (stop_event st) c queue'
                 (data st ++ [mkRec t V pH_cal pH_nernst loc]))
  | LOG _ :: queue' =>
      drain_loop use_local_cal c queue'
        (mkState (running st) (stop_event st) c queue' (data st))
  | ERROR _ :: queue' => Ok (mkState false true c queue' (data st))
  end.

(** "recorta buffer" *)
Definition trim (st : state) : state :=
  if (MAX_POINTS <? List.length (data st))%nat
  then mkState (running st) (stop_event st) (calib st) (q st)
               (slice_last MAX_POINTS (data st))
  else st.

Definition drain_queue_to_buffer (use_local_cal : bool) (st : state)
  : result state :=
  st' <- drain_loop use_local_cal (calib st) (q st) st ;;
  Ok (trim st').

Definition is_log (it : item) : bool :=
  match it with
  | LOG _ => true
  | _ => false
  end.

Definition is_error (it : item) : bool :=
  match it with
  | ERROR _ => true
  | _ => false
  end.

(** The records a drain that returns has appended: one for each ["DATA"]
    item in front of the first ["__ERROR__"], in queue order. *)
Fixpoint drained (use_local_cal : bool) (c : F64.CalibParams)
    (queue : list item) : list rec :=
  match queue with
  | [] => []
  | DATA t V pH_cal pH_nernst :: queue' =>
      mkRec t V pH_cal pH_nernst
            (if use_local_cal
             then match F64.ph_from_voltage c V with
                  | Ok x => Some x
                  | Raise _ => None
                  end
             else None)
      :: drained use_local_cal c queue'
  | LOG _ :: queue' => drained use_local_cal c queue'
  | ERROR _ :: _ => []
  end.

End Stream.

(** ** The reader thread of [tests/test2.py] *)

Module Reader.

Import Re PyFloat Stream.

(** [s.split(",")] *)
Fixpoint split_comma (s : text) : list text :=
  match s with
  | [] => [[]]
  | c :: s' =>
      if (c =? 44)%N then [] :: split_comma s'
      else
        match split_comma s' with
        | p :: ps => (c :: p) :: ps
        | [] => [[c]]
        end
  end.

(** [",".join(parts)] *)
Fixpoint join_comma (parts : list text) : text :=
  match parts with
  | [] => []
  | [p] => p
  | p :: ps => p ++ 44%N :: join_comma ps
  end.

(** One line that is not empty, read at [now]: three fields or more give a
    data item, any exception an error item, fewer fields a log line. *)
Definition classify (now : float) (line : text) : item :=
  match split_comma line with
  | p0 :: p1 :: p2 :: _ =>
      match (V <- py_float_str p0 ;;
             pH_cal <- py_float_str p1 ;;
             pH_nernst <- py_float_str p2 ;;
             Ok (DATA now V pH_cal pH_nernst)) with
      | Ok it => it
      | Raise e => ERROR (ReadFailed e)
      end
  | _ => LOG line
  end.

(** The [while] loop of [SerialReader.run] over the reads it makes until
    the stop event is set: each read is the line decoded, or [None] when
    reading raised, and the clock at that time.  The loop ends after an
    error item. *)
Fixpoint reader_loop (reads : list (option text * float)) : list item :=
  match reads with
  | [] => []
  | (None, _) :: _ => [ERROR (ReadFailed OSError)]
  | (Some raw, now) :: rest =>
      match App.strip raw with
      | [] => reader_loop rest
      | line =>
          let it := classify now line in
          if is_error it then [it] else it :: reader_loop rest
      end
  end.

(** [SerialReader.run]: what it puts on the queue. *)
Definition run (opens : bool) (reads : list (option text * float)) : list item :=
  if opens then reader_loop reads else [ERROR CannotOpen].

(** The number of commas of a text. *)
Definition commas (s : text) : nat := List.length (filter (N.eqb 44) s).

End Reader.

(** ** Runs of the script, one after another *)

Module Runs.

Import Deque App.

(** The session after the sidebar's handlers, before "Re-scan", "Reset" and
    the tick are looked at. *)
Definition sidebar (ui : widgets) (w : env) (st : session) : session :=
  let st1 := refresh_ports w st in
  let st2 := if btn_connect ui then connect ui w st1 else st1 in
  if btn_disconnect ui then disconnect st2 else st2.

(** Samples recorded one after the other. *)
Definition record_all (xs : list Sample) (st : session) : session :=
  fold_left (fun acc x => append_sample x acc) xs st.

(** The connected flag says whether a handle is held. *)
Definition linked (st : session) : Prop :=
  serial_connected st = match ser st with Some _ => true | None => false end.

Definition same_buffers (st st' : session) : Prop :=
  buf_t st' = buf_t st /\ buf_V st' = buf_V st
  /\ buf_pH_tp st' = buf_pH_tp st /\ buf_pH_nernst st' = buf_pH_nernst st.

End Runs.

(** ** Lines and number tokens *)

Module Lines.

Import Re Parse.

(** A character no match of either pattern can start at. *)
Definition inert (c : char) : bool :=
  negb (is_Vv c || is_sign c || is_digit c).

(** A text a number token cannot run on into: empty, or starting with
    neither a digit nor a point. *)
Definition ends_number (r : text) : bool :=
  match r with
  | c :: _ => negb (is_digit c || is_dot c)
  | [] => true
  end.

(** What a serial read hands on: the parsed voltage, if any. *)
Definition voltage_of (r : result (option float)) : option float :=
  match r with
  | Ok v => v
  | Raise _ => None
  end.

End Lines.

(** * Properties *)

(** ** Binary64 facts behind the guards *)

Section FloatFacts.

Open Scope float_scope.

Lemma SFeqb_zero_inv (f : spec_float) :
  SFeqb f (S754_zero false) = true -> exists s, f = S754_zero s.
Proof.
  destruct f as [s | s | | s m e]; unfold SFeqb; simpl; try discriminate.
  - intros _. now exists s.
  - destruct s; discriminate.
  - destruct s; discriminate.
Qed.

Lemma eqb_zero_inv (d : float) :
  (d =? 0) = true -> exists s, Prim2SF d = S754_zero s.
Proof.
  rewrite eqb_spec. change (Prim2SF 0) with (S754_zero false).
  apply SFeqb_zero_inv.
Qed.

(** A divisor that passes the [1e-12] guard is not zero. *)
Lemma guard_false_nonzero (d : float) :
  (abs d <? 1e-12) = false -> (d =? 0) = false.
Proof.
  intros H. destruct (d =? 0) eqn:E; [ | reflexivity ].
  apply eqb_zero_inv in E as [s Hs].
  rewrite ltb_spec, abs_spec, Hs in H. vm_compute in H. discriminate.
Qed.

Lemma leb_false_nonzero (S : float) :
  (S <=? 0) = false -> (S =? 0) = false.
Proof.
  rewrite leb_spec, eqb_spec. unfold SFleb, SFeqb.
  destruct (SFcompare _ _) as [[]|]; congruence.
Qed.

Lemma nan_of_spec (x : float) : Prim2SF x = S754_nan -> x = nan.
Proof. intros H. apply Prim2SF_inj. rewrite H. reflexivity. Qed.

Lemma SFsub_diag_finite s m e :
  SF64sub (S754_finite s m e) (S754_finite s m e) = S754_zero false.
Proof. unfold SF64sub, SFsub. rewrite Z.sub_diag. reflexivity. Qed.

Lemma SFeqb_finite_inv s1 m1 e1 s2 m2 e2 :
  SFeqb (S754_finite s1 m1 e1) (S754_finite s2 m2 e2) = true ->
  s1 = s2 /\ m1 = m2 /\ e1 = e2.
Proof.
  unfold SFeqb, SFcompare.
  destruct s1, s2; try discriminate;
    destruct (Z.compare e1 e2) eqn:He; try discriminate;
    apply Z.compare_eq in He; subst e2;
    destruct (Pos.compare_cont Eq m1 m2) eqn:Hm; try discriminate;
    apply Pos.compare_eq in Hm; subst m2; auto.
Qed.

Lemma SFdiv_nan_r x : SF64div x S754_nan = S754_nan.
Proof. now destruct x. Qed.

Lemma SFmul_nan_l x : SF64mul S754_nan x = S754_nan.
Proof. reflexivity. Qed.

(** [V2 - V1] for [V1 == V2]: a zero, or NaN at the infinities. *)
Lemma sub_eqb_cases (V1 V2 : float) :
  (V1 =? V2) = true ->
  (exists s, Prim2SF (V2 - V1) = S754_zero s) \/ Prim2SF (V2 - V1) = S754_nan.
Proof.
  rewrite eqb_spec, sub_spec.
  destruct (Prim2SF V1) as [s1 | s1 | | s1 m1 e1] eqn:H1;
    destruct (Prim2SF V2) as [s2 | s2 | | s2 m2 e2] eqn:H2;
    intros H; try discriminate H;
    try (destruct s1; discriminate H); try (destruct s2; discriminate H).
  - left. destruct s1, s2; simpl; eauto.
  - right. destruct s1, s2; try discriminate; reflexivity.
  - apply SFeqb_finite_inv in H as (-> & -> & ->).
    left. exists false. apply SFsub_diag_finite.
Qed.

End FloatFacts.

(** ** Rounding to binary64 keeps signs, and where it cannot underflow *)

Section RoundingFacts.

Import F64.
Open Scope Z_scope.

Lemma digits2_lower (m : positive) : 2 ^ (Zpos (digits2_pos m) - 1) <= Zpos m.
Proof.
  induction m as [m IH | m IH | ]; cbn [digits2_pos].
  - rewrite Pos2Z.inj_succ. replace (Z.succ (Zpos (digits2_pos m)) - 1)
      with (Z.succ (Zpos (digits2_pos m) - 1)) by lia.
    rewrite Z.pow_succ_r by lia. lia.
  - rewrite Pos2Z.inj_succ. replace (Z.succ (Zpos (digits2_pos m)) - 1)
      with (Z.succ (Zpos (digits2_pos m) - 1)) by lia.
    rewrite Z.pow_succ_r by lia. lia.
  - cbn. lia.
Qed.

Lemma digits2_upper (m : positive) : Zpos m < 2 ^ Zpos (digits2_pos m).
Proof.
  induction m as [m IH | m IH | ]; cbn [digits2_pos].
  - rewrite Pos2Z.inj_succ, Z.pow_succ_r by lia. lia.
  - rewrite Pos2Z.inj_succ, Z.pow_succ_r by lia. lia.
  - cbn. lia.
Qed.

Lemma shr_1_m (mrs : shr_record) :
  0 <= shr_m mrs -> shr_m (shr_1 mrs) = shr_m mrs / 2.
Proof.
  destruct mrs as [m r s]. cbn [shr_m]. intros H.
  destruct m as [| [p | p |] | p]; cbn [shr_1 shr_m].
  - reflexivity.
  - rewrite Pos2Z.inj_xI. apply Z.div_unique with 1; lia.
  - rewrite Pos2Z.inj_xO. apply Z.div_unique with 0; lia.
  - reflexivity.
  - lia.
Qed.

Lemma iter_shr_m (p : positive) (mrs : shr_record) :
  0 <= shr_m mrs ->
  shr_m (iter_pos shr_1 p mrs) = shr_m mrs / 2 ^ Zpos p.
Proof.
  revert mrs. induction p as [p IH | p IH | ]; intros mrs H; cbn [iter_pos].
  - assert (H1 : 0 <= shr_m (shr_1 mrs)).
    { rewrite shr_1_m by exact H. apply Z.div_pos; lia. }
    assert (H2 : 0 <= shr_m (iter_pos shr_1 p (shr_1 mrs))).
    { rewrite IH by exact H1. apply Z.div_pos; [ exact H1 | lia ]. }
    rewrite IH, IH, shr_1_m by assumption.
    assert (E : 2 ^ Zpos p~1 = 2 * 2 ^ Zpos p * 2 ^ Zpos p).
    { assert (E0 : Zpos p~1 = 1 + Zpos p + Zpos p) by lia.
      rewrite E0, !Z.pow_add_r by lia. reflexivity. }
    rewrite E, !Z.div_div by lia. f_equal. ring.
  - assert (H2 : 0 <= shr_m (iter_pos shr_1 p mrs)).
    { rewrite IH by exact H. apply Z.div_pos; [ exact H | lia ]. }
    rewrite IH, IH by assumption.
    assert (E : 2 ^ Zpos p~0 = 2 ^ Zpos p * 2 ^ Zpos p).
    { assert (E0 : Zpos p~0 = Zpos p + Zpos p) by lia.
      rewrite E0, Z.pow_add_r by lia. reflexivity. }
    rewrite E, Z.div_div by lia. f_equal.
  - rewrite shr_1_m by exact H. reflexivity.
Qed.

Lemma shr_m_of_loc (m : Z) (l : location) : shr_m (shr_record_of_loc m l) = m.
Proof. destruct l as [| []]; reflexivity. Qed.

(** A right shift that goes no further than the binary64 format asks for
    leaves a nonnegative mantissa nonnegative, and a positive one positive
    when the exponent is in range. *)
Lemma shr_fexp_nonneg (m e : Z) (l : location) :
  0 <= m -> 0 <= shr_m (fst (shr_fexp prec emax m e l)).
Proof.
  intros H. unfold shr_fexp, shr.
  destruct (fexp prec emax (Zdigits2 m + e) - e) as [| p | p]; cbn [fst];
    rewrite ?iter_shr_m, ?shr_m_of_loc; rewrite ?shr_m_of_loc; try exact H.
  apply Z.div_pos; [ exact H | lia ].
Qed.

Lemma shr_fexp_pos (m e : Z) (l : location) :
  0 < m -> -1074 <= e ->
  0 < shr_m (fst (shr_fexp prec emax m e l))
  /\ e <= snd (shr_fexp prec emax m e l)
  /\ fexp prec emax (Zdigits2 m + e) <= snd (shr_fexp prec emax m e l).
Proof.
  intros Hm He. unfold shr_fexp, shr.
  destruct m as [| m | m]; try lia. cbn [Zdigits2].
  set (d := Zpos (digits2_pos m)).
  assert (Hd : 1 <= d) by (subst d; lia).
  assert (Hf : fexp prec emax (d + e) = Z.max (d + e - 53) (-1074)) by reflexivity.
  destruct (fexp prec emax (d + e) - e) as [| p | p] eqn:En; cbn [fst snd];
    rewrite ?shr_m_of_loc; try (split; [ lia | split; lia ]).
  rewrite iter_shr_m by (rewrite shr_m_of_loc; lia).
  rewrite shr_m_of_loc. split; [ | split; lia ].
  apply Z.div_str_pos. split; [ lia | ].
  apply Z.le_trans with (2 ^ (d - 1)); [ | apply digits2_lower ].
  apply Z.pow_le_mono_r; lia.
Qed.

Lemma round_nearest_even_pos (m : Z) (l : location) :
  0 < m -> 0 < round_nearest_even m l.
Proof.
  intros H. destruct l as [| []]; cbn; try lia. destruct (Z.even m); lia.
Qed.

Lemma round_nearest_even_nonneg (m : Z) (l : location) :
  0 <= m -> 0 <= round_nearest_even m l.
Proof.
  intros H. destruct l as [| []]; cbn; try lia. destruct (Z.even m); lia.
Qed.

Lemma binary_round_aux_signed (s : bool) (m e : Z) (l : location) :
  0 <= m -> signed s (binary_round_aux prec emax s m e l).
Proof.
  intros H. unfold binary_round_aux.
  pose proof (shr_fexp_nonneg m e l H) as H1.
  destruct (shr_fexp prec emax m e l) as [mrs1 e1]. cbn [fst] in H1.
  pose proof (shr_fexp_nonneg _ e1 loc_Exact
                (round_nearest_even_nonneg _ (loc_of_shr_record mrs1) H1)) as H2.
  destruct (shr_fexp prec emax _ e1 loc_Exact) as [mrs2 e2]. cbn [fst] in H2.
  destruct (shr_m mrs2) as [| p | p]; [ reflexivity | | lia ].
  now destruct (e2 <=? emax - prec).
Qed.

Lemma binary_round_aux_nonzero (s : bool) (m e : Z) (l : location) :
  0 < m -> -1074 <= e ->
  nonzero_from s (fexp prec emax (Zdigits2 m + e))
               (binary_round_aux prec emax s m e l)
  /\ nonzero_from s e (binary_round_aux prec emax s m e l).
Proof.
  intros Hm He. unfold binary_round_aux.
  pose proof (shr_fexp_pos m e l Hm He) as (H1 & E1 & F1).
  destruct (shr_fexp prec emax m e l) as [mrs1 e1]. cbn [fst snd] in *.
  pose proof (shr_fexp_pos _ e1 loc_Exact
                (round_nearest_even_pos _ (loc_of_shr_record mrs1) H1)
                ltac:(lia)) as (H2 & E2 & _).
  destruct (shr_fexp prec emax _ e1 loc_Exact) as [mrs2 e2]. cbn [fst snd] in *.
  destruct (shr_m mrs2) as [| p | p]; try lia.
  destruct (e2 <=? emax - prec); cbn; repeat split; lia.
Qed.

End RoundingFacts.

Section OperationFacts.

Import F64.
Open Scope Z_scope.

Lemma nonzero_from_weaken (s : bool) (b b' : Z) (f : spec_float) :
  b <= b' -> nonzero_from s b' f -> nonzero_from s b f.
Proof. intros H. destruct f; cbn; try tauto. intros [-> H']. split; [ reflexivity | lia ]. Qed.

Lemma xorb_false_r' (s : bool) : xorb s false = s.
Proof. now destruct s. Qed.

(** Products and quotients by a positive finite constant keep the sign. *)
Lemma SFmul_signed_l (s : bool) (mx : positive) (ex : Z) (y : spec_float) :
  signed s y -> signed s (SF64mul (S754_finite false mx ex) y).
Proof.
  destruct y as [s' | s' | | s' my ey]; cbn [signed]; try tauto; intros ->;
    unfold SF64mul, SFmul; cbn [xorb signed]; try reflexivity.
  apply binary_round_aux_signed. lia.
Qed.

Lemma SFmul_signed_r (s : bool) (x : spec_float) (my : positive) (ey : Z) :
  signed s x -> signed s (SF64mul x (S754_finite false my ey)).
Proof.
  destruct x as [s' | s' | | s' mx ex]; cbn [signed]; try tauto; intros ->;
    unfold SF64mul, SFmul; rewrite xorb_false_r'; cbn [signed]; try reflexivity.
  apply binary_round_aux_signed. lia.
Qed.

Lemma div_core_quotient (m1 e1 m2 e2 : Z) :
  fst (fst (SFdiv_core_binary prec emax m1 e1 m2 e2)) =
    (let e' := Z.min (fexp prec emax (Zdigits2 m1 + e1 - (Zdigits2 m2 + e2))) (e1 - e2) in
     let s := e1 - e2 - e' in
     (match s with Zpos _ => Z.shiftl m1 s | Z0 => m1 | Zneg _ => 0 end) / m2)
  /\ snd (fst (SFdiv_core_binary prec emax m1 e1 m2 e2)) =
       Z.min (fexp prec emax (Zdigits2 m1 + e1 - (Zdigits2 m2 + e2))) (e1 - e2).
Proof.
  unfold SFdiv_core_binary. cbv zeta. unfold Z.div.
  destruct (Z.div_eucl _ m2) as [q r]. split; reflexivity.
Qed.

Lemma SFdiv_signed_r (s : bool) (x : spec_float) (my : positive) (ey : Z) :
  signed s x -> signed s (SF64div x (S754_finite false my ey)).
Proof.
  destruct x as [s' | s' | | s' mx ex]; cbn [signed]; try tauto; intros ->;
    unfold SF64div, SFdiv; rewrite xorb_false_r'; cbn [signed]; try reflexivity.
  pose proof (div_core_quotient (Zpos mx) ex (Zpos my) ey) as [Hq _].
  destruct (SFdiv_core_binary prec emax (Zpos mx) ex (Zpos my) ey) as [[q e'] l].
  cbn [fst] in Hq. apply binary_round_aux_signed. rewrite Hq. cbv zeta.
  apply Z.div_pos; [ | lia ].
  destruct (ex - ey - _) as [| p | p]; try lia.
  apply Z.shiftl_nonneg. lia.
Qed.

(** Away from the bottom of the exponent range they do not underflow to
    zero either. *)
Lemma SFmul_nonzero_l (b : Z) (mx : positive) (ex : Z) (y : spec_float) :
  nonzero_from false b y -> -1074 <= ex + b ->
  nonzero_from false (ex + b) (SF64mul (S754_finite false mx ex) y).
Proof.
  destruct y as [s' | s' | | s' my ey]; cbn [nonzero_from]; try tauto.
  intros [-> Hb] H. unfold SF64mul, SFmul. cbn [xorb].
    apply (nonzero_from_weaken _ _ (ex + ey)); [ lia | ].
    apply binary_round_aux_nonzero; lia.
Qed.

Lemma SFmul_nonzero_r (b : Z) (x : spec_float) (my : positive) (ey : Z) :
  nonzero_from false b x -> -1074 <= b + ey ->
  nonzero_from false (b + ey) (SF64mul x (S754_finite false my ey)).
Proof.
  destruct x as [s' | s' | | s' mx ex]; cbn [nonzero_from]; try tauto.
  - intros -> _. reflexivity.
  - intros [-> Hb] H. unfold SF64mul, SFmul. cbn [xorb].
    apply (nonzero_from_weaken _ _ (ex + ey)); [ lia | ].
    apply binary_round_aux_nonzero; lia.
Qed.

Lemma SFdiv_nonzero_r (b : Z) (x : spec_float) (my : positive) (ey : Z) :
  nonzero_from false b x ->
  -1074 <= b - ey - Zpos (digits2_pos my) - 52 ->
  nonzero_from false (b - ey - Zpos (digits2_pos my) - 52)
               (SF64div x (S754_finite false my ey)).
Proof.
  destruct x as [s' | s' | | s' mx ex]; cbn [nonzero_from]; try tauto.
  - intros -> _. reflexivity.
  - intros [-> Hb] H. unfold SF64div, SFdiv. cbn [xorb].
    pose proof (div_core_quotient (Zpos mx) ex (Zpos my) ey) as [Hq He].
    destruct (SFdiv_core_binary prec emax (Zpos mx) ex (Zpos my) ey) as [[q e'] l].
    cbn [fst snd] in Hq, He. cbv zeta in Hq. rewrite <- He in Hq.
    cbn [Zdigits2] in He.
    set (d1 := Zpos (digits2_pos mx)) in *. set (d2 := Zpos (digits2_pos my)) in *.
    assert (Hd1 : 1 <= d1) by (subst d1; lia).
    assert (Hf : fexp prec emax (d1 + ex - (d2 + ey))
                 = Z.max (d1 + ex - (d2 + ey) - 53) (-1074)) by reflexivity.
    assert (He1 : ex - ey - d2 - 52 <= e') by lia.
    assert (He2 : e' <= ex - ey) by lia.
    assert (He3 : e' <= d1 + ex - d2 - ey - 53) by lia.
    assert (Hm : Zpos my <= match ex - ey - e' with
                            | Zpos _ => Z.shiftl (Zpos mx) (ex - ey - e')
                            | Z0 => Zpos mx
                            | Zneg _ => 0
                            end).
    { assert (Hs : 0 <= ex - ey - e') by lia.
      assert (E : match ex - ey - e' with
                  | Zpos _ => Z.shiftl (Zpos mx) (ex - ey - e')
                  | Z0 => Zpos mx
                  | Zneg _ => 0
                  end = Zpos mx * 2 ^ (ex - ey - e')).
      { destruct (ex - ey - e') as [| p | p] eqn:Es; try lia.
        apply Z.shiftl_mul_pow2. lia. }
      rewrite E.
      apply Z.le_trans with (2 ^ d2);
        [ pose proof (digits2_upper my); subst d2; lia | ].
      apply Z.le_trans with (2 ^ (d1 - 1) * 2 ^ (ex - ey - e')).
      - rewrite <- Z.pow_add_r by lia. apply Z.pow_le_mono_r; lia.
      - apply Z.mul_le_mono_nonneg_r; [ apply Z.pow_nonneg; lia | ].
        subst d1. apply digits2_lower. }
    assert (Hqpos : 0 < q).
    { rewrite Hq. apply Z.div_str_pos. lia. }
    apply (nonzero_from_weaken _ _ e'); [ lia | ].
    apply binary_round_aux_nonzero; lia.
Qed.

Lemma signed_leb (f : spec_float) :
  signed true f -> SFleb f (S754_zero false) = true.
Proof. destruct f as [s | s | | s m e]; cbn; try tauto; now intros ->. Qed.

Lemma nonzero_leb (b : Z) (f : spec_float) :
  nonzero_from false b f -> SFleb f (S754_zero false) = false.
Proof.
  destruct f as [s | s | | s m e]; cbn; try tauto; [ now intros -> | now intros [-> _] ].
Qed.

Lemma signed_ltb (f : spec_float) :
  signed true f -> SFltb (S754_zero false) f = false.
Proof. destruct f as [s | s | | s m e]; cbn; try tauto; now intros ->. Qed.

Lemma nonzero_ltb (b : Z) (f : spec_float) :
  nonzero_from false b f -> SFltb (S754_zero false) f = true.
Proof.
  destruct f as [s | s | | s m e]; cbn; try tauto; [ now intros -> | now intros [-> _] ].
Qed.

Lemma pos_iter_xO (m d : positive) :
  Zpos (Pos.iter xO m d) = Zpos m * 2 ^ Zpos d.
Proof.
  induction d as [| d IH] using Pos.peano_ind.
  - cbn. lia.
  - rewrite Pos.iter_succ, Pos2Z.inj_xO, IH, Pos2Z.inj_succ, Z.pow_succ_r by lia.
    ring.
Qed.

Lemma shl_align_value (m : positive) (e e' : Z) :
  e' <= e ->
  Zpos (fst (shl_align m e e')) = Zpos m * 2 ^ (e - e')
  /\ snd (shl_align m e e') = e'.
Proof.
  intros H. unfold shl_align.
  destruct (e' - e) as [| p | p] eqn:E; try lia; cbn [fst snd].
  - replace (e - e') with 0 by lia. split; lia.
  - rewrite pos_iter_xO. replace (e - e') with (Zpos p) by lia. split; reflexivity.
Qed.

Lemma shl_align_exponent (m : positive) (e e' : Z) :
  snd (shl_align m e e') = Z.min e e'.
Proof.
  unfold shl_align. destruct (e' - e) as [| p | p] eqn:E; cbn [snd]; lia.
Qed.

Lemma digits2_from_bound (m : positive) (j : Z) :
  2 ^ j <= Zpos m -> j + 1 <= Zpos (digits2_pos m).
Proof.
  intros H. pose proof (digits2_upper m) as U.
  destruct (Z.le_gt_cases (j + 1) (Zpos (digits2_pos m))) as [L | G]; [ exact L | ].
  exfalso. assert (2 ^ Zpos (digits2_pos m) <= 2 ^ j) by (apply Z.pow_le_mono_r; lia).
  lia.
Qed.

Lemma valid_exponent (s : bool) (m : positive) (e : Z) :
  valid_binary (S754_finite s m e) = true ->
  -1074 <= e /\ Zpos m < 2 ^ 53.
Proof.
  cbn [valid_binary]. unfold bounded, canonical_mantissa. intros H.
  apply andb_prop in H as [H _]. apply Z.eqb_eq in H.
  assert (Hf : fexp prec emax (Zpos (digits2_pos m) + e)
               = Z.max (Zpos (digits2_pos m) + e - 53) (-1074)) by reflexivity.
  split; [ lia | ].
  apply Z.lt_le_trans with (2 ^ Zpos (digits2_pos m)); [ apply digits2_upper | ].
  apply Z.pow_le_mono_r; lia.
Qed.

Lemma binary_round_nonzero (s : bool) (m : positive) (e : Z) :
  -1074 <= e ->
  nonzero_from s (Zpos (digits2_pos m) + e - 53) (binary_round prec emax s m e).
Proof.
  intros He. unfold binary_round.
  set (f := fexp prec emax (Zpos (digits2_pos m) + e)).
  assert (Hf : f = Z.max (Zpos (digits2_pos m) + e - 53) (-1074)) by reflexivity.
  pose proof (shl_align_exponent m e f) as Hx.
  unfold shl_align in *. destruct (f - e) as [| p | p] eqn:E; cbn [snd] in Hx.
  - apply (nonzero_from_weaken _ _ (fexp prec emax (Zdigits2 (Zpos m) + e)));
      [ cbn [Zdigits2]; fold f; lia | ].
    apply binary_round_aux_nonzero; lia.
  - apply (nonzero_from_weaken _ _ (fexp prec emax (Zdigits2 (Zpos m) + e)));
      [ cbn [Zdigits2]; fold f; lia | ].
    apply binary_round_aux_nonzero; lia.
  - apply (nonzero_from_weaken _ _ f); [ lia | ].
    apply binary_round_aux_nonzero; lia.
Qed.

Lemma binary_round_signed (s : bool) (m : positive) (e : Z) :
  signed s (binary_round prec emax s m e).
Proof.
  unfold binary_round. destruct (shl_align _ _ _) as [mz ez].
  apply binary_round_aux_signed. lia.
Qed.

(** The absolute temperature [t + 273.15], when it comes out positive, is
    far above the subnormal range: the smallest one is [2^-44]. *)
Lemma add_273_15_bound (x : spec_float) (m : positive) (e : Z) :
  valid_binary x = true ->
  SF64add x (S754_finite false 4805305618032230 (-44)) = S754_finite false m e ->
  -905 <= e.
Proof.
  intros Hv. destruct x as [s | s | | sx mx ex]; unfold SF64add, SFadd.
  - intros H. injection H as _ <-. lia.
  - discriminate.
  - discriminate.
  - apply valid_exponent in Hv as [Hex Hmx].
    set (mc := 4805305618032230%positive).
    set (ez := Z.min ex (-44)).
    destruct (shl_align_value mx ex ez ltac:(lia)) as [Vx _].
    destruct (shl_align_value mc (-44) ez ltac:(lia)) as [Vc _].
    set (ax := fst (shl_align mx ex ez)) in *.
    set (ac := fst (shl_align mc (-44) ez)) in *.
    cbv zeta. fold ez. fold ax. fold ac.
    unfold binary_normalize. cbn [cond_Zopp].
    destruct (cond_Zopp sx (Zpos ax) + Zpos ac) as [| mz | mz] eqn:Ez.
    + discriminate.
    + intros H.
      pose proof (binary_round_nonzero false mz ez ltac:(lia)) as N.
      rewrite H in N. cbn [nonzero_from] in N. destruct N as [_ N].
      assert (Hd : -852 <= Zpos (digits2_pos mz) + ez); [ | lia ].
      destruct (Z.le_gt_cases (-853) ex) as [Hc | Hc]; [ lia | ].
      assert (Ee : ez = ex) by lia.
      rewrite Ee, Z.sub_diag, Z.mul_1_r in Vx.
      set (k := -44 - ex) in *. replace (-44 - ez) with k in Vc by lia.
      assert (Hk : 2 <= k) by lia.
      assert (HP : 4 <= 2 ^ k).
      { change 4 with (2 ^ 2). apply Z.pow_le_mono_r; lia. }
      assert (Hz : 2 ^ 51 * 2 ^ k <= Zpos mz).
      { rewrite <- Ez, Vc. subst mc.
        assert (Hax : - 2 ^ 53 < cond_Zopp sx (Zpos ax))
          by (destruct sx; cbn [cond_Zopp]; lia).
        change (2 ^ 51) with 2251799813685248.
        change (2 ^ 53) with 9007199254740992 in *. lia. }
      rewrite <- Z.pow_add_r in Hz by lia.
      apply digits2_from_bound in Hz. lia.
    + intros H. pose proof (binary_round_signed true mz ez) as N.
      rewrite H in N. cbn in N. discriminate.
Qed.

End OperationFacts.

Section SlopeSign.

Import F64.
Open Scope float_scope.

(** The slope keeps the sign of the absolute temperature: it is zero or
    negative exactly when [temp_c + 273.15] is. *)
Lemma slope_sign (temp_c : float) :
  ((8.31446261815324 * (temp_c + 273.15) / 96485.33212) * 2.302585092994046 <=? 0)
  = (temp_c + 273.15 <=? 0).
Proof.
  rewrite !leb_spec, mul_spec, div_spec, mul_spec.
  change (Prim2SF 0) with (S754_zero false).
  change (Prim2SF 8.31446261815324) with (S754_finite false 4680626343612606 (-49)).
  change (Prim2SF 96485.33212) with (S754_finite false 6630421535985574 (-36)).
  change (Prim2SF 2.302585092994046) with (S754_finite false 5184960683398422 (-51)).
  pose proof (add_spec temp_c 273.15) as HT.
  change (Prim2SF 273.15) with (S754_finite false 4805305618032230 (-44)) in HT.
  pose proof (Prim2SF_valid temp_c) as Hv.
  destruct (Prim2SF (temp_c + 273.15)) as [s | s | | s m e] eqn:ET.
  - destruct s; reflexivity.
  - destruct s; reflexivity.
  - reflexivity.
  - destruct s.
    + transitivity true; [ | reflexivity ].
      apply signed_leb, SFmul_signed_r, SFdiv_signed_r, SFmul_signed_l.
      reflexivity.
    + transitivity false; [ | reflexivity ].
      symmetry in HT. pose proof (add_273_15_bound _ m e Hv HT) as He.
      assert (N0 : nonzero_from false e (S754_finite false m e))
        by (split; [ reflexivity | lia ]).
      pose proof (SFmul_nonzero_l e 4680626343612606 (-49) _ N0 ltac:(lia)) as N1.
      pose proof (SFdiv_nonzero_r _ _ 6630421535985574 (-36) N1
                    ltac:(change (digits2_pos 6630421535985574) with 53%positive; lia))
        as N2.
      pose proof (SFmul_nonzero_r _ _ 5184960683398422 (-51) N2
                    ltac:(change (digits2_pos 6630421535985574) with 53%positive; lia))
        as N3.
      exact (nonzero_leb _ _ N3).
Qed.

(** And it is positive exactly when the absolute temperature is. *)
Lemma slope_positive (temp_c : float) :
  (0 <? (8.31446261815324 * (temp_c + 273.15) / 96485.33212) * 2.302585092994046)
  = (0 <? temp_c + 273.15).
Proof.
  rewrite !ltb_spec, mul_spec, div_spec, mul_spec.
  change (Prim2SF 0) with (S754_zero false).
  change (Prim2SF 8.31446261815324) with (S754_finite false 4680626343612606 (-49)).
  change (Prim2SF 96485.33212) with (S754_finite false 6630421535985574 (-36)).
  change (Prim2SF 2.302585092994046) with (S754_finite false 5184960683398422 (-51)).
  pose proof (add_spec temp_c 273.15) as HT.
  change (Prim2SF 273.15) with (S754_finite false 4805305618032230 (-44)) in HT.
  pose proof (Prim2SF_valid temp_c) as Hv.
  destruct (Prim2SF (temp_c + 273.15)) as [s | s | | s m e] eqn:ET.
  - destruct s; reflexivity.
  - destruct s; reflexivity.
  - reflexivity.
  - destruct s.
    + transitivity false; [ | reflexivity ].
      apply signed_ltb, SFmul_signed_r, SFdiv_signed_r, SFmul_signed_l.
      reflexivity.
    + transitivity true; [ | reflexivity ].
      symmetry in HT. pose proof (add_273_15_bound _ m e Hv HT) as He.
      assert (N0 : nonzero_from false e (S754_finite false m e))
        by (split; [ reflexivity | lia ]).
      pose proof (SFmul_nonzero_l e 4680626343612606 (-49) _ N0 ltac:(lia)) as N1.
      pose proof (SFdiv_nonzero_r _ _ 6630421535985574 (-36) N1
                    ltac:(change (digits2_pos 6630421535985574) with 53%positive; lia))
        as N2.
      pose proof (SFmul_nonzero_r _ _ 5184960683398422 (-51) N2
                    ltac:(change (digits2_pos 6630421535985574) with 53%positive; lia))
        as N3.
      exact (nonzero_ltb _ _ N3).
Qed.

End SlopeSign.

(** ** The calibration engine *)

Section Calibration.

Import F64.
Open Scope float_scope.

Lemma ph_two_point_guard (v pH1 V1 pH2 V2 : float) :
  (abs (V2 - V1) <? 1e-12) = true -> ph_two_point v pH1 V1 pH2 V2 = Ok nan.
Proof. intros H. unfold ph_two_point. now rewrite H. Qed.

Lemma ph_two_point_formula (v pH1 V1 pH2 V2 : float) :
  (abs (V2 - V1) <? 1e-12) = false ->
  ph_two_point v pH1 V1 pH2 V2 =
    Ok (let a := (pH2 - pH1) / (V2 - V1) in
        let b := pH1 - a * V1 in
        a * v + b).
Proof.
  intros H. unfold ph_two_point, py_truediv.
  rewrite H, (guard_false_nonzero _ H). reflexivity.
Qed.

Lemma ph_two_point_nan_divisor (v pH1 V1 pH2 V2 : float) :
  Prim2SF (V2 - V1) = S754_nan -> ph_two_point v pH1 V1 pH2 V2 = Ok nan.
Proof.
  intros Hd. unfold ph_two_point, py_truediv.
  rewrite ltb_spec, abs_spec, eqb_spec, Hd. cbn [SFabs].
  change (SFltb S754_nan (Prim2SF 1e-12)) with false.
  change (SFeqb S754_nan (Prim2SF 0)) with false.
  cbn [bind]. f_equal. apply nan_of_spec.
  rewrite add_spec, sub_spec, mul_spec, div_spec, Hd.
  rewrite !SFdiv_nan_r, !SFmul_nan_l. reflexivity.
Qed.

Lemma ph_two_point_zero_divisor (v pH1 V1 pH2 V2 : float) s :
  Prim2SF (V2 - V1) = S754_zero s -> ph_two_point v pH1 V1 pH2 V2 = Ok nan.
Proof.
  intros Hd. unfold ph_two_point. rewrite ltb_spec, abs_spec, Hd. reflexivity.
Qed.

(** [main.py]'s guarded function on a degenerate calibration: the undefined
    sentinel, under the guard and also for [V1 == V2] at the infinities,
    where the guard does not fire. *)
Lemma ph_two_point_degenerate (v pH1 V1 pH2 V2 : float) :
  (abs (V2 - V1) <? 1e-12) = true \/ (V1 =? V2) = true ->
  ph_two_point v pH1 V1 pH2 V2 = Ok nan.
Proof.
  intros [H | H].
  - now apply ph_two_point_guard.
  - destruct (sub_eqb_cases _ _ H) as [[s Hs] | Hn].
    + now apply ph_two_point_zero_divisor with s.
    + now apply ph_two_point_nan_divisor.
Qed.

Lemma ph_two_point_never_raises (v pH1 V1 pH2 V2 : float) :
  exists x, ph_two_point v pH1 V1 pH2 V2 = Ok x.
Proof.
  destruct (abs (V2 - V1) <? 1e-12) eqn:H.
  - eexists. now apply ph_two_point_guard.
  - eexists. now apply ph_two_point_formula.
Qed.

Lemma nernst_slope_formula (temp_c : float) :
  nernst_slope_volt_per_pH temp_c = Ok ((R * (temp_c + 273.15) / F) * LN10).
Proof. reflexivity. Qed.

Lemma ph_nernst_undefined (v E0 temp_c : float) (sign : Z) :
  ((R * (temp_c + 273.15) / F) * LN10 <=? 0) = true ->
  ph_nernst v E0 temp_c sign = Ok nan.
Proof.
  intros H. unfold ph_nernst. rewrite nernst_slope_formula. cbn [bind].
  now rewrite H.
Qed.

Lemma ph_nernst_formula (v E0 temp_c : float) (sign : Z) :
  ((R * (temp_c + 273.15) / F) * LN10 <=? 0) = false ->
  ph_nernst v E0 temp_c sign =
    Ok (let S := (R * (temp_c + 273.15) / F) * LN10 in
        7 + float_of_int sign * (v - E0) / S).
Proof.
  intros H. unfold ph_nernst. rewrite nernst_slope_formula. cbn [bind].
  rewrite H. unfold py_truediv. rewrite (leb_false_nonzero _ H). reflexivity.
Qed.

Lemma ph_nernst_never_raises (v E0 temp_c : float) (sign : Z) :
  exists x, ph_nernst v E0 temp_c sign = Ok x.
Proof.
  destruct ((R * (temp_c + 273.15) / F) * LN10 <=? 0) eqn:H.
  - eexists. now apply ph_nernst_undefined.
  - eexists. now apply ph_nernst_formula.
Qed.

(** [tests/test2.py]: without the guard a zero divisor raises. *)
Lemma ph_from_voltage_zero_divisor (c : CalibParams) (V : float) :
  (cp_V2 c - cp_V1 c =? 0) = true ->
  ph_from_voltage c V = Raise ZeroDivisionError.
Proof.
  intros H. unfold ph_from_voltage, a_gain, py_truediv. now rewrite H.
Qed.

End Calibration.

Section ExactCalibration.

Import Exact.
Open Scope Q_scope.

Lemma exact_guard_nonzero (d : Q) :
  ~ Qabs d < 1 # 1000000000000 -> Qeq_bool d 0 = false.
Proof.
  intros H. destruct (Qeq_bool d 0) eqn:E; [ | reflexivity ].
  exfalso. apply H. apply Qeq_bool_iff in E. rewrite E. reflexivity.
Qed.

Lemma exact_ph_two_point_formula (v pH1 V1 pH2 V2 : Q) :
  ~ Qabs (V2 - V1) < 1 # 1000000000000 ->
  ph_two_point v pH1 V1 pH2 V2 =
    Ok (Some (let a := (pH2 - pH1) / (V2 - V1) in
              let b := pH1 - a * V1 in
              a * v + b)).
Proof.
  intros H. unfold ph_two_point, py_truediv.
  destruct (Qlt_le_dec _ _) as [Hlt | _]; [ contradiction | ].
  now rewrite (exact_guard_nonzero _ H).
Qed.

Lemma exact_calibration_points (pH1 V1 pH2 V2 : Q) :
  ~ V2 - V1 == 0 ->
  let a := (pH2 - pH1) / (V2 - V1) in
  let b := pH1 - a * V1 in
  a * V1 + b == pH1 /\ a * V2 + b == pH2.
Proof.
  intros H a b. subst a b. split; field; exact H.
Qed.

End ExactCalibration.

Section CalibrationClaims.

Import F64.
Open Scope float_scope.

(** C1, as the code has it.  [ph_two_point] never raises.  Under the guard,
    [abs (V2 - V1) < 1e-12], it returns the undefined sentinel, also for
    distinct voltages; past the guard it returns the binary64 value of
    [a*v + b] with [a = (pH2-pH1)/(V2-V1)] and [b = pH1 - a*V1], the divisor
    being then different from zero.  Read over exact rationals the same
    function past its guard returns [a*v + b], which is [pH1] at [V1] and
    [pH2] at [V2]; in binary64 the two default parameter sets of the
    repository, [(7, 2.5, 4, 3)] and [(7, 2.5, 4, 2.677)], give back both
    reference values exactly. *)
Theorem two_point_affine_past_guard
    (v pH1 V1 pH2 V2 : float) (qv qpH1 qV1 qpH2 qV2 : Q) :
  let a := (pH2 - pH1) / (V2 - V1) in
  let b := pH1 - a * V1 in
  ph_two_point v pH1 V1 pH2 V2 =
    Ok (if abs (V2 - V1) <? 1e-12 then nan else a * v + b)
  /\ ((abs (V2 - V1) <? 1e-12) = false -> (V2 - V1 =? 0) = false)
  /\ (~ (Qabs (qV2 - qV1) < 1 # 1000000000000)%Q ->
      let qa := ((qpH2 - qpH1) / (qV2 - qV1))%Q in
      let qb := (qpH1 - qa * qV1)%Q in
      Exact.ph_two_point qv qpH1 qV1 qpH2 qV2 = Ok (Some (qa * qv + qb)%Q)
      /\ Exact.ph_two_point qV1 qpH1 qV1 qpH2 qV2 = Ok (Some (qa * qV1 + qb)%Q)
      /\ Exact.ph_two_point qV2 qpH1 qV1 qpH2 qV2 = Ok (Some (qa * qV2 + qb)%Q)
      /\ (qa * qV1 + qb == qpH1)%Q
      /\ (qa * qV2 + qb == qpH2)%Q)
  /\ (ph_two_point 2.5 7 2.5 4 3 = Ok 7 /\ ph_two_point 3 7 2.5 4 3 = Ok 4)
  /\ (ph_two_point 2.5 7 2.5 4 2.677 = Ok 7
      /\ ph_two_point 2.677 7 2.5 4 2.677 = Ok 4).
Proof.
  intros a b. split.
  { destruct (abs (V2 - V1) <? 1e-12) eqn:G.
    - now apply ph_two_point_guard.
    - now apply ph_two_point_formula. }
  split; [ apply guard_false_nonzero | ]. split.
  { intros Hq.
    assert (Hnz : ~ (qV2 - qV1 == 0)%Q).
    { intros E. apply Hq. rewrite E. reflexivity. }
    cbv zeta. repeat split.
    - now apply exact_ph_two_point_formula.
    - now apply exact_ph_two_point_formula.
    - now apply exact_ph_two_point_formula.
    - now apply exact_calibration_points.
    - now apply exact_calibration_points. }
  repeat split; reflexivity.
Qed.

Lemma two_point_affine_past_guard_witness :
  ph_two_point 2.6 7 2.5 4 2.677 =
    Ok ((4 - 7) / (2.677 - 2.5) * 2.6 + (7 - (4 - 7) / (2.677 - 2.5) * 2.5))
  /\ ph_two_point 2.6 7 2.5 4 (2.5 + 1e-13) = Ok nan
  /\ ((4 - 7) / ((2677 # 1000) - (25 # 10)) * (25 # 10)
      + (7 - (4 - 7) / ((2677 # 1000) - (25 # 10)) * (25 # 10)) == 7)%Q.
Proof.
  assert (Hq : ~ (Qabs ((2677 # 1000) - (25 # 10)) < 1 # 1000000000000)%Q)
    by (vm_compute; discriminate).
  split; [ | split ].
  - exact (proj1 (two_point_affine_past_guard 2.6 7 2.5 4 2.677
                    (26 # 10) 7 (25 # 10) 4 (2677 # 1000))).
  - exact (proj1 (two_point_affine_past_guard 2.6 7 2.5 4 (2.5 + 1e-13)
                    (26 # 10) 7 (25 # 10) 4 (2677 # 1000))).
  - exact (proj1 (proj2 (proj2 (proj2
             (proj1 (proj2 (proj2
                (two_point_affine_past_guard 2.6 7 2.5 4 2.677
                   (26 # 10) 7 (25 # 10) 4 (2677 # 1000)))) Hq))))).
Defined.

(** C1 as stated fails twice on the code: two distinct voltages closer than
    [1e-12] give the undefined sentinel, not [a*v + b]; and past the guard
    the second calibration point of [(0.1, 7), (1.1, 4)] comes back as
    [3.9999999999999996]. *)
Lemma two_point_claim_counterexample :
  ((0 =? 1e-13) = false
   /\ ph_two_point 0 7 0 4 1e-13 = Ok nan
   /\ (4 - 7) / (1e-13 - 0) * 0 + (7 - (4 - 7) / (1e-13 - 0) * 0) = 7)
  /\ ((0.1 =? 1.1) = false
      /\ ph_two_point 1.1 7 0.1 4 1.1 = Ok 3.9999999999999996
      /\ (3.9999999999999996 =? 4) = false).
Proof. repeat split; reflexivity. Qed.

(** Past the guard binary64 can miss a calibration point by any amount:
    [8] for the reference [7] when the voltages are large, the undefined
    sentinel when the difference of the references overflows. *)
Example two_point_rounding_unbounded :
  (abs (1e16 + 2 - 1e16) <? 1e-12) = false
  /\ ph_two_point 1e16 7 1e16 4 (1e16 + 2) = Ok 8
  /\ (abs (2 - 1) <? 1e-12) = false
  /\ ph_two_point 1 1e308 1 (-1e308) 2 = Ok nan.
Proof. repeat split; reflexivity. Qed.

(** C2 on [tests/test2.py]: [CalibParams] divides without a guard, so equal
    calibration voltages raise [ZeroDivisionError] where [main.py]'s
    [ph_two_point] returns the undefined sentinel. *)
Theorem unguarded_gain_raises :
  a_gain (mkCalibParams 7 2.5 4 2.5 25) = Raise ZeroDivisionError
  /\ ph_from_voltage (mkCalibParams 7 2.5 4 2.5 25) 2.5 = Raise ZeroDivisionError
  /\ ph_two_point 2.5 7 2.5 4 2.5 = Ok nan.
Proof. repeat split; reflexivity. Qed.

(** C5, as the code has it.  [ph_nernst] computes the slope [S]; for
    [S <= 0] it returns the undefined sentinel, otherwise
    [7 + sign*(v - E0)/S], and it never raises.  [S <= 0] holds exactly when
    the absolute temperature [tempC + 273.15], as binary64 computes it, is
    zero or negative: at absolute zero too, not only below it. *)
Theorem nernst_ph_contract (v E0 temp_c : float) (sign : Z) :
  (sign = 1 \/ sign = -1)%Z ->
  let T := temp_c + 273.15 in
  let S := (R * T / F) * LN10 in
  nernst_slope_volt_per_pH temp_c = Ok S
  /\ ph_nernst v E0 temp_c sign =
       Ok (if S <=? 0 then nan else 7 + float_of_int sign * (v - E0) / S)
  /\ (S <=? 0) = (T <=? 0).
Proof.
  intros _ T S. split; [ reflexivity | ]. split.
  - destruct (S <=? 0) eqn:H.
    + now apply ph_nernst_undefined.
    + now apply ph_nernst_formula.
  - apply slope_sign.
Qed.

Lemma nernst_ph_contract_witness :
  ph_nernst 2.6 2.5 25 (-1) = Ok 5.3096501139820225
  /\ ph_nernst 2.6 2.5 (-300) (-1) = Ok nan
  /\ ph_nernst 2.6 2.5 (-273.15) 1 = Ok nan.
Proof.
  split; [ | split ].
  - exact (proj1 (proj2 (nernst_ph_contract 2.6 2.5 25 (-1)
                           (or_intror eq_refl)))).
  - exact (proj1 (proj2 (nernst_ph_contract 2.6 2.5 (-300) (-1)
                           (or_intror eq_refl)))).
  - exact (proj1 (proj2 (nernst_ph_contract 2.6 2.5 (-273.15) 1
                           (or_introl eq_refl)))).
Defined.

(** C5 as stated fails at absolute zero: for [tempC = -273.15] the absolute
    temperature is [0], not negative, yet the slope is [0] and the
    undefined branch is taken. *)
Lemma nernst_claim_counterexample :
  -273.15 + 273.15 = 0
  /\ (-273.15 + 273.15 <? 0) = false
  /\ nernst_slope_volt_per_pH (-273.15) = Ok 0
  /\ (0 <=? 0) = true
  /\ ph_nernst 2.6 2.5 (-273.15) (-1) = Ok nan.
Proof. repeat split; reflexivity. Qed.

(** C6: the slope is [(R*(tempC + 273.15)/F)*ln 10] with the two constants
    of the source, and at 25 degrees it is within [1e-4] of [0.05916], both
    as the float comparison computes it and on the exact value of the
    float. *)
Theorem nernst_slope_value (temp_c : float) :
  nernst_slope_volt_per_pH temp_c = Ok ((R * (temp_c + 273.15) / F) * LN10)
  /\ R = 8.31446261815324
  /\ F = 96485.33212
  /\ exists (s : float) (q : Q),
       nernst_slope_volt_per_pH 25 = Ok s
       /\ (abs (s - 0.05916) <=? 1e-4) = true
       /\ exact_value s = Some q
       /\ (Qabs (q - (5916 # 100000)) <= 1 # 10000)%Q.
Proof.
  split; [ reflexivity | ]. split; [ reflexivity | ]. split; [ reflexivity | ].
  eexists. eexists. split; [ reflexivity | ]. split; [ reflexivity | ].
  split; [ vm_compute; reflexivity | ].
  apply Qle_bool_imp_le. vm_compute. reflexivity.
Qed.

End CalibrationClaims.

(** ** The line parser *)

Section ParserFacts.

Import Re Parse.

(** The character classes of the two patterns do not overlap where the
    matcher could backtrack. *)
Lemma sign_cases (c : char) : is_sign c = true -> c = 43%N \/ c = 45%N.
Proof.
  unfold is_sign. intros H. apply orb_prop in H as [H | H];
    apply N.eqb_eq in H; auto.
Qed.

Lemma dot_cases (c : char) : is_dot c = true -> c = 46%N.
Proof. apply N.eqb_eq. Qed.

Lemma Vv_cases (c : char) : is_Vv c = true -> c = 86%N \/ c = 118%N.
Proof.
  unfold is_Vv. intros H. apply orb_prop in H as [H | H];
    apply N.eqb_eq in H; auto.
Qed.

Lemma colon_eq_cases (c : char) : is_colon_eq c = true -> c = 58%N \/ c = 61%N.
Proof.
  unfold is_colon_eq. intros H. apply orb_prop in H as [H | H];
    apply N.eqb_eq in H; auto.
Qed.

(** What holds of each of the blanks holds of every blank. *)
Lemma blanks_all (P : char -> bool) :
  forallb P blanks = true -> forall c, is_space c = true -> P c = true.
Proof.
  intros H c Hc. unfold is_space in Hc.
  apply existsb_exists in Hc as (x & Hin & E). apply N.eqb_eq in E. subst x.
  rewrite forallb_forall in H. now apply H.
Qed.

Lemma sign_not_digit (c : char) : is_sign c = true -> is_digit c = false.
Proof. intros H. destruct (sign_cases c H) as [-> | ->]; reflexivity. Qed.

Lemma digit_not_sign (c : char) : is_digit c = true -> is_sign c = false.
Proof.
  intros H. destruct (is_sign c) eqn:E; [ | reflexivity ].
  rewrite (sign_not_digit c E) in H. discriminate.
Qed.

Lemma dot_not_digit (c : char) : is_dot c = true -> is_digit c = false.
Proof. intros H. rewrite (dot_cases c H). reflexivity. Qed.

Lemma space_not_colon_eq (c : char) : is_space c = true -> is_colon_eq c = false.
Proof.
  intros H. apply negb_true_iff.
  now apply (blanks_all (fun c => negb (is_colon_eq c))).
Qed.

Lemma space_not_sign (c : char) : is_space c = true -> is_sign c = false.
Proof.
  intros H. apply negb_true_iff.
  now apply (blanks_all (fun c => negb (is_sign c))).
Qed.

Lemma space_not_digit (c : char) : is_space c = true -> is_digit c = false.
Proof.
  intros H. apply negb_true_iff.
  now apply (blanks_all (fun c => negb (is_digit c))).
Qed.

(** [span] *)

Lemma span_app (p : char -> bool) (s : text) :
  s = fst (span p s) ++ snd (span p s).
Proof.
  induction s as [| c s IH]; [ reflexivity | ].
  cbn. destruct (p c); [ | reflexivity ].
  destruct (span p s) as [a b]. cbn in *. now f_equal.
Qed.

Lemma span_all (p : char -> bool) (s : text) :
  forallb p (fst (span p s)) = true.
Proof.
  induction s as [| c s IH]; [ reflexivity | ].
  cbn. destruct (p c) eqn:E; [ | reflexivity ].
  destruct (span p s) as [a b]. cbn in *. now rewrite E.
Qed.

Lemma span_stop (p : char -> bool) (a b : text) :
  forallb p a = true ->
  match b with c :: _ => p c = false | [] => True end ->
  span p (a ++ b) = (a, b).
Proof.
  intros Ha Hb. induction a as [| c a IH]; cbn in *.
  - destruct b as [| c b]; [ reflexivity | ]. cbn. now rewrite Hb.
  - apply andb_prop in Ha as [Hc Ha]. now rewrite Hc, (IH Ha).
Qed.

Lemma span_whole (p : char -> bool) (a : text) :
  forallb p a = true -> span p a = (a, []).
Proof.
  intros H. pose proof (span_stop p a [] H I) as E.
  now rewrite app_nil_r in E.
Qed.

Lemma span_head (p : char -> bool) (c : char) (s : text) :
  p c = false -> span p (c :: s) = ([], c :: s).
Proof. intros H. cbn. now rewrite H. Qed.

Lemma span_rest_stops (p : char -> bool) (s : text) :
  match snd (span p s) with c :: _ => p c = false | [] => True end.
Proof.
  induction s as [| c s IH]; [ exact I | ].
  cbn. destruct (p c) eqn:E; [ | exact E ].
  now destruct (span p s).
Qed.

Lemma drop_while_span (p : char -> bool) (s : text) :
  drop_while p s = snd (span p s).
Proof.
  induction s as [| c s IH]; [ reflexivity | ].
  cbn. destruct (p c); [ | reflexivity ].
  rewrite IH. now destruct (span p s).
Qed.

(** The alternatives of a greedy repetition: the longest first, and every
    shorter one stops in front of a character of the class. *)
Lemma star_alts_shape (p : char -> bool) (s : text) :
  exists tl, star_alts p s = snd (span p s) :: tl /\ Forall (starts_in p) tl.
Proof.
  induction s as [| c s (tl & E & F)].
  - exists []. split; [ reflexivity | constructor ].
  - cbn. destruct (p c) eqn:Hc.
    + exists (tl ++ [c :: s]). rewrite E. split.
      * now destruct (span p s).
      * apply Forall_app. split; [ exact F | ].
        constructor; [ exact Hc | constructor ].
    + exists []. split; [ reflexivity | constructor ].
Qed.

Lemma plus_alts_shape (p : char -> bool) (s : text) :
  match fst (span p s) with
  | [] => plus_alts p s = []
  | _ :: _ => exists tl, plus_alts p s = snd (span p s) :: tl
  end.
Proof.
  destruct s as [| c s]; [ reflexivity | ].
  cbn. destruct (p c) eqn:Hc; [ | reflexivity ].
  destruct (star_alts_shape p s) as (tl & E & _).
  destruct (span p s) as [a b]. cbn in *. now exists tl.
Qed.


(** The matcher *)

Lemma map_regroup (l : list rmatch) : map regroup l = l.
Proof.
  induction l as [| [g r] l IH]; [ reflexivity | ].
  cbn. rewrite IH. now destruct g.
Qed.

Lemma run_Seq (r1 r2 : regex) (s : text) :
  run (Seq r1 r2) s = flat_map (seq_step r2) (run r1 s).
Proof. reflexivity. Qed.

Lemma run_Opt (r : regex) (s : text) :
  run (Opt r) s = run r s ++ [mkMatch None s].
Proof. reflexivity. Qed.

Lemma run_Plus (p : char -> bool) (s : text) :
  run (Plus p) s = map (mkMatch None) (plus_alts p s).
Proof. reflexivity. Qed.

Lemma seq_step_none (k : regex) (t : text) :
  seq_step k (mkMatch None t) = run k t.
Proof. unfold seq_step. cbn [group1 rest]. apply map_regroup. Qed.

Lemma run_seq_cls (p : char -> bool) (k : regex) (s : text) :
  run (Seq (Cls p) k) s =
    match s with
    | c :: s' => if p c then run k s' else []
    | [] => []
    end.
Proof.
  rewrite run_Seq. cbn [run]. destruct s as [| c s]; [ reflexivity | ].
  destruct (p c); [ | reflexivity ].
  cbn [flat_map]. now rewrite seq_step_none, app_nil_r.
Qed.

Lemma flat_map_all_nil {A B : Type} (f : A -> list B) (l : list A) :
  Forall (fun a => f a = []) l -> flat_map f l = [].
Proof.
  induction 1 as [| a l Ha _ IH]; [ reflexivity | ].
  cbn. now rewrite Ha, IH.
Qed.

(** A greedy [p*] in front of something that cannot start in [p] never
    backtracks. *)
Lemma run_seq_star (p : char -> bool) (k : regex) (s : text) :
  rejects p k -> run (Seq (Star p) k) s = run k (drop_while p s).
Proof.
  intros Hk. rewrite run_Seq. cbn [run].
  destruct (star_alts_shape p s) as (tl & E & F).
  rewrite E, drop_while_span. cbn [map flat_map].
  rewrite seq_step_none, flat_map_all_nil; [ apply app_nil_r | ].
  apply Forall_map. apply (Forall_impl _ (P := starts_in p)); [ | exact F ].
  intros [| c t] Ht; [ contradiction | ].
  now rewrite seq_step_none, (Hk c t Ht).
Qed.

Lemma run_opt_frac (s : text) :
  exists tl, run (Opt frac) s = mkMatch None (snd (frac_at s)) :: tl.
Proof.
  rewrite run_Opt. unfold frac. rewrite run_seq_cls.
  unfold frac_at. destruct s as [| d s3]; [ now exists [] | ].
  destruct (is_dot d); [ | now exists [] ].
  rewrite run_Plus. pose proof (plus_alts_shape is_digit s3) as H.
  destruct (span is_digit s3) as [fp s4]. cbn [fst snd] in H.
  destruct fp as [| f fp].
  - rewrite H. now exists [].
  - destruct H as (tl & ->). cbn. eexists. reflexivity.
Qed.

Lemma run_digits_frac (s : text) :
  match fst (span is_digit s) with
  | [] => run digits_frac s = []
  | _ :: _ =>
      exists tl,
        run digits_frac s =
          mkMatch None (snd (frac_at (snd (span is_digit s)))) :: tl
  end.
Proof.
  unfold digits_frac. rewrite run_Seq, run_Plus.
  pose proof (plus_alts_shape is_digit s) as H.
  destruct (fst (span is_digit s)) as [| c ip].
  - now rewrite H.
  - destruct H as (tl & ->). cbn [map flat_map]. rewrite seq_step_none.
    destruct (run_opt_frac (snd (span is_digit s))) as (tl' & ->).
    cbn. eexists. reflexivity.
Qed.

Lemma run_digits_frac_sign (c : char) (s : text) :
  is_sign c = true -> run digits_frac (c :: s) = [].
Proof.
  intros H. pose proof (run_digits_frac (c :: s)) as R.
  now rewrite (span_head _ _ _ (sign_not_digit c H)) in R.
Qed.

Lemma run_number_split (s : text) :
  run number s = run digits_frac (snd (split_sign s)).
Proof.
  unfold number. rewrite run_Seq, run_Opt.
  unfold split_sign. destruct s as [| c s].
  - cbn [run app flat_map snd]. now rewrite seq_step_none, app_nil_r.
  - cbn [run]. destruct (is_sign c) eqn:Hc; cbn [app flat_map snd].
    + rewrite !seq_step_none, (run_digits_frac_sign c s Hc).
      now rewrite !app_nil_r.
    + now rewrite seq_step_none, app_nil_r.
Qed.

(** The matcher agrees with the scanner on a number at the head. *)
Lemma run_number (s : text) :
  match number_at s with
  | Some (tok, r) => s = tok ++ r /\ exists tl, run number s = mkMatch None r :: tl
  | None => run number s = []
  end.
Proof.
  rewrite run_number_split. unfold number_at.
  pose proof (run_digits_frac (snd (split_sign s))) as R.
  assert (Hs : s = fst (split_sign s) ++ snd (split_sign s)).
  { unfold split_sign. destruct s as [| c s]; [ reflexivity | ].
    now destruct (is_sign c). }
  destruct (split_sign s) as [sg s1]. cbn [fst snd] in *.
  pose proof (span_app is_digit s1) as Hd.
  destruct (span is_digit s1) as [ip s2]. cbn [fst snd] in *.
  destruct ip as [| d ip]; [ exact R | ].
  assert (Hf : s2 = fst (frac_at s2) ++ snd (frac_at s2)).
  { unfold frac_at. destruct s2 as [| x s3]; [ reflexivity | ].
    destruct (is_dot x); [ | reflexivity ].
    pose proof (span_app is_digit s3) as Hs3.
    destruct (span is_digit s3) as [fp s4]. cbn [fst snd] in *.
    destruct fp; [ reflexivity | ]. cbn [fst snd app]. now rewrite Hs3. }
  destruct (frac_at s2) as [fr s4]. cbn [fst snd] in *.
  split; [ | exact R ].
  rewrite Hs, Hd, Hf, <- !app_assoc. reflexivity.
Qed.

Lemma consumed_app (tok r : text) : consumed (tok ++ r) r = tok.
Proof.
  unfold consumed. rewrite length_app, Nat.add_sub.
  rewrite firstn_app, Nat.sub_diag, firstn_all. cbn. apply app_nil_r.
Qed.

Lemma run_bare (s : text) :
  match number_at s with
  | Some (tok, r) => exists tl, run bare s = mkMatch (Some tok) r :: tl
  | None => run bare s = []
  end.
Proof.
  unfold bare. cbn [run]. pose proof (run_number s) as R.
  destruct (number_at s) as [[tok r] |].
  - destruct R as (-> & tl & ->). cbn [map rest]. rewrite consumed_app.
    eexists. reflexivity.
  - now rewrite R.
Qed.

Lemma number_at_space (c : char) (s : text) :
  is_space c = true -> number_at (c :: s) = None.
Proof.
  intros H. unfold number_at, split_sign.
  rewrite (space_not_sign c H), (span_head _ _ _ (space_not_digit c H)).
  reflexivity.
Qed.

Lemma rejects_space_bare : rejects is_space bare.
Proof.
  intros c t H. pose proof (run_bare (c :: t)) as R.
  now rewrite (number_at_space c t H) in R.
Qed.

Lemma rejects_space_colon (k : regex) : rejects is_space (Seq (Cls is_colon_eq) k).
Proof.
  intros c t H. rewrite run_seq_cls. now rewrite (space_not_colon_eq c H).
Qed.

Lemma run_tagged (s : text) :
  match tagged_at s with
  | Some tok => exists r tl, run tagged s = mkMatch (Some tok) r :: tl
  | None => run tagged s = []
  end.
Proof.
  unfold tagged. fold bare. rewrite run_seq_cls. unfold tagged_at.
  destruct s as [| c s1]; [ reflexivity | ].
  destruct (is_Vv c); [ | reflexivity ].
  rewrite run_seq_star by apply rejects_space_colon.
  rewrite run_seq_cls.
  destruct (drop_while is_space s1) as [| d s2]; [ reflexivity | ].
  destruct (is_colon_eq d); [ | reflexivity ].
  rewrite run_seq_star by apply rejects_space_bare.
  pose proof (run_bare (drop_while is_space s2)) as R.
  destruct (number_at (drop_while is_space s2)) as [[tok r] |]; cbn [option_map fst].
  - destruct R as (tl & ->). now exists r, tl.
  - exact R.
Qed.

Lemma search_bare (s : text) :
  option_map group1 (search bare s) = option_map Some (first_number s).
Proof.
  induction s as [| c s IH].
  - cbn [search first_number]. pose proof (run_bare []) as R.
    destruct (number_at []) as [[tok r] |].
    + now destruct R as (tl & ->).
    + now rewrite R.
  - cbn [search first_number]. pose proof (run_bare (c :: s)) as R.
    destruct (number_at (c :: s)) as [[tok r] |].
    + now destruct R as (tl & ->).
    + now rewrite R.
Qed.

Lemma search_tagged (s : text) :
  option_map group1 (search tagged s) = option_map Some (first_tagged s).
Proof.
  induction s as [| c s IH].
  - cbn [search first_tagged]. pose proof (run_tagged []) as R.
    destruct (tagged_at []) as [tok |].
    + now destruct R as (r & tl & ->).
    + now rewrite R.
  - cbn [search first_tagged]. pose proof (run_tagged (c :: s)) as R.
    destruct (tagged_at (c :: s)) as [tok |].
    + now destruct R as (r & tl & ->).
    + now rewrite R.
Qed.


(** Number tokens and [float] *)

Lemma number_at_token (s tok r : text) :
  number_at s = Some (tok, r) -> number_token tok.
Proof.
  unfold number_at.
  assert (Hsg : fst (split_sign s) = []
                \/ exists c, fst (split_sign s) = [c] /\ is_sign c = true).
  { unfold split_sign. destruct s as [| c s]; [ now left | ].
    destruct (is_sign c) eqn:Hc; [ right; now exists c | now left ]. }
  destruct (split_sign s) as [sg s1]. cbn [fst] in Hsg.
  pose proof (span_all is_digit s1) as Hip.
  destruct (span is_digit s1) as [ip s2]. cbn [fst] in Hip.
  destruct ip as [| d0 ip]; [ discriminate | ].
  assert (Hfr : fst (frac_at s2) = []
                \/ exists d fp, fst (frac_at s2) = d :: fp /\ is_dot d = true
                                /\ fp <> [] /\ forallb is_digit fp = true).
  { unfold frac_at. destruct s2 as [| d s3]; [ now left | ].
    destruct (is_dot d) eqn:Hd; [ | now left ].
    pose proof (span_all is_digit s3) as Hfp.
    destruct (span is_digit s3) as [fp s4]. cbn [fst] in *.
    destruct fp as [| f fp]; [ now left | ].
    right. exists d, (f :: fp). repeat split; [ exact Hd | discriminate | exact Hfp ]. }
  destruct (frac_at s2) as [fr s4]. cbn [fst] in Hfr.
  intros H. injection H as <- _.
  apply (token_parts sg (d0 :: ip) fr); [ exact Hsg | discriminate | exact Hip | exact Hfr ].
Qed.

Lemma split_sign_token (sg ip fr : text) :
  (sg = [] \/ exists c, sg = [c] /\ is_sign c = true) ->
  ip <> [] -> forallb is_digit ip = true ->
  split_sign (sg ++ ip ++ fr) = (sg, ip ++ fr).
Proof.
  intros [-> | (c & -> & Hc)] Hne Hip.
  - destruct ip as [| d ip]; [ contradiction | ].
    cbn in Hip. apply andb_prop in Hip as [Hd _].
    cbn. now rewrite (digit_not_sign d Hd).
  - cbn. now rewrite Hc.
Qed.

Lemma digit_not_dot (c : char) : is_digit c = true -> is_dot c = false.
Proof.
  intros H. destruct (is_dot c) eqn:E; [ | reflexivity ].
  rewrite (dot_not_digit c E) in H. discriminate.
Qed.

Lemma digit_not_minus (c : char) : is_digit c = true -> (45 =? c)%N = false.
Proof.
  intros H. destruct (45 =? c)%N eqn:E; [ | reflexivity ].
  apply N.eqb_eq in E. subst c. discriminate H.
Qed.

Lemma digits_no_minus (l : text) :
  forallb is_digit l = true -> existsb (N.eqb 45) l = false.
Proof.
  induction l as [| c l IH]; [ reflexivity | ].
  cbn [existsb forallb]. intros H. apply andb_prop in H as [Hc H].
  now rewrite (digit_not_minus c Hc), (IH H).
Qed.

Lemma filter_digits (l : text) :
  forallb is_digit l = true -> filter is_digit l = l.
Proof.
  induction l as [| c l IH]; [ reflexivity | ].
  cbn [filter forallb]. intros H. apply andb_prop in H as [Hc H].
  now rewrite Hc, (IH H).
Qed.

Lemma drop_to_dot_digits (l r : text) :
  forallb is_digit l = true ->
  drop_while (fun c => negb (is_dot c)) (l ++ r) =
    drop_while (fun c => negb (is_dot c)) r.
Proof.
  induction l as [| c l IH]; [ reflexivity | ].
  cbn [app drop_while forallb]. intros H. apply andb_prop in H as [Hc H].
  rewrite (digit_not_dot c Hc). cbn [negb]. now apply IH.
Qed.

(** The parts of a token, and what they contribute to its value. *)
Lemma sign_part (sg : text) :
  (sg = [] \/ exists c, sg = [c] /\ is_sign c = true) ->
  existsb (N.eqb 45) sg = is_minus sg /\ filter is_digit sg = []
  /\ forall r, drop_while (fun c => negb (is_dot c)) (sg ++ r) =
               drop_while (fun c => negb (is_dot c)) r.
Proof.
  intros [-> | (c & -> & Hc)]; [ repeat split | ].
  destruct (sign_cases c Hc) as [-> | ->]; repeat split.
Qed.

Lemma frac_part (fr : text) :
  (fr = [] \/ exists d fp, fr = d :: fp /\ is_dot d = true /\ fp <> []
                           /\ forallb is_digit fp = true) ->
  existsb (N.eqb 45) fr = false /\ filter is_digit fr = List.tl fr
  /\ drop_while (fun c => negb (is_dot c)) fr = fr
  /\ forallb is_digit (List.tl fr) = true.
Proof.
  intros [-> | (d & fp & -> & Hd & _ & Hfp)]; [ repeat split | ].
  pose proof (dot_cases d Hd) as ->. cbn [List.tl].
  split; [ cbn [existsb]; now rewrite (digits_no_minus fp Hfp) | ].
  split; [ cbn [filter]; change (is_digit 46%N) with false;
           now apply filter_digits | ].
  split; [ reflexivity | exact Hfp ].
Qed.

Lemma token_value_parts (sg ip fr : text) :
  (sg = [] \/ exists c, sg = [c] /\ is_sign c = true) ->
  forallb is_digit ip = true ->
  (fr = [] \/ exists d fp, fr = d :: fp /\ is_dot d = true /\ fp <> []
                           /\ forallb is_digit fp = true) ->
  token_value (sg ++ ip ++ fr) =
    float_of_decimal (is_minus sg) (decimal_value (ip ++ List.tl fr))
                     (List.length (List.tl fr)).
Proof.
  intros Hsg Hip Hfr.
  destruct (sign_part sg Hsg) as (S1 & S2 & S3).
  destruct (frac_part fr Hfr) as (F1 & F2 & F3 & F4).
  unfold token_value, token_negative, token_digits, token_places.
  rewrite !existsb_app, !filter_app, S1, S2, S3, F1, F2.
  rewrite (digits_no_minus ip Hip), (filter_digits ip Hip).
  rewrite (drop_to_dot_digits ip fr Hip), F3, F2.
  cbn [app]. now rewrite !orb_false_r.
Qed.

Lemma py_float_token (tok : text) :
  number_token tok -> py_float tok = Ok (token_value tok).
Proof.
  intros [sg ip fr Hsg Hne Hip Hfr].
  rewrite (token_value_parts sg ip fr Hsg Hip Hfr).
  unfold py_float.
  rewrite (split_sign_token sg ip fr Hsg Hne Hip).
  destruct Hfr as [-> | (d & fp & -> & Hd & Hfne & Hfp)].
  - rewrite (span_stop is_digit ip [] Hip I).
    destruct ip; [ contradiction | ]. cbn [List.tl List.length].
    now rewrite app_nil_r.
  - rewrite (span_stop is_digit ip (d :: fp) Hip (dot_not_digit d Hd)).
    rewrite Hd. cbn [List.tl].
    rewrite (span_whole is_digit fp Hfp).
    destruct ip; [ contradiction | ]. reflexivity.
Qed.

Lemma first_number_token (s tok : text) :
  first_number s = Some tok -> number_token tok.
Proof.
  induction s as [| c s IH]; cbn [first_number].
  - destruct (number_at []) as [[t r] |] eqn:E; [ | discriminate ].
    intros H. injection H as <-. now apply (number_at_token _ _ _ E).
  - destruct (number_at (c :: s)) as [[t r] |] eqn:E; [ | exact IH ].
    intros H. injection H as <-. now apply (number_at_token _ _ _ E).
Qed.

Lemma tagged_at_token (s tok : text) :
  tagged_at s = Some tok -> number_token tok.
Proof.
  unfold tagged_at. destruct s as [| c s1]; [ discriminate | ].
  destruct (is_Vv c); [ | discriminate ].
  destruct (drop_while is_space s1) as [| d s2]; [ discriminate | ].
  destruct (is_colon_eq d); [ | discriminate ].
  destruct (number_at (drop_while is_space s2)) as [[t r] |] eqn:E;
    [ | discriminate ].
  intros H. injection H as <-. now apply (number_at_token _ _ _ E).
Qed.

Lemma first_tagged_token (s tok : text) :
  first_tagged s = Some tok -> number_token tok.
Proof.
  induction s as [| c s IH]; cbn [first_tagged].
  - destruct (tagged_at []) as [t |] eqn:E; [ | discriminate ].
    intros H. injection H as <-. now apply (tagged_at_token _ _ E).
  - destruct (tagged_at (c :: s)) as [t |] eqn:E; [ | exact IH ].
    intros H. injection H as <-. now apply (tagged_at_token _ _ E).
Qed.

(** Digits and tokens *)

Lemma number_at_digit (c : char) (s : text) :
  is_digit c = true -> exists tr, number_at (c :: s) = Some tr.
Proof.
  intros H. unfold number_at, split_sign.
  rewrite (digit_not_sign c H). cbn [span]. rewrite H.
  destruct (span is_digit s) as [ip s2].
  destruct (frac_at s2) as [fr s4]. eexists. reflexivity.
Qed.

Lemma first_number_some (s : text) :
  has_digit s = true -> exists tok, first_number s = Some tok.
Proof.
  unfold has_digit. induction s as [| c s IH]; [ discriminate | ].
  cbn [existsb first_number]. intros H.
  destruct (number_at (c :: s)) as [[t r] |] eqn:E; [ now exists t | ].
  destruct (is_digit c) eqn:Hc.
  - destruct (number_at_digit c s Hc) as (tr & E'). congruence.
  - now apply IH.
Qed.

Lemma number_token_has_digit (tok : text) :
  number_token tok -> has_digit tok = true.
Proof.
  intros [sg ip fr _ Hne Hip _]. unfold has_digit.
  rewrite !existsb_app. destruct ip as [| d ip]; [ contradiction | ].
  cbn in *. apply andb_prop in Hip as [-> _].
  now rewrite orb_true_r.
Qed.

Lemma number_at_has_digit (s : text) (tr : text * text) :
  number_at s = Some tr -> has_digit s = true.
Proof.
  intros E. destruct tr as [tok r].
  pose proof (run_number s) as R. rewrite E in R. destruct R as (-> & _).
  unfold has_digit. rewrite existsb_app.
  fold (has_digit tok).
  now rewrite (number_token_has_digit tok (number_at_token _ _ _ E)).
Qed.

Lemma has_digit_drop_while (p : char -> bool) (s : text) :
  has_digit (drop_while p s) = true -> has_digit s = true.
Proof.
  unfold has_digit. induction s as [| c s IH]; [ trivial | ].
  cbn [drop_while]. destruct (p c); [ | trivial ].
  intros H. cbn. rewrite (IH H). apply orb_true_r.
Qed.

Lemma tagged_at_has_digit (s tok : text) :
  tagged_at s = Some tok -> has_digit s = true.
Proof.
  unfold tagged_at. destruct s as [| c s1]; [ discriminate | ].
  destruct (is_Vv c); [ | discriminate ].
  destruct (drop_while is_space s1) as [| d s2] eqn:E1; [ discriminate | ].
  destruct (is_colon_eq d); [ | discriminate ].
  destruct (number_at (drop_while is_space s2)) as [tr |] eqn:E2;
    [ | discriminate ].
  intros _.
  assert (H2 : has_digit s2 = true)
    by (eapply has_digit_drop_while, number_at_has_digit, E2).
  assert (H1 : has_digit s1 = true).
  { apply (has_digit_drop_while is_space). rewrite E1.
    unfold has_digit in *. cbn. rewrite H2. apply orb_true_r. }
  unfold has_digit in *. cbn. rewrite H1. apply orb_true_r.
Qed.

Lemma no_digit_no_token (s : text) :
  has_digit s = false -> first_tagged s = None /\ first_number s = None.
Proof.
  induction s as [| c s IH]; intros H.
  - split; reflexivity.
  - assert (Hs : has_digit s = false).
    { unfold has_digit in *. cbn in H. now apply orb_false_elim in H. }
    destruct (IH Hs) as [IH1 IH2]. cbn [first_tagged first_number]. split.
    + destruct (tagged_at (c :: s)) as [t |] eqn:E; [ | exact IH1 ].
      rewrite (tagged_at_has_digit _ _ E) in H. discriminate.
    + destruct (number_at (c :: s)) as [[t r] |] eqn:E; [ | exact IH2 ].
      rewrite (number_at_has_digit _ _ E) in H. discriminate.
Qed.

(** The parser, as the contract words it *)

Lemma float_of_group_token (m : rmatch) (tok : text) :
  group1 m = Some tok -> number_token tok ->
  float_of_group m = Ok (token_value tok).
Proof.
  intros Hg Ht. unfold float_of_group. rewrite Hg. now apply py_float_token.
Qed.

Lemma parse_voltage_from_line_spec (line : text) :
  parse_voltage_from_line line =
    Ok (option_map token_value (first_voltage_token line)).
Proof.
  unfold parse_voltage_from_line, first_voltage_token.
  pose proof (search_tagged line) as T.
  destruct (search tagged line) as [m |];
    destruct (first_tagged line) as [tok |] eqn:Et; try discriminate T.
  - cbn in T. injection T as T.
    rewrite (float_of_group_token m tok T (first_tagged_token _ _ Et)).
    reflexivity.
  - pose proof (search_bare line) as B.
    destruct (search bare line) as [m |];
      destruct (first_number line) as [tok |] eqn:En; try discriminate B.
    + cbn in B. injection B as B.
      rewrite (float_of_group_token m tok B (first_number_token _ _ En)).
      reflexivity.
    + reflexivity.
Qed.

End ParserFacts.

Section ParserClaims.

Import Re Parse.
Open Scope float_scope.

(** C3: on every line, of any code points, [parse_voltage_from_line] never
    raises; it returns the value of the first number tagged [V=] or [V:]
    (either case, blanks allowed around the separator) wherever it stands
    in the line, else of the first decimal number, and it is absent exactly
    when the line holds no digit.  The five lines of the contract, signed
    numbers, and digits and blanks beyond ASCII are read as Python reads
    them. *)
Theorem parse_voltage_contract (line : text) :
  parse_voltage_from_line line =
    Ok (option_map token_value
          (match first_tagged line with
           | Some tok => Some tok
           | None => first_number line
           end))
  /\ (exists x : float,
        parse_voltage_from_line line = Ok (if has_digit line then Some x else None))
  /\ (parse_voltage_from_line (text_of_string "V=2.9734") = Ok (Some 2.9734)
      /\ parse_voltage_from_line (text_of_string "2.9734") = Ok (Some 2.9734)
      /\ parse_voltage_from_line (text_of_string "V,2.97,pH,7.01") = Ok (Some 2.97)
      /\ parse_voltage_from_line (text_of_string "foo V: 3.1 bar") = Ok (Some 3.1)
      /\ parse_voltage_from_line (text_of_string "no numbers here") = Ok None)
  /\ (parse_voltage_from_line (text_of_string "V=-2.5") = Ok (Some (-2.5))
      /\ parse_voltage_from_line (text_of_string "-0.75 V") = Ok (Some (-0.75))
      /\ parse_voltage_from_line (text_of_string "+3.25") = Ok (Some 3.25)
      /\ parse_voltage_from_line (text_of_string "x-7") = Ok (Some (-7))
      /\ parse_voltage_from_line (text_of_string "v = +0.5") = Ok (Some 0.5)
      /\ parse_voltage_from_line (text_of_string "-0") = Ok (Some (-0)))
  /\ (parse_voltage_from_line [1635]%N = Ok (Some 3)
      /\ parse_voltage_from_line [49; 32; 86; 8195; 61; 12288; 45; 2408; 46; 65301]%N
         = Ok (Some (-2.5))
      /\ parse_voltage_from_line [118; 58; 120783; 1776; 46; 50]%N = Ok (Some 10.2)
      /\ parse_voltage_from_line [57; 86; 8203; 61; 55]%N = Ok (Some 9)
      /\ parse_voltage_from_line [8722; 178; 9312]%N = Ok None).
Proof.
  split; [ apply parse_voltage_from_line_spec | ]. split.
  - rewrite parse_voltage_from_line_spec. unfold first_voltage_token.
    destruct (has_digit line) eqn:H.
    + destruct (first_tagged line) as [tok |]; [ eexists; reflexivity | ].
      destruct (first_number_some line H) as (tok & ->). eexists. reflexivity.
    + destruct (no_digit_no_token line H) as [-> ->]. now exists 0.
  - repeat split; vm_compute; reflexivity.
Qed.

(** A tagged number wins over a number that stands before it. *)
Example tagged_number_preferred :
  parse_voltage_from_line (text_of_string "12 V=3.5") = Ok (Some 3.5)
  /\ parse_voltage_from_line (text_of_string "v : -0.25 mV 7") = Ok (Some (-0.25))
  /\ parse_voltage_from_line (text_of_string "V,12") = Ok (Some 12).
Proof. repeat split; vm_compute; reflexivity. Qed.

End ParserClaims.

(** ** The bounded deque *)

Section DequeFacts.

Import Deque.

Context {A : Type}.

Lemma maxlen_append (x : A) (d : deque A) : maxlen (append x d) = maxlen d.
Proof. reflexivity. Qed.

Lemma length_append (x : A) (d : deque A) :
  List.length (items (append x d)) =
    if (maxlen d <? S (List.length (items d)))%nat
    then List.length (items d) else S (List.length (items d)).
Proof.
  unfold append. cbn [items maxlen].
  rewrite length_app, Nat.add_1_r.
  destruct (maxlen d <? S (List.length (items d)))%nat.
  - destruct (items d); cbn; [ reflexivity | ].
    now rewrite length_app, Nat.add_1_r.
  - now rewrite length_app, Nat.add_1_r.
Qed.

Lemma append_bounded (x : A) (d : deque A) :
  List.length (items d) <= maxlen d ->
  List.length (items (append x d)) <= maxlen d.
Proof.
  intros H. rewrite length_append.
  destruct (Nat.ltb_spec (maxlen d) (S (List.length (items d)))); lia.
Qed.

Lemma lastn_all (k : nat) (l : list A) :
  List.length l <= k -> lastn k l = l.
Proof.
  intros H. unfold lastn. now replace (List.length l - k) with 0 by lia.
Qed.

Lemma length_lastn (k : nat) (l : list A) :
  List.length (lastn k l) = Nat.min k (List.length l).
Proof. unfold lastn. rewrite length_skipn. lia. Qed.

Lemma lastn_suffix (k : nat) (l : list A) :
  l = firstn (List.length l - k) l ++ lastn k l.
Proof. unfold lastn. now rewrite firstn_skipn. Qed.

Lemma lastn_snoc (k : nat) (l : list A) (x : A) :
  lastn k (lastn k l ++ [x]) = lastn k (l ++ [x]).
Proof.
  destruct (Nat.le_gt_cases (List.length l) k) as [H | H].
  - now rewrite (lastn_all k l H).
  - unfold lastn at 1 3. rewrite !length_app, length_lastn. cbn [List.length].
    replace (Nat.min k (List.length l) + 1 - k) with 1 by lia.
    replace (List.length l + 1 - k) with (1 + (List.length l - k)) by lia.
    rewrite <- skipn_skipn. f_equal. unfold lastn.
    rewrite skipn_app.
    replace (List.length l - k - List.length l) with 0 by lia.
    reflexivity.
Qed.

(** One append keeps the last [maxlen] of what was there and the new item. *)
Lemma items_append (x : A) (d : deque A) :
  List.length (items d) <= maxlen d ->
  items (append x d) = lastn (maxlen d) (items d ++ [x]).
Proof.
  intros H. unfold append. cbn [items]. unfold lastn.
  rewrite length_app. cbn [List.length]. rewrite Nat.add_1_r.
  destruct (Nat.ltb_spec (maxlen d) (S (List.length (items d)))) as [Hlt | Hge].
  - replace (S (List.length (items d)) - maxlen d) with 1 by lia.
    reflexivity.
  - now replace (S (List.length (items d)) - maxlen d) with 0 by lia.
Qed.

Lemma extend_snoc (d : deque A) (xs : list A) (x : A) :
  extend d (xs ++ [x]) = append x (extend d xs).
Proof. unfold extend. now rewrite fold_left_app. Qed.

Lemma maxlen_extend (d : deque A) (xs : list A) :
  maxlen (extend d xs) = maxlen d.
Proof.
  induction xs as [| x xs IH] using rev_ind; [ reflexivity | ].
  now rewrite extend_snoc, maxlen_append.
Qed.

(** FIFO eviction: a bounded deque holds the last [maxlen] of everything
    that was ever in it. *)
Lemma items_extend (d : deque A) (xs : list A) :
  List.length (items d) <= maxlen d ->
  items (extend d xs) = lastn (maxlen d) (items d ++ xs).
Proof.
  intros H. induction xs as [| x xs IH] using rev_ind.
  - rewrite app_nil_r. symmetry. now apply lastn_all.
  - rewrite extend_snoc, items_append; rewrite maxlen_extend.
    + rewrite IH, app_assoc. apply lastn_snoc.
    + rewrite IH, length_lastn. lia.
Qed.

Lemma extend_bounded (d : deque A) (xs : list A) :
  List.length (items d) <= maxlen d ->
  List.length (items (extend d xs)) <= maxlen d.
Proof. intros H. rewrite items_extend, length_lastn by exact H. lia. Qed.

End DequeFacts.

(** ** The list buffer of [tests/test2.py] *)

Section StreamFacts.

Import Deque Stream.

Lemma trim_data (st : state) :
  data (trim st) = lastn MAX_POINTS (data st).
Proof.
  unfold trim.
  destruct (Nat.ltb_spec MAX_POINTS (List.length (data st))) as [H | H].
  - reflexivity.
  - symmetry. now apply lastn_all.
Qed.

(** Inside a drain nothing is dropped: the loop leaves the list it found
    followed by every record it made. *)
Lemma drain_loop_data (u : bool) (c : F64.CalibParams) (queue : list item)
    (st st' : state) :
  drain_loop u c queue st = Ok st' ->
  data st' = data st ++ drained u c queue.
Proof.
  revert st. induction queue as [| it queue IH]; intros st H.
  - cbn in H. injection H as <-. cbn. now rewrite app_nil_r.
  - destruct it as [t V pc pn | line | msg]; cbn [drain_loop drained] in *.
    + destruct u.
      * destruct (F64.ph_from_voltage c V) as [x | e]; [ | discriminate ].
        cbn [bind] in H. apply IH in H. rewrite H. cbn [data].
        now rewrite <- app_assoc.
      * cbn [bind] in H. apply IH in H. rewrite H. cbn [data].
        now rewrite <- app_assoc.
    + apply IH in H. now rewrite H.
    + injection H as <-. cbn. now rewrite app_nil_r.
Qed.

(** Without the local re-calibration no step of the loop can raise. *)
Lemma drain_loop_returns (c : F64.CalibParams) (queue : list item) (st : state) :
  exists st', drain_loop false c queue st = Ok st'.
Proof.
  revert st. induction queue as [| it queue IH]; intros st.
  - eexists. reflexivity.
  - destruct it as [t V pc pn | line | msg]; cbn [drain_loop bind].
    + apply IH.
    + apply IH.
    + eexists. reflexivity.
Qed.

(** After a drain the list holds the last [MAX_POINTS] of what it held and
    what was drained, in arrival order. *)
Lemma drain_keeps_last (u : bool) (st st' : state) :
  drain_queue_to_buffer u st = Ok st' ->
  data st' = lastn MAX_POINTS (data st ++ drained u (calib st) (q st))
  /\ List.length (data st') <= MAX_POINTS.
Proof.
  unfold drain_queue_to_buffer.
  destruct (drain_loop u (calib st) (q st) st) as [st1 | e] eqn:E;
    [ | discriminate ].
  cbn [bind]. intros H. injection H as <-.
  rewrite trim_data, (drain_loop_data _ _ _ _ _ E). split; [ reflexivity | ].
  rewrite length_lastn. lia.
Qed.

End StreamFacts.

(** C4, as the code has it.  [C + k] appends to an empty deque of capacity
    [C], the buffer of [main.py], leave exactly the last [C] items in their
    order, the first [k] having been evicted oldest first, and at no point
    along the way does the deque hold more than [C] items.  The list of
    [tests/test2.py] is trimmed at the end of a drain only: a drain that
    returns leaves exactly the last [MAX_POINTS] of the records held and
    drained, in their order, so at most [MAX_POINTS]; inside the drain the
    list holds every record appended so far.  A drain without local
    re-calibration always returns. *)
Theorem deque_keeps_last_capacity {A : Type} (C k : nat) (xs : list A) :
  List.length xs = C + k ->
  Deque.items (Deque.extend (Deque.empty C) xs) = skipn k xs
  /\ List.length (Deque.items (Deque.extend (Deque.empty C) xs)) = C
  /\ (forall j : nat,
        List.length (Deque.items (Deque.extend (Deque.empty C) (firstn j xs))) <= C)
  /\ (forall (x : A) (d : Deque.deque A),
        List.length (Deque.items d) <= Deque.maxlen d ->
        List.length (Deque.items (Deque.append x d)) <= Deque.maxlen d)
  /\ (forall (u : bool) (st st' : Stream.state),
        Stream.drain_queue_to_buffer u st = Ok st' ->
        Stream.data st' =
          Deque.lastn Stream.MAX_POINTS
            (Stream.data st ++ Stream.drained u (Stream.calib st) (Stream.q st))
        /\ List.length (Stream.data st') <= Stream.MAX_POINTS)
  /\ (forall (u : bool) (st st1 : Stream.state),
        Stream.drain_loop u (Stream.calib st) (Stream.q st) st = Ok st1 ->
        Stream.data st1 =
          (Stream.data st ++ Stream.drained u (Stream.calib st) (Stream.q st))%list)
  /\ (forall st : Stream.state,
        exists st', Stream.drain_queue_to_buffer false st = Ok st').
Proof.
  intros Hlen.
  assert (H0 : List.length (Deque.items (Deque.empty (A := A) C))
               <= Deque.maxlen (Deque.empty (A := A) C)) by (cbn; lia).
  assert (E : Deque.items (Deque.extend (Deque.empty C) xs) = skipn k xs).
  { rewrite items_extend by exact H0. cbn [Deque.empty Deque.items Deque.maxlen app].
    unfold Deque.lastn. f_equal. lia. }
  split; [ exact E | ]. split.
  { rewrite E, length_skipn. lia. }
  split.
  { intros j. apply (extend_bounded (Deque.empty C) (firstn j xs) H0). }
  split.
  { intros x d. apply append_bounded. }
  split.
  { intros u st st'. apply drain_keeps_last. }
  split.
  { intros u st st1. apply drain_loop_data. }
  intros st. unfold Stream.drain_queue_to_buffer.
  destruct (drain_loop_returns (Stream.calib st) (Stream.q st) st) as (st1 & ->).
  eexists. reflexivity.
Qed.

Lemma deque_keeps_last_capacity_witness :
  Deque.items (Deque.extend (Deque.empty 2) [10; 20; 30; 40; 50]) = [40; 50]
  /\ List.length
       (Deque.items (Deque.extend (Deque.empty 2) (firstn 3 [10; 20; 30; 40; 50])))
     <= 2
  /\ forall st' : Stream.state,
       Stream.drain_queue_to_buffer false
         (Stream.mkState true false (F64.mkCalibParams 7 2.5 4 2.677 25)
            [Stream.DATA 2 2.6 6.4 8.7; Stream.LOG (Re.text_of_string "ok"); Stream.DATA 3 2.7 5.8 10.4]
            [Stream.mkRec 1 2.5 7 7 None])
       = Ok st' ->
       Stream.data st' =
         [Stream.mkRec 1 2.5 7 7 None; Stream.mkRec 2 2.6 6.4 8.7 None;
          Stream.mkRec 3 2.7 5.8 10.4 None].
Proof.
  split; [ | split ].
  - exact (proj1 (deque_keeps_last_capacity 2 3 [10; 20; 30; 40; 50] eq_refl)).
  - exact (proj1 (proj2 (proj2
             (deque_keeps_last_capacity 2 3 [10; 20; 30; 40; 50] eq_refl))) 3).
  - intros st' H.
    exact (proj1 (proj1 (proj2 (proj2 (proj2 (proj2
             (deque_keeps_last_capacity 2 3 [10; 20; 30; 40; 50] eq_refl)))))
             false _ st' H)).
Defined.

(** C4 as stated fails on the list of [tests/test2.py]: draining
    [MAX_POINTS + 1] data items into the empty list, the loop ends with
    [MAX_POINTS + 1] records in the list, one more than the capacity; the
    trim that follows brings it back to [MAX_POINTS]. *)
Lemma list_buffer_claim_counterexample :
  let c := F64.mkCalibParams 7 2.5 4 2.677 25 in
  let queue := repeat (Stream.DATA 0 2.5 7 7) (Stream.MAX_POINTS + 1) in
  let st := Stream.mkState true false c queue [] in
  (match Stream.drain_loop false c queue st with
   | Ok st1 => List.length (Stream.data st1)
   | Raise _ => 0
   end = Stream.MAX_POINTS + 1)
  /\ (Stream.MAX_POINTS <? Stream.MAX_POINTS + 1) = true
  /\ match Stream.drain_queue_to_buffer false st with
     | Ok st' => List.length (Stream.data st')
     | Raise _ => 0
     end = Stream.MAX_POINTS.
Proof. vm_compute. repeat split. Qed.

(** ** The session: parallel buffers, reset, window *)

Section SessionFacts.

Import Deque App.

Lemma length_zip_rows (ts vs ps ns : list float) :
  List.length vs = List.length ts ->
  List.length ps = List.length ts ->
  List.length ns = List.length ts ->
  List.length (zip_rows ts vs ps ns) = List.length ts.
Proof.
  revert vs ps ns. induction ts as [| t ts IH]; intros [| v vs] [| p ps] [| n ns];
    cbn; intros H1 H2 H3; try discriminate; [ reflexivity | ].
  f_equal. apply IH; congruence.
Qed.


Lemma zip_rows_snoc (ts vs ps ns : list float) (t v p n : float) :
  List.length vs = List.length ts ->
  List.length ps = List.length ts ->
  List.length ns = List.length ts ->
  zip_rows (ts ++ [t]) (vs ++ [v]) (ps ++ [p]) (ns ++ [n]) =
    zip_rows ts vs ps ns ++ [mkSample t v p n].
Proof.
  revert vs ps ns. induction ts as [| t' ts IH]; intros [| v' vs] [| p' ps] [| n' ns];
    cbn; intros H1 H2 H3; try discriminate; [ reflexivity | ].
  f_equal. apply IH; congruence.
Qed.

Lemma zip_rows_tl (ts vs ps ns : list float) :
  zip_rows (tl ts) (tl vs) (tl ps) (tl ns) = tl (zip_rows ts vs ps ns).
Proof.
  destruct ts as [| t ts], vs as [| v vs], ps as [| p ps], ns as [| n ns];
    cbn; try reflexivity;
    repeat match goal with
           | |- context [zip_rows ?l _ _ _] => is_var l; destruct l; cbn
           | |- context [zip_rows (_ :: _) ?l _ _] => is_var l; destruct l; cbn
           | |- context [zip_rows (_ :: _) (_ :: _) ?l _] => is_var l; destruct l; cbn
           | |- context [match ?l with [] => _ | _ :: _ => _ end] =>
               is_var l; destruct l; cbn
           end; reflexivity.
Qed.

Lemma coherent_initial (now : float) : coherent (initial_session now).
Proof. repeat split. Qed.

Lemma coherent_append_sample (x : Sample) (st : session) :
  coherent st -> coherent (append_sample x st).
Proof.
  intros ((M1 & M2 & M3 & M4) & L1 & L2 & L3).
  unfold coherent, append_sample. cbn [buf_t buf_V buf_pH_tp buf_pH_nernst].
  rewrite !maxlen_append, !length_append, M1, M2, M3, M4, L1, L2, L3.
  repeat split.
Qed.

Lemma coherent_reset_buffers (now : float) (st : session) :
  coherent st -> coherent (reset_buffers now st).
Proof.
  intros ((M1 & M2 & M3 & M4) & _). repeat split; assumption.
Qed.

(** The four appends of a sample act as one append on the rows. *)
Lemma samples_append_sample (x : Sample) (st : session) :
  coherent st ->
  samples (append_sample x st) =
    items (append x (mkDeque MAX_BUFFER (samples st))).
Proof.
  intros ((M1 & M2 & M3 & M4) & L1 & L2 & L3).
  destruct x as [t v p n].
  unfold samples, append_sample, append.
  cbn [buf_t buf_V buf_pH_tp buf_pH_nernst items maxlen t_rel V pH_tp pH_nernst].
  rewrite M1, M2, M3, M4, !length_app, length_zip_rows, L1, L2, L3 by assumption.
  rewrite <- (zip_rows_snoc _ _ _ _ t v p n) by assumption.
  cbn [List.length].
  destruct (MAX_BUFFER <? List.length (items (buf_t st)) + 1)%nat.
  - apply zip_rows_tl.
  - reflexivity.
Qed.

Lemma record_voltage_absent (ui : widgets) (t : float) (st : session) :
  record_voltage ui t None st = Ok st.
Proof. reflexivity. Qed.

Lemma record_voltage_present (ui : widgets) (t v : float) (st : session) :
  exists p n,
    F64.ph_two_point v (pH1 ui) (V1 ui) (pH2 ui) (V2 ui) = Ok p
    /\ F64.ph_nernst v (E0 ui) (temp_c ui) sign = Ok n
    /\ record_voltage ui t (Some v) st = Ok (append_sample (mkSample t v p n) st).
Proof.
  destruct (ph_two_point_never_raises v (pH1 ui) (V1 ui) (pH2 ui) (V2 ui)) as [p Hp].
  destruct (ph_nernst_never_raises v (E0 ui) (temp_c ui) sign) as [n Hn].
  exists p, n. unfold record_voltage. rewrite Hp, Hn. auto.
Qed.

Lemma coherent_record_voltage (ui : widgets) (t : float) (v : option float)
    (st st' : session) :
  coherent st -> record_voltage ui t v st = Ok st' -> coherent st'.
Proof.
  intros Hc H. destruct v as [v |].
  - destruct (record_voltage_present ui t v st) as (p & n & _ & _ & E).
    rewrite E in H. injection H as <-. now apply coherent_append_sample.
  - cbn in H. now injection H as <-.
Qed.

Lemma coherent_update_buffers (ui : widgets) (w : env) (st st' : session) :
  coherent st -> update_buffers ui w st = Ok st' -> coherent st'.
Proof.
  intros Hc. unfold update_buffers.
  destruct (acquire_voltage st ui w) as [v | e]; cbn [bind]; [ | discriminate ].
  now apply coherent_record_voltage.
Qed.

Lemma coherent_same_buffers (st st' : session) :
  buf_t st' = buf_t st -> buf_V st' = buf_V st ->
  buf_pH_tp st' = buf_pH_tp st -> buf_pH_nernst st' = buf_pH_nernst st ->
  coherent st -> coherent st'.
Proof. unfold coherent. now intros -> -> -> ->. Qed.

Lemma coherent_sidebar (ui : widgets) (w : env) (st : session) :
  coherent st ->
  coherent (refresh_ports w st)
  /\ coherent (connect ui w st)
  /\ coherent (disconnect st)
  /\ coherent (rescan w st).
Proof.
  intros Hc.
  split; [ | split; [ | split ] ];
    apply (coherent_same_buffers st); try exact Hc;
    unfold refresh_ports, connect, disconnect, rescan, set_serial;
    try reflexivity.
  - now destruct (cached_ports st).
  - now destruct (cached_ports st).
  - now destruct (cached_ports st).
  - now destruct (cached_ports st).
  - destruct (negb _); [ reflexivity | now destruct (open_ok w) ].
  - destruct (negb _); [ reflexivity | now destruct (open_ok w) ].
  - destruct (negb _); [ reflexivity | now destruct (open_ok w) ].
  - destruct (negb _); [ reflexivity | now destruct (open_ok w) ].
Qed.

Lemma coherent_script (ui : widgets) (w : env) (st : session) :
  coherent st -> coherent (session_of (script ui w st)).
Proof.
  intros Hc. unfold script.
  set (st1 := refresh_ports w st).
  assert (H1 : coherent st1) by now apply (coherent_sidebar ui w st).
  set (st2 := if btn_connect ui then connect ui w st1 else st1).
  assert (H2 : coherent st2).
  { subst st2. destruct (btn_connect ui); [ | exact H1 ].
    now apply (coherent_sidebar ui w st1). }
  set (st3 := if btn_disconnect ui then disconnect st2 else st2).
  assert (H3 : coherent st3).
  { subst st3. destruct (btn_disconnect ui); [ | exact H2 ].
    now apply (coherent_sidebar ui w st2). }
  destruct (btn_rescan ui); [ now apply (coherent_sidebar ui w st3) | ].
  destruct (btn_reset ui); [ now apply coherent_reset_buffers | ].
  destruct (update_buffers ui w st3) as [st4 | e] eqn:E; [ | exact H3 ].
  assert (H4 : coherent st4) by now apply (coherent_update_buffers ui w st3).
  now destruct (dataframes ui st4).
Qed.

Lemma reachable_coherent (st : session) : reachable st -> coherent st.
Proof.
  induction 1 as [now | ui w st _ IH].
  - apply coherent_initial.
  - now apply coherent_script.
Qed.

Lemma sidebar_same_buffers (ui : widgets) (w : env) (st : session) :
  Runs.same_buffers st (Runs.sidebar ui w st) /\ t0 (Runs.sidebar ui w st) = t0 st.
Proof.
  unfold Runs.sidebar, Runs.same_buffers, refresh_ports, connect, disconnect, set_serial.
  destruct (cached_ports st), (btn_connect ui), (btn_disconnect ui),
    (negb (pyserial_installed w)), (open_ok w); cbn; auto.
Qed.

Lemma coherent_sidebar_run (ui : widgets) (w : env) (st : session) :
  coherent st -> coherent (Runs.sidebar ui w st).
Proof.
  intros Hc. destruct (sidebar_same_buffers ui w st) as ((E1 & E2 & E3 & E4) & _).
  now apply (coherent_same_buffers st).
Qed.

Lemma samples_same_buffers (st st' : session) :
  Runs.same_buffers st st' -> samples st' = samples st.
Proof. intros (E1 & E2 & E3 & E4). unfold samples. now rewrite E1, E2, E3, E4. Qed.

(** What a run can do to the session: re-scan, reset, nothing more than the
    sidebar, or one sample appended. *)
Lemma script_session_cases (ui : widgets) (w : env) (st : session) :
  let st3 := Runs.sidebar ui w st in
  session_of (script ui w st) = rescan w st3
  \/ session_of (script ui w st) = reset_buffers (clock_reset w) st3
  \/ session_of (script ui w st) = st3
  \/ exists t v p n,
       F64.ph_two_point v (pH1 ui) (V1 ui) (pH2 ui) (V2 ui) = Ok p
       /\ F64.ph_nernst v (E0 ui) (temp_c ui) sign = Ok n
       /\ session_of (script ui w st) = append_sample (mkSample t v p n) st3.
Proof.
  intros st3. unfold script. fold (Runs.sidebar ui w st). fold st3.
  destruct (btn_rescan ui); [ now left | ].
  destruct (btn_reset ui); [ right; now left | ].
  right. right.
  assert (Ha : exists v, acquire_voltage st3 ui w = Ok v).
  { unfold acquire_voltage, read_sample_sim, F64.py_truediv.
    destruct (source ui); [ eauto | ].
    change (PrimFloat.eqb 40 0) with false. cbn [bind]. eauto. }
  destruct Ha as (v & Ha). unfold update_buffers. rewrite Ha. cbn [bind].
  destruct v as [v |].
  - right.
    destruct (record_voltage_present ui (py_round3 (clock_tick w - t0 st3)) v st3)
      as (p & n & Hp & Hn & E).
    rewrite E. exists (py_round3 (clock_tick w - t0 st3)), v, p, n.
    repeat split; try assumption.
    now destruct (dataframes ui _).
  - left. cbn [record_voltage]. now destruct (dataframes ui st3).
Qed.



Lemma update_buffers_window (n : Z) (ui : widgets) (w : env) (st : session) :
  update_buffers (set_window n ui) w st = update_buffers ui w st.
Proof. reflexivity. Qed.

Lemma sidebar_window (n : Z) (ui : widgets) (w : env) (st : session) :
  Runs.sidebar (set_window n ui) w st = Runs.sidebar ui w st.
Proof. reflexivity. Qed.

(** The number of samples to show has no part in what a run leaves in the
    session. *)
Lemma session_of_script_window (n : Z) (ui : widgets) (w : env) (st : session) :
  session_of (script (set_window n ui) w st) = session_of (script ui w st).
Proof.
  unfold script.
  fold (Runs.sidebar (set_window n ui) w st). fold (Runs.sidebar ui w st).
  rewrite sidebar_window, update_buffers_window.
  change (btn_rescan (set_window n ui)) with (btn_rescan ui).
  change (btn_reset (set_window n ui)) with (btn_reset ui).
  destruct (btn_rescan ui); [ reflexivity | ].
  destruct (btn_reset ui); [ reflexivity | ].
  destruct (update_buffers ui w (Runs.sidebar ui w st)) as [st4 | e];
    [ | reflexivity ].
  now destruct (dataframes (set_window n ui) st4), (dataframes ui st4).
Qed.

(** The session a run renders from is the one its tick left. *)
Lemma rendered_session (ui : widgets) (w : env) (st0 st : session) (fr : frames) :
  script ui w st0 = Rendered st fr ->
  update_buffers ui w (Runs.sidebar ui w st0) = Ok st
  /\ dataframes ui st = Ok fr.
Proof.
  unfold script. fold (Runs.sidebar ui w st0).
  destruct (btn_rescan ui); [ discriminate | ].
  destruct (btn_reset ui); [ discriminate | ].
  destruct (update_buffers ui w (Runs.sidebar ui w st0)) as [st4 | e];
    [ | discriminate ].
  destruct (dataframes ui st4) as [fr' | e] eqn:E; [ | discriminate ].
  intros H. injection H as <- <-. auto.
Qed.


Lemma make_df_coherent (st : session) :
  coherent st ->
  make_df (items (buf_t st)) (items (buf_V st)) (items (buf_pH_tp st))
          (items (buf_pH_nernst st)) = Ok (samples st).
Proof.
  intros (_ & L1 & L2 & L3). unfold make_df.
  rewrite L1, L2, L3, !Nat.eqb_refl. reflexivity.
Qed.

Lemma tail_lastn (n : Z) (d : DataFrame) :
  (0 <= n)%Z -> tail n d = lastn (Nat.min (Z.to_nat n) (List.length d)) d.
Proof.
  intros Hn. unfold tail, lastn. destruct n as [| p | p]; [ | | lia ].
  - cbn [Z.to_nat Nat.min]. rewrite Nat.sub_0_r. symmetry. apply skipn_all.
  - f_equal. lia.
Qed.


End SessionFacts.

(** ** One run after another *)

Section SessionClaims.

Import Deque App.
Open Scope float_scope.
Open Scope string_scope.

(** A run in which neither "Re-scan" nor "Reset" is pressed, on a serial
    source: the sidebar handlers, then one tick. *)
Lemma session_of_serial_run (ui : widgets) (w : env) (st : session) :
  btn_rescan ui = false -> btn_reset ui = false -> source ui = Serial ->
  let st1 := refresh_ports w st in
  let st2 := if btn_connect ui then connect ui w st1 else st1 in
  let st3 := if btn_disconnect ui then disconnect st2 else st2 in
  session_of (script ui w st) =
    match record_voltage ui (py_round3 (clock_tick w - t0 st3))
                         (read_sample_serial st3 w) st3 with
    | Ok st4 => st4
    | Raise _ => st3
    end.
Proof.
  intros Hr Hx Hs. cbv zeta. unfold script, update_buffers, acquire_voltage.
  rewrite Hr, Hx, Hs. cbn [bind].
  destruct (record_voltage _ _ _ _) as [st4 | e]; [ | reflexivity ].
  now destruct (dataframes ui st4).
Qed.


Lemma serial_run_sample (ui : widgets) (w : env) (st st3 : session)
    (v p n : float) :
  btn_rescan ui = false -> btn_reset ui = false -> source ui = Serial ->
  st3 = (let st1 := refresh_ports w st in
         let st2 := if btn_connect ui then connect ui w st1 else st1 in
         if btn_disconnect ui then disconnect st2 else st2) ->
  read_sample_serial st3 w = Some v ->
  F64.ph_two_point v (pH1 ui) (V1 ui) (pH2 ui) (V2 ui) = Ok p ->
  F64.ph_nernst v (E0 ui) (temp_c ui) sign = Ok n ->
  session_of (script ui w st) =
    append_sample (mkSample (py_round3 (clock_tick w - t0 st3)) v p n) st3.
Proof.
  intros Hr Hx Hs -> Hv Hp Hn.
  rewrite session_of_serial_run by assumption. cbv zeta in *.
  rewrite Hv. unfold record_voltage. rewrite Hp, Hn. reflexivity.
Qed.

Lemma serial_run_absent (ui : widgets) (w : env) (st st3 : session) :
  btn_rescan ui = false -> btn_reset ui = false -> source ui = Serial ->
  st3 = (let st1 := refresh_ports w st in
         let st2 := if btn_connect ui then connect ui w st1 else st1 in
         if btn_disconnect ui then disconnect st2 else st2) ->
  read_sample_serial st3 w = None ->
  session_of (script ui w st) = st3.
Proof.
  intros Hr Hx Hs -> Hv.
  rewrite session_of_serial_run by assumption. cbv zeta in *.
  now rewrite Hv.
Qed.

Lemma refresh_ports_cached (w : env) (st : session) :
  pyserial_installed w = true -> cached_ports st = comports w ->
  refresh_ports w st = st.
Proof.
  intros Hi Hc. unfold refresh_ports. rewrite Hi.
  destruct (cached_ports st) eqn:E; [ | reflexivity ].
  rewrite <- Hc. destruct st. cbn in *. now subst.
Qed.

(** C7: three runs of the script on a serial source that delivers
    ["V=2.500"], ["garbage"], ["V=2.677"], with two-point parameters
    (7.00, 2.500, 4.00, 2.677), leave exactly two samples in arrival order,
    with two-point pH 7 and 4; the unparseable line leaves no entry in any
    buffer.  The first run also connects the port. *)
Theorem three_lines_two_samples
    (now c1 c2 c3 r s1 s2 s3 E0 temp_c : float) (n : Z) (p : string)
    (ports : list string) (sin : float -> float) :
  let ui b := mkWidgets b false false false p Serial n 7.00 2.500 4.00 2.677 temp_c E0 in
  let w line c s :=
    mkEnv ports true true (Some (Re.text_of_string line)) r s c sin in
  let st := runs [(ui true, w "V=2.500" c1 s1);
                  (ui false, w "garbage" c2 s2);
                  (ui false, w "V=2.677" c3 s3)] (initial_session now) in
  List.length (samples st) = 2%nat
  /\ map pH_tp (samples st) = [7; 4]
  /\ map V (samples st) = [2.5; 2.677]
  /\ map t_rel (samples st) = [py_round3 (c1 - now); py_round3 (c3 - now)]
  /\ items (buf_pH_tp st) = [7; 4]
  /\ items (buf_V st) = [2.5; 2.677]
  /\ List.length (items (buf_pH_nernst st)) = 2%nat
  /\ items (buf_t st) = [py_round3 (c1 - now); py_round3 (c3 - now)].
Proof.
  intros ui w st.
  destruct (ph_nernst_never_raises 2.5 E0 temp_c sign) as [n1 Hn1].
  destruct (ph_nernst_never_raises 2.677 E0 temp_c sign) as [n2 Hn2].
  pose (conn := mkSession now (empty MAX_BUFFER) (empty MAX_BUFFER)
                          (empty MAX_BUFFER) (empty MAX_BUFFER)
                          (Some p) true ports).
  pose (one := mkSession now
                 (mkDeque MAX_BUFFER [2.5]) (mkDeque MAX_BUFFER [7])
                 (mkDeque MAX_BUFFER [n1])
                 (mkDeque MAX_BUFFER [py_round3 (c1 - now)])
                 (Some p) true ports).
  pose (two := mkSession now
                 (mkDeque MAX_BUFFER [2.5; 2.677]) (mkDeque MAX_BUFFER [7; 4])
                 (mkDeque MAX_BUFFER [n1; n2])
                 (mkDeque MAX_BUFFER [py_round3 (c1 - now); py_round3 (c3 - now)])
                 (Some p) true ports).
  assert (R1 : session_of (script (ui true) (w "V=2.500" c1 s1) (initial_session now)) = one).
  { rewrite (serial_run_sample _ _ _ conn 2.5 7 n1);
      try reflexivity; exact Hn1. }
  assert (R2 : session_of (script (ui false) (w "garbage" c2 s2) one) = one).
  { rewrite (serial_run_absent _ _ _ one); try reflexivity.
    cbv zeta. now rewrite refresh_ports_cached. }
  assert (R3 : session_of (script (ui false) (w "V=2.677" c3 s3) one) = two).
  { rewrite (serial_run_sample _ _ _ one 2.677 4 n2);
      try reflexivity; try exact Hn2.
    cbv zeta. now rewrite refresh_ports_cached. }
  assert (E : st = two).
  { subst st. unfold runs. cbn [fold_left fst snd]. now rewrite R1, R2, R3. }
  rewrite E. repeat split.
Qed.

(** C8: the window of [n >= 0] rows is the last [min n m] of the [m] rows
    held, in stored order; with fewer than [n] rows it is all of them, with
    no padding and no exception.  Windowing leaves the buffers as they are:
    the session a run renders from is the one its tick left, the frames are
    those of that session, and the window size has no part in the session
    the run leaves. *)
Theorem window_is_last_rows (ui : widgets) (st : session) :
  coherent st ->
  (0 <= window ui)%Z ->
  let rows := samples st in
  let m := List.length rows in
  let k := Nat.min (Z.to_nat (window ui)) m in
  dataframes ui st = Ok (mkFrames rows (lastn k rows))
  /\ m = List.length (items (buf_t st))
  /\ List.length (lastn k rows) = k
  /\ rows = (firstn (m - k) rows ++ lastn k rows)%list
  /\ ((Z.of_nat m <= window ui)%Z -> lastn k rows = rows)
  /\ (forall (w : env) (st0 : session) (fr : frames),
        script ui w st0 = Rendered st fr ->
        fr = mkFrames rows (lastn k rows)
        /\ update_buffers ui w (Runs.sidebar ui w st0) = Ok st
        /\ session_of (script ui w st0) = st)
  /\ (forall (n : Z) (w : env) (st0 : session),
        session_of (script (set_window n ui) w st0) = session_of (script ui w st0)).
Proof.
  intros Hc Hn rows m k.
  assert (Hd : dataframes ui st = Ok (mkFrames rows (lastn k rows))).
  { unfold dataframes. rewrite (make_df_coherent st Hc). cbn [bind].
    now rewrite (tail_lastn _ _ Hn). }
  split; [ exact Hd | ]. split.
  { destruct Hc as (_ & L1 & L2 & L3). now apply length_zip_rows. }
  split.
  { rewrite length_lastn. subst k m. lia. }
  split.
  { apply lastn_suffix. }
  split.
  { intros Hm. apply lastn_all. subst k m. lia. }
  split.
  { intros w st0 fr H. pose proof (rendered_session _ _ _ _ _ H) as [Hu Hf].
    rewrite Hd in Hf. injection Hf as <-.
    split; [ reflexivity | ]. split; [ exact Hu | ]. now rewrite H. }
  intros n w st0. apply session_of_script_window.
Qed.

Lemma window_is_last_rows_witness :
  let ui n := mkWidgets false false false false "COM3" Serial n 7 2.5 4 3 25 2.5 in
  let st :=
    mkSession 0
      (mkDeque MAX_BUFFER [2.5; 2.51; 2.52; 2.53; 2.54; 2.55; 2.56; 2.57; 2.58; 2.59; 2.6; 2.61])
      (mkDeque MAX_BUFFER [7; 6.94; 6.88; 6.82; 6.76; 6.7; 6.64; 6.58; 6.52; 6.46; 6.4; 6.34])
      (mkDeque MAX_BUFFER [7; 7.17; 7.34; 7.51; 7.68; 7.85; 8.01; 8.18; 8.35; 8.52; 8.69; 8.86])
      (mkDeque MAX_BUFFER [0.5; 1; 1.5; 2; 2.5; 3; 3.5; 4; 4.5; 5; 5.5; 6])
      None false [] in
  dataframes (ui 10%Z) st =
    Ok (mkFrames
          [mkSample 0.5 2.5 7 7; mkSample 1 2.51 6.94 7.17;
           mkSample 1.5 2.52 6.88 7.34; mkSample 2 2.53 6.82 7.51;
           mkSample 2.5 2.54 6.76 7.68; mkSample 3 2.55 6.7 7.85;
           mkSample 3.5 2.56 6.64 8.01; mkSample 4 2.57 6.58 8.18;
           mkSample 4.5 2.58 6.52 8.35; mkSample 5 2.59 6.46 8.52;
           mkSample 5.5 2.6 6.4 8.69; mkSample 6 2.61 6.34 8.86]
          [mkSample 1.5 2.52 6.88 7.34; mkSample 2 2.53 6.82 7.51;
           mkSample 2.5 2.54 6.76 7.68; mkSample 3 2.55 6.7 7.85;
           mkSample 3.5 2.56 6.64 8.01; mkSample 4 2.57 6.58 8.18;
           mkSample 4.5 2.58 6.52 8.35; mkSample 5 2.59 6.46 8.52;
           mkSample 5.5 2.6 6.4 8.69; mkSample 6 2.61 6.34 8.86])
  /\ lastn (Nat.min (Z.to_nat 60) (List.length (samples st))) (samples st)
     = samples st.
Proof.
  intros ui st.
  assert (Hc : coherent st) by (repeat split).
  split.
  - exact (proj1 (window_is_last_rows (ui 10%Z) st Hc (Zle_bool_imp_le 0 10 eq_refl))).
  - exact (proj1 (proj2 (proj2 (proj2 (proj2
             (window_is_last_rows (ui 60%Z) st Hc (Zle_bool_imp_le 0 60 eq_refl))))))
             (Zle_bool_imp_le 12 60 eq_refl)).
Defined.

(** C9: the reset handler empties the four buffers and anchors [t0] at the
    clock reading of the reset; a second reset leaves what one reset at
    that time leaves. *)
Theorem reset_idempotent (now1 now2 : float) (st : session) :
  reset_buffers now2 (reset_buffers now1 st) = reset_buffers now2 st
  /\ reset_buffers now1 (reset_buffers now1 st) = reset_buffers now1 st
  /\ samples (reset_buffers now1 st) = []
  /\ items (buf_t (reset_buffers now1 st)) = []
  /\ items (buf_V (reset_buffers now1 st)) = []
  /\ items (buf_pH_tp (reset_buffers now1 st)) = []
  /\ items (buf_pH_nernst (reset_buffers now1 st)) = []
  /\ t0 (reset_buffers now1 st) = now1
  /\ (forall (c d : bool) (p : string) (src : source_kind) (n : Z)
             (a b e f g h : float) (w : env),
        exists st',
          script (mkWidgets c d false true p src n a b e f g h) w st = Rerun st'
          /\ samples st' = []
          /\ t0 st' = clock_reset w).
Proof.
  repeat split.
  intros. eexists. split; [ reflexivity | ]. split; reflexivity.
Qed.



End SessionClaims.


(** ** More on the calibration engine *)

Section CalibrationMore.

Import F64.
Open Scope float_scope.



Lemma SFadd_nan_l x : SF64add S754_nan x = S754_nan.
Proof. reflexivity. Qed.



(** A finite float: a zero or a finite nonzero value. *)
Lemma finite_cases (x : float) :
  (abs x <? infinity) = true ->
  (exists s, Prim2SF x = S754_zero s) \/ exists s m e, Prim2SF x = S754_finite s m e.
Proof.
  rewrite ltb_spec, abs_spec. change (Prim2SF infinity) with (S754_infinity false).
  destruct (Prim2SF x) as [s | s | | s m e]; cbn; try discriminate; eauto.
Qed.

Lemma sub_diag_zero (x : float) :
  (abs x <? infinity) = true -> exists s, Prim2SF (x - x) = S754_zero s.
Proof.
  intros H. rewrite sub_spec.
  destruct (finite_cases x H) as [(s & ->) | (s & m & e & ->)].
  - destruct s; cbn; eauto.
  - exists false. apply SFsub_diag_finite.
Qed.

Lemma positive_cases (S : float) :
  (0 <? S) = true ->
  (exists m e, Prim2SF S = S754_finite false m e) \/ Prim2SF S = S754_infinity false.
Proof.
  rewrite ltb_spec. change (Prim2SF 0) with (S754_zero false).
  destruct (Prim2SF S) as [s | s | | s m e]; cbn; try discriminate.
  - destruct s; [ discriminate | auto ].
  - destruct s; [ discriminate | eauto ].
Qed.

Lemma positive_not_leb (S : float) : (0 <? S) = true -> (S <=? 0) = false.
Proof.
  intros H. rewrite leb_spec. change (Prim2SF 0) with (S754_zero false).
  destruct (positive_cases S H) as [(m & e & ->) | ->]; reflexivity.
Qed.

(** X1: above absolute zero the Nernst estimate at the reference potential
    is pH 7, for either polarity and any finite [E0]: the only place where
    the slope has no part in the result. *)
Theorem ph_nernst_at_reference (E0 temp_c : float) (sign : Z) :
  (sign = 1 \/ sign = -1)%Z ->
  (abs E0 <? infinity) = true ->
  (0 <? temp_c + 273.15) = true ->
  ph_nernst E0 E0 temp_c sign = Ok 7.
Proof.
  intros Hs Hfin HT.
  assert (Hpos : (0 <? (R * (temp_c + 273.15) / F) * LN10) = true)
    by (rewrite <- HT; apply slope_positive).
  rewrite (ph_nernst_formula _ _ _ _ (positive_not_leb _ Hpos)). cbv zeta.
  f_equal. apply Prim2SF_inj.
  set (S := R * (temp_c + 273.15) / F * LN10) in *.
  rewrite add_spec, div_spec, mul_spec.
  destruct (sub_diag_zero E0 Hfin) as (s & ->).
  assert (Hm : exists s', SF64mul (Prim2SF (float_of_int sign)) (S754_zero s)
                          = S754_zero s').
  { destruct Hs as [-> | ->]; eexists; reflexivity. }
  destruct Hm as (s' & ->).
  destruct (positive_cases S Hpos) as [(m & e & ->) | ->]; reflexivity.
Qed.

Lemma ph_nernst_at_reference_witness :
  ph_nernst 2.5 2.5 25 (-1) = Ok 7 /\ ph_nernst (-0.3) (-0.3) (-273.1) 1 = Ok 7.
Proof.
  split.
  - exact (ph_nernst_at_reference 2.5 25 (-1) (or_intror eq_refl) eq_refl eq_refl).
  - exact (ph_nernst_at_reference (-0.3) (-273.1) 1 (or_introl eq_refl) eq_refl eq_refl).
Defined.


(** X3: past the guard of [main.py], the unguarded [CalibParams] of
    [tests/test2.py] computes the same value as [ph_two_point] and does not
    raise: the two calibrations differ only on degenerate parameters. *)
Theorem calib_params_agree_past_guard (c : CalibParams) (V : float) :
  (abs (cp_V2 c - cp_V1 c) <? 1e-12) = false ->
  ph_from_voltage c V = ph_two_point V (cp_pH1 c) (cp_V1 c) (cp_pH2 c) (cp_V2 c)
  /\ exists x, ph_from_voltage c V = Ok x.
Proof.
  intros G. rewrite (ph_two_point_formula _ _ _ _ _ G).
  unfold ph_from_voltage, b_off, a_gain, py_truediv.
  rewrite (guard_false_nonzero _ G). cbn [bind]. split; [ reflexivity | eauto ].
Qed.

Lemma calib_params_agree_past_guard_witness :
  ph_from_voltage (mkCalibParams 7 2.5 4 2.677 25) 2.6
  = ph_two_point 2.6 7 2.5 4 2.677.
Proof.
  exact (proj1 (calib_params_agree_past_guard (mkCalibParams 7 2.5 4 2.677 25) 2.6
                  eq_refl)).
Defined.

End CalibrationMore.

(** ** More on the line parser *)

Section LineFacts.

Import Re Parse Lines.

Lemma space_inert (c : char) : is_space c = true -> inert c = true.
Proof. now apply (blanks_all inert). Qed.

Lemma space_not_dot (c : char) : is_space c = true -> is_dot c = false.
Proof.
  intros H. apply negb_true_iff.
  now apply (blanks_all (fun c => negb (is_dot c))).
Qed.

Lemma colon_eq_not_space (c : char) : is_colon_eq c = true -> is_space c = false.
Proof. intros H. destruct (colon_eq_cases c H) as [-> | ->]; reflexivity. Qed.

Lemma sign_not_space (c : char) : is_sign c = true -> is_space c = false.
Proof. intros H. destruct (sign_cases c H) as [-> | ->]; reflexivity. Qed.

Lemma digit_not_space (c : char) : is_digit c = true -> is_space c = false.
Proof.
  intros H. destruct (is_space c) eqn:E; [ | reflexivity ].
  rewrite (space_not_digit c E) in H. discriminate.
Qed.

Lemma sign_not_Vv (c : char) : is_sign c = true -> is_Vv c = false.
Proof. intros H. destruct (sign_cases c H) as [-> | ->]; reflexivity. Qed.

Lemma digit_not_Vv (c : char) : is_digit c = true -> is_Vv c = false.
Proof.
  intros H. destruct (is_Vv c) eqn:E; [ | reflexivity ].
  destruct (Vv_cases c E) as [-> | ->]; discriminate H.
Qed.

Lemma dot_not_Vv (c : char) : is_dot c = true -> is_Vv c = false.
Proof. intros H. rewrite (dot_cases c H). reflexivity. Qed.

Lemma inert_parts (c : char) :
  inert c = true -> is_Vv c = false /\ is_sign c = false /\ is_digit c = false.
Proof.
  unfold inert. destruct (is_Vv c), (is_sign c), (is_digit c); cbn; auto; discriminate.
Qed.

Lemma number_at_not_start (c : char) (s : text) :
  is_sign c = false -> is_digit c = false -> number_at (c :: s) = None.
Proof.
  intros Hs Hd. unfold number_at, split_sign. rewrite Hs, (span_head _ _ _ Hd).
  reflexivity.
Qed.

Lemma tagged_at_not_start (c : char) (s : text) :
  is_Vv c = false -> tagged_at (c :: s) = None.
Proof. intros H. unfold tagged_at. now rewrite H. Qed.

Lemma first_token_inert_prefix (pre l : text) :
  forallb inert pre = true ->
  first_tagged (pre ++ l) = first_tagged l
  /\ first_number (pre ++ l) = first_number l.
Proof.
  induction pre as [| c pre IH]; [ auto | ].
  cbn [forallb app]. intros H. apply andb_prop in H as [Hc Hp].
  destruct (inert_parts c Hc) as (Hv & Hs & Hd).
  destruct (IH Hp) as [IH1 IH2].
  cbn [first_tagged first_number].
  now rewrite (tagged_at_not_start c _ Hv), (number_at_not_start c _ Hs Hd).
Qed.


(** X4: characters that are neither [V]/[v], a sign nor a digit, standing in
    front of a line, do not change what is parsed from it. *)
Theorem parse_ignores_inert_prefix (pre l : text) :
  forallb inert pre = true ->
  parse_voltage_from_line (pre ++ l) = parse_voltage_from_line l.
Proof.
  intros H. rewrite !parse_voltage_from_line_spec. unfold first_voltage_token.
  destruct (first_token_inert_prefix pre l H) as [-> ->]. reflexivity.
Qed.

Lemma parse_ignores_inert_prefix_witness :
  parse_voltage_from_line (text_of_string "pH: " ++ text_of_string "-2.5 V=3")
  = parse_voltage_from_line (text_of_string "-2.5 V=3").
Proof.
  exact (parse_ignores_inert_prefix (text_of_string "pH: ")
                                    (text_of_string "-2.5 V=3") eq_refl).
Defined.

Lemma parse_ignores_inert_prefix_blank (ws l : text) :
  forallb is_space ws = true ->
  parse_voltage_from_line (ws ++ l) = parse_voltage_from_line l.
Proof.
  intros H. rewrite !parse_voltage_from_line_spec. unfold first_voltage_token.
  assert (Hi : forallb inert ws = true).
  { induction ws as [| c ws IH]; [ reflexivity | ].
    cbn in *. apply andb_prop in H as [Hc H].
    now rewrite (space_inert c Hc), (IH H). }
  destruct (first_token_inert_prefix ws l Hi) as [-> ->]. reflexivity.
Qed.

(** Trailing blanks *)

Lemma head_not_digit_blank (ws : text) :
  forallb is_space ws = true ->
  match ws with c :: _ => is_digit c = false | [] => True end.
Proof.
  destruct ws as [| c ws]; [ trivial | ]. cbn. intros H.
  apply andb_prop in H as [Hc _]. now apply space_not_digit.
Qed.

Lemma span_app_stop (p : char -> bool) (s ws : text) :
  match ws with c :: _ => p c = false | [] => True end ->
  span p (s ++ ws) = (fst (span p s), snd (span p s) ++ ws).
Proof.
  intros H. induction s as [| c s IH].
  - cbn. destruct ws as [| d ws]; [ reflexivity | ]. cbn. now rewrite H.
  - cbn. destruct (p c); [ | reflexivity ].
    rewrite IH. now destruct (span p s).
Qed.

Lemma drop_while_all (p : char -> bool) (ws : text) :
  forallb p ws = true -> drop_while p ws = [].
Proof.
  induction ws as [| c ws IH]; [ reflexivity | ].
  cbn. intros H. apply andb_prop in H as [-> H]. now apply IH.
Qed.

Lemma drop_while_app_all (p : char -> bool) (s ws : text) :
  forallb p ws = true ->
  drop_while p (s ++ ws) =
    match drop_while p s with
    | [] => []
    | r => r ++ ws
    end.
Proof.
  intros H. induction s as [| c s IH].
  - cbn. now apply drop_while_all.
  - cbn. destruct (p c); [ exact IH | reflexivity ].
Qed.

Lemma no_digit_blank (ws : text) :
  forallb is_space ws = true -> has_digit ws = false.
Proof.
  unfold has_digit. induction ws as [| c ws IH]; [ reflexivity | ].
  cbn. intros H. apply andb_prop in H as [Hc H].
  now rewrite (space_not_digit c Hc), (IH H).
Qed.

Lemma number_at_blank (ws : text) :
  forallb is_space ws = true -> number_at ws = None.
Proof.
  destruct ws as [| c ws]; [ reflexivity | ].
  cbn. intros H. apply andb_prop in H as [Hc _]. now apply number_at_space.
Qed.

Lemma frac_at_app_blank (s ws : text) :
  forallb is_space ws = true ->
  frac_at (s ++ ws) = (fst (frac_at s), snd (frac_at s) ++ ws).
Proof.
  intros H. unfold frac_at. destruct s as [| d s3].
  - cbn. destruct ws as [| c ws]; [ reflexivity | ].
    cbn in H. apply andb_prop in H as [Hc _]. now rewrite (space_not_dot c Hc).
  - cbn [app]. destruct (is_dot d); [ | reflexivity ].
    rewrite (span_app_stop is_digit s3 ws (head_not_digit_blank ws H)).
    destruct (span is_digit s3) as [fp s4]. cbn [fst snd].
    now destruct fp.
Qed.

Lemma number_at_app_blank (s ws : text) :
  forallb is_space ws = true ->
  number_at (s ++ ws) =
    option_map (fun tr => (fst tr, snd tr ++ ws)) (number_at s).
Proof.
  intros H. destruct s as [| c s].
  - cbn [app]. now rewrite (number_at_blank ws H).
  - unfold number_at.
    assert (E : split_sign ((c :: s) ++ ws)
                = (fst (split_sign (c :: s)), snd (split_sign (c :: s)) ++ ws)).
    { cbn. now destruct (is_sign c). }
    rewrite E. destruct (split_sign (c :: s)) as [sg s1]. cbn [fst snd].
    rewrite (span_app_stop is_digit s1 ws (head_not_digit_blank ws H)).
    destruct (span is_digit s1) as [ip s2]. cbn [fst snd].
    destruct ip as [| d ip]; [ reflexivity | ].
    rewrite (frac_at_app_blank s2 ws H).
    now destruct (frac_at s2).
Qed.

Lemma tagged_at_app_blank (s ws : text) :
  forallb is_space ws = true -> tagged_at (s ++ ws) = tagged_at s.
Proof.
  intros H. unfold tagged_at. destruct s as [| c s1].
  - cbn [app]. destruct ws as [| c ws]; [ reflexivity | ].
    cbn in H. apply andb_prop in H as [Hc _].
    destruct (inert_parts c (space_inert c Hc)) as (-> & _). reflexivity.
  - cbn [app]. destruct (is_Vv c); [ | reflexivity ].
    rewrite (drop_while_app_all is_space s1 ws H).
    destruct (drop_while is_space s1) as [| d s2]; [ reflexivity | ].
    cbn [app]. destruct (is_colon_eq d); [ | reflexivity ].
    rewrite (drop_while_app_all is_space s2 ws H).
    destruct (drop_while is_space s2) as [| e s3]; [ reflexivity | ].
    rewrite (number_at_app_blank (e :: s3) ws H).
    now destruct (number_at (e :: s3)) as [[tok r] |].
Qed.

Lemma first_token_trailing_blank (s ws : text) :
  forallb is_space ws = true ->
  first_tagged (s ++ ws) = first_tagged s
  /\ first_number (s ++ ws) = first_number s.
Proof.
  intros H. induction s as [| c s [IH1 IH2]].
  - cbn [app]. destruct (no_digit_no_token ws (no_digit_blank ws H)) as [-> ->].
    split; reflexivity.
  - split.
    + change ((c :: s) ++ ws) with (c :: (s ++ ws)). cbn [first_tagged].
      change (c :: (s ++ ws)) with ((c :: s) ++ ws).
      now rewrite (tagged_at_app_blank (c :: s) ws H), IH1.
    + change ((c :: s) ++ ws) with (c :: (s ++ ws)). cbn [first_number].
      change (c :: (s ++ ws)) with ((c :: s) ++ ws).
      rewrite (number_at_app_blank (c :: s) ws H), IH2.
      now destruct (number_at (c :: s)) as [[tok r] |].
Qed.

Lemma parse_trailing_blank (s ws : text) :
  forallb is_space ws = true ->
  parse_voltage_from_line (s ++ ws) = parse_voltage_from_line s.
Proof.
  intros H. rewrite !parse_voltage_from_line_spec. unfold first_voltage_token.
  destruct (first_token_trailing_blank s ws H) as [-> ->]. reflexivity.
Qed.

Lemma drop_while_split (p : char -> bool) (s : text) :
  exists ws, forallb p ws = true /\ s = ws ++ drop_while p s.
Proof.
  exists (fst (span p s)). split; [ apply span_all | ].
  rewrite drop_while_span. apply span_app.
Qed.

Lemma forallb_rev (p : char -> bool) (l : text) :
  forallb p (rev l) = forallb p l.
Proof.
  induction l as [| c l IH]; [ reflexivity | ].
  cbn. rewrite forallb_app, IH. cbn. rewrite andb_true_r. apply andb_comm.
Qed.

Lemma strip_split (s : text) :
  exists ws1 ws2,
    forallb is_space ws1 = true /\ forallb is_space ws2 = true
    /\ s = ws1 ++ App.strip s ++ ws2.
Proof.
  unfold App.strip.
  destruct (drop_while_split is_space s) as (ws1 & H1 & E1).
  destruct (drop_while_split is_space (rev (drop_while is_space s)))
    as (ws2 & H2 & E2).
  exists ws1, (rev ws2). split; [ exact H1 | ]. split.
  - now rewrite forallb_rev.
  - rewrite E1 at 1. f_equal.
    rewrite <- (rev_involutive (drop_while is_space s)) at 1.
    rewrite E2 at 1. apply rev_app_distr.
Qed.

(** Stripping a line does not change what is parsed from it. *)
Lemma parse_strip (s : text) :
  parse_voltage_from_line (App.strip s) = parse_voltage_from_line s.
Proof.
  destruct (strip_split s) as (ws1 & ws2 & H1 & H2 & E).
  rewrite E at 2.
  rewrite parse_ignores_inert_prefix_blank, parse_trailing_blank by assumption.
  reflexivity.
Qed.


(** X5: on an open port, what [read_sample_serial] returns for a line read
    is what [parse_voltage_from_line] finds in the raw line: the strip and
    the empty-line test change nothing, and a blank line gives no reading. *)
Theorem serial_read_is_parse_of_raw_line
    (st : App.session) (w : App.env) (name : string) (raw : text) :
  App.serial_connected st = true ->
  App.ser st = Some name ->
  App.readline w = Some raw ->
  App.read_sample_serial st w = voltage_of (parse_voltage_from_line raw)
  /\ (forallb is_space raw = true -> App.read_sample_serial st w = None).
Proof.
  intros Hc Hs Hr. unfold App.read_sample_serial.
  rewrite Hc, Hs, Hr. cbn [negb].
  assert (E : match App.strip raw with
              | [] => None
              | c :: l =>
                  match parse_voltage_from_line (c :: l) with
                  | Ok v => v
                  | Raise _ => None
                  end
              end = voltage_of (parse_voltage_from_line raw)).
  { rewrite <- (parse_strip raw).
    destruct (App.strip raw); reflexivity. }
  split; [ exact E | ].
  intros Hb. rewrite E, parse_voltage_from_line_spec. unfold first_voltage_token.
  destruct (no_digit_no_token _ (no_digit_blank _ Hb)) as [-> ->].
  reflexivity.
Qed.

Lemma serial_read_is_parse_of_raw_line_witness :
  App.read_sample_serial
    (App.set_serial (Some "COM3"%string) true (App.initial_session 0))
    (App.mkEnv [] true true (Some (text_of_string "  V = 2.5 ")) 0 0 0 (fun x => x))
  = Some 2.5%float.
Proof.
  exact (proj1 (serial_read_is_parse_of_raw_line
                  (App.set_serial (Some "COM3"%string) true (App.initial_session 0))
                  (App.mkEnv [] true true (Some (text_of_string "  V = 2.5 ")) 0 0 0
                             (fun x => x))
                  "COM3" (text_of_string "  V = 2.5 ") eq_refl eq_refl eq_refl)).
Defined.

(** Number tokens read back *)

Lemma number_at_token_app (tok r : text) :
  number_token tok -> ends_number r = true ->
  number_at (tok ++ r) = Some (tok, r).
Proof.
  intros [sg ip fr Hsg Hne Hip Hfr] Hr.
  assert (Hrd : match r with c :: _ => is_digit c = false | [] => True end).
  { destruct r as [| c r]; [ exact I | ].
    cbn in Hr. now destruct (is_digit c). }
  unfold number_at. rewrite <- !app_assoc.
  rewrite (split_sign_token sg ip (fr ++ r) Hsg Hne Hip).
  assert (Hstop : match fr ++ r with c :: _ => is_digit c = false | [] => True end).
  { destruct Hfr as [-> | (d & fp & -> & Hd & _)]; [ exact Hrd | ].
    cbn. now apply dot_not_digit. }
  rewrite (span_stop is_digit ip (fr ++ r) Hip Hstop).
  destruct ip as [| d0 ip]; [ contradiction | ].
  assert (Ef : frac_at (fr ++ r) = (fr, r)).
  { destruct Hfr as [-> | (d & fp & -> & Hd & Hfne & Hfp)].
    - cbn [app]. unfold frac_at. destruct r as [| c r]; [ reflexivity | ].
      cbn in Hr. destruct (is_dot c); [ | reflexivity ].
      now rewrite orb_true_r in Hr.
    - cbn [app]. unfold frac_at. rewrite Hd.
      rewrite (span_stop is_digit fp r Hfp Hrd).
      destruct fp; [ contradiction | reflexivity ]. }
  now rewrite Ef.
Qed.

Lemma number_token_no_tag (tok : text) :
  number_token tok -> forallb (fun c => negb (is_Vv c)) tok = true.
Proof.
  intros [sg ip fr Hsg _ Hip Hfr]. rewrite !forallb_app.
  assert (H1 : forallb (fun c => negb (is_Vv c)) sg = true).
  { destruct Hsg as [-> | (c & -> & Hc)]; [ reflexivity | ].
    cbn. now rewrite (sign_not_Vv c Hc). }
  assert (Hd : forall l, forallb is_digit l = true ->
                         forallb (fun c => negb (is_Vv c)) l = true).
  { induction l as [| c l IH]; [ reflexivity | ].
    cbn. intros H. apply andb_prop in H as [Hc H].
    now rewrite (digit_not_Vv c Hc), (IH H). }
  rewrite H1, (Hd ip Hip). cbn.
  destruct Hfr as [-> | (d & fp & -> & Hdot & _ & Hfp)]; [ reflexivity | ].
  cbn. now rewrite (dot_not_Vv d Hdot), (Hd fp Hfp).
Qed.

Lemma first_tagged_no_tag (l : text) :
  forallb (fun c => negb (is_Vv c)) l = true -> first_tagged l = None.
Proof.
  induction l as [| c l IH]; [ reflexivity | ].
  cbn [forallb first_tagged]. intros H. apply andb_prop in H as [Hc H].
  rewrite tagged_at_not_start by now destruct (is_Vv c).
  now apply IH.
Qed.

Lemma first_number_at_head (s : text) (tr : text * text) :
  number_at s = Some tr -> first_number s = Some (fst tr).
Proof.
  intros E. destruct tr as [tok r].
  destruct s; cbn [first_number]; now rewrite E.
Qed.

Lemma first_tagged_at_head (s tok : text) :
  tagged_at s = Some tok -> first_tagged s = Some tok.
Proof. intros E. destruct s; cbn [first_tagged]; now rewrite E. Qed.

Lemma drop_while_blank_then (ws s : text) :
  forallb is_space ws = true ->
  match s with c :: _ => is_space c = false | [] => True end ->
  drop_while is_space (ws ++ s) = s.
Proof.
  intros H Hs. induction ws as [| c ws IH].
  - cbn [app]. destruct s as [| d s]; [ reflexivity | ].
    cbn [drop_while]. now rewrite Hs.
  - cbn [app drop_while forallb] in *. apply andb_prop in H as [-> H].
    now apply IH.
Qed.

Lemma number_token_head (tok r : text) :
  number_token tok ->
  match tok ++ r with c :: _ => is_space c = false | [] => True end.
Proof.
  intros [sg ip fr Hsg Hne Hip _].
  destruct Hsg as [-> | (c & -> & Hc)].
  - destruct ip as [| d ip]; [ contradiction | ].
    cbn in *. apply andb_prop in Hip as [Hd _]. now apply digit_not_space.
  - cbn. now apply sign_not_space.
Qed.

(** X6: a decimal number token, alone on the line or after a [V]/[v] tag
    with [:] or [=] and any blanks around the separator, is parsed to its
    own value, whatever follows the tagged token once it has ended. *)
Theorem number_token_reads_back
    (tok ws1 ws2 r : text) (v sep : char) :
  number_token tok ->
  is_Vv v = true -> is_colon_eq sep = true ->
  forallb is_space ws1 = true -> forallb is_space ws2 = true ->
  ends_number r = true ->
  parse_voltage_from_line tok = Ok (Some (token_value tok))
  /\ parse_voltage_from_line (v :: ws1 ++ sep :: ws2 ++ tok ++ r)
     = Ok (Some (token_value tok)).
Proof.
  intros Ht Hv Hsep H1 H2 Hr. rewrite !parse_voltage_from_line_spec.
  unfold first_voltage_token. split.
  - rewrite (first_tagged_no_tag tok (number_token_no_tag tok Ht)).
    pose proof (number_at_token_app tok [] Ht eq_refl) as E.
    rewrite app_nil_r in E.
    now rewrite (first_number_at_head tok _ E).
  - rewrite (first_tagged_at_head _ tok); [ reflexivity | ].
    unfold tagged_at. rewrite Hv.
    rewrite (drop_while_blank_then ws1 (sep :: ws2 ++ tok ++ r) H1
               (colon_eq_not_space sep Hsep)).
    rewrite Hsep.
    rewrite (drop_while_blank_then ws2 (tok ++ r) H2 (number_token_head tok r Ht)).
    now rewrite (number_at_token_app tok r Ht Hr).
Qed.

Lemma number_token_reads_back_witness :
  parse_voltage_from_line (text_of_string "-12.5") = Ok (Some (-12.5)%float)
  /\ parse_voltage_from_line
       (86 :: [32; 9] ++ 58 :: [8195] ++ text_of_string "-12.5" ++ text_of_string " mV 3")%N
     = Ok (Some (-12.5)%float).
Proof.
  assert (Ht : number_token (text_of_string "-12.5")).
  { apply (token_parts [45%N] [49%N; 50%N] [46%N; 53%N]).
    - right. exists 45%N. split; reflexivity.
    - discriminate.
    - reflexivity.
    - right. exists 46%N, [53%N]. repeat split. discriminate. }
  exact (number_token_reads_back (text_of_string "-12.5") [32%N; 9%N] [8195%N]
           (text_of_string " mV 3") 86%N 58%N Ht eq_refl eq_refl eq_refl eq_refl
           eq_refl).
Defined.

End LineFacts.

(** ** More on runs of the script *)

Section RunFacts.

Import Deque App Runs.
Open Scope float_scope.


Lemma linked_sidebar (ui : widgets) (w : env) (st : session) :
  linked st -> linked (sidebar ui w st).
Proof.
  unfold linked, sidebar, refresh_ports, connect, disconnect, set_serial.
  intros H.
  destruct (cached_ports st), (btn_connect ui), (btn_disconnect ui),
    (negb (pyserial_installed w)), (open_ok w); cbn; auto.
Qed.

(** X7: in every session the script can reach, [serial_connected] holds
    exactly when a serial handle is stored: the connect and disconnect
    handlers set the two together and nothing else touches them. *)
Theorem serial_flag_matches_handle (st : session) :
  reachable st ->
  serial_connected st = match ser st with Some _ => true | None => false end.
Proof.
  induction 1 as [now | ui w st _ IH]; [ reflexivity | ].
  fold (linked st) in IH. fold (linked (session_of (script ui w st))).
  pose proof (linked_sidebar ui w st IH) as H3.
  destruct (script_session_cases ui w st)
    as [-> | [-> | [-> | (t & v & p & n & _ & _ & ->)]]]; exact H3.
Qed.

Lemma serial_flag_matches_handle_witness :
  let ui c d := mkWidgets c d false false "COM3" Serial 60 7 2.5 4 3 25 2.5 in
  let w ok := mkEnv ["COM3"%string] true ok None 0 0 1 (fun x => x) in
  serial_connected (session_of (script (ui true false) (w true) (initial_session 0)))
  = true
  /\ serial_connected
       (session_of (script (ui false true) (w true)
          (session_of (script (ui true false) (w true) (initial_session 0)))))
     = false
  /\ serial_connected (session_of (script (ui true false) (w false) (initial_session 0)))
     = false.
Proof.
  intros ui w. split; [ | split ].
  - exact (serial_flag_matches_handle _
             (reach_run (ui true false) (w true) _ (reach_init 0))).
  - exact (serial_flag_matches_handle _
             (reach_run (ui false true) (w true) _
                (reach_run (ui true false) (w true) _ (reach_init 0)))).
  - exact (serial_flag_matches_handle _
             (reach_run (ui true false) (w false) _ (reach_init 0))).
Defined.

Lemma buf_t_append_sample (x : Sample) (st : session) :
  buf_t (append_sample x st) = append (t_rel x) (buf_t st).
Proof. reflexivity. Qed.

Lemma within_capacity_script (ui : widgets) (w : env) (st : session) :
  coherent st ->
  (List.length (items (buf_t st)) <= MAX_BUFFER)%nat ->
  (List.length (items (buf_t (session_of (script ui w st)))) <= MAX_BUFFER)%nat.
Proof.
  intros Hc Hb.
  destruct (sidebar_same_buffers ui w st) as ((E1 & _) & _).
  pose proof (coherent_sidebar_run ui w st Hc) as Hc3.
  destruct (script_session_cases ui w st)
    as [-> | [-> | [-> | (t & v & p & n & _ & _ & ->)]]].
  - cbn [rescan buf_t]. now rewrite E1.
  - cbn. lia.
  - now rewrite E1.
  - rewrite buf_t_append_sample.
    destruct Hc3 as ((M1 & _) & _). rewrite <- M1.
    apply append_bounded. rewrite M1, E1. exact Hb.
Qed.

(** X8: no reachable session holds more than [MAX_BUFFER] samples, in any of
    the four buffers. *)
Theorem reachable_within_capacity (st : session) :
  reachable st ->
  (List.length (samples st) <= MAX_BUFFER)%nat
  /\ (List.length (items (buf_t st)) <= MAX_BUFFER)%nat
  /\ (List.length (items (buf_V st)) <= MAX_BUFFER)%nat
  /\ (List.length (items (buf_pH_tp st)) <= MAX_BUFFER)%nat
  /\ (List.length (items (buf_pH_nernst st)) <= MAX_BUFFER)%nat.
Proof.
  intros Hr.
  assert (Hb : (List.length (items (buf_t st)) <= MAX_BUFFER)%nat).
  { induction Hr as [now | ui w st Hr IH]; [ cbn; lia | ].
    apply within_capacity_script; [ now apply reachable_coherent | exact IH ]. }
  pose proof (reachable_coherent st Hr) as (_ & L1 & L2 & L3).
  rewrite L1, L2, L3. unfold samples.
  rewrite length_zip_rows by assumption. auto.
Qed.

Lemma reachable_within_capacity_witness :
  let ui := mkWidgets false false false false "COM3" Simulador 60 7 2.5 4 3 25 2.5 in
  let w c := mkEnv [] true true None 0 c c (fun x => x) in
  Nat.le (List.length
            (samples (runs [(ui, w 1); (ui, w 1.5); (ui, w 2)] (initial_session 0))))
         MAX_BUFFER.
Proof.
  intros ui w.
  exact (proj1 (reachable_within_capacity _
                  (reach_run ui (w 2) _
                     (reach_run ui (w 1.5) _
                        (reach_run ui (w 1) _ (reach_init 0)))))).
Defined.

Lemma record_all_snoc (xs : list Sample) (x : Sample) (st : session) :
  record_all (xs ++ [x]) st = append_sample x (record_all xs st).
Proof. unfold record_all. now rewrite fold_left_app. Qed.

Lemma coherent_record_all (xs : list Sample) (st : session) :
  coherent st -> coherent (record_all xs st).
Proof.
  intros Hc. induction xs as [| x xs IH] using rev_ind; [ exact Hc | ].
  rewrite record_all_snoc. now apply coherent_append_sample.
Qed.

(** X9: however many samples are recorded, the buffers hold the last
    [MAX_BUFFER] of what they held and what was recorded, oldest evicted
    first, as one list of whole samples. *)
Theorem samples_record_all (xs : list Sample) (st : session) :
  coherent st ->
  (List.length (samples st) <= MAX_BUFFER)%nat ->
  samples (record_all xs st) = lastn MAX_BUFFER (samples st ++ xs).
Proof.
  intros Hc Hb. induction xs as [| x xs IH] using rev_ind.
  - rewrite app_nil_r. symmetry. now apply lastn_all.
  - rewrite record_all_snoc, samples_append_sample
      by now apply coherent_record_all.
    rewrite items_append; cbn [maxlen items].
    + rewrite IH, app_assoc. apply lastn_snoc.
    + rewrite IH, length_lastn. lia.
Qed.

Lemma samples_record_all_witness :
  let st := mkSession 0 (mkDeque MAX_BUFFER [2.5]) (mkDeque MAX_BUFFER [7])
                      (mkDeque MAX_BUFFER [7]) (mkDeque MAX_BUFFER [0.5])
                      None false [] in
  samples (record_all [mkSample 1 2.6 6.4 8.7; mkSample 1.5 2.7 5.8 10.4] st)
  = [mkSample 0.5 2.5 7 7; mkSample 1 2.6 6.4 8.7; mkSample 1.5 2.7 5.8 10.4].
Proof.
  intros st.
  assert (Hc : coherent st) by (repeat split).
  assert (Hb : (List.length (samples st) <= MAX_BUFFER)%nat)
    by (apply Nat.leb_le; reflexivity).
  exact (samples_record_all [mkSample 1 2.6 6.4 8.7; mkSample 1.5 2.7 5.8 10.4]
           st Hc Hb).
Defined.

(** X10: a run never rewrites a stored sample.  From a coherent session it
    leaves the samples as they are, empties them (reset), or appends one
    sample computed from this run's voltage and parameters, evicting the
    oldest at capacity. *)
Theorem script_never_rewrites_samples (ui : widgets) (w : env) (st : session) :
  coherent st ->
  samples (session_of (script ui w st)) = samples st
  \/ samples (session_of (script ui w st)) = []
  \/ exists t v p n,
       F64.ph_two_point v (pH1 ui) (V1 ui) (pH2 ui) (V2 ui) = Ok p
       /\ F64.ph_nernst v (E0 ui) (temp_c ui) sign = Ok n
       /\ samples (session_of (script ui w st)) =
            items (append (mkSample t v p n) (mkDeque MAX_BUFFER (samples st))).
Proof.
  intros Hc.
  destruct (sidebar_same_buffers ui w st) as (Hs & _).
  pose proof (samples_same_buffers _ _ Hs) as E3.
  pose proof (coherent_sidebar_run ui w st Hc) as Hc3.
  destruct (script_session_cases ui w st)
    as [-> | [-> | [-> | (t & v & p & n & Hp & Hn & ->)]]].
  - left. now rewrite <- E3.
  - right. now left.
  - now left.
  - right. right. exists t, v, p, n. repeat split; try assumption.
    now rewrite samples_append_sample, E3.
Qed.

Lemma script_never_rewrites_samples_witness :
  let ui := mkWidgets false false false false "COM3" Simulador 60 7 2.5 4 3 25 2.5 in
  let w := mkEnv [] true true None 5 5 5 (fun x => x) in
  let st := mkSession 0 (mkDeque MAX_BUFFER [2.5]) (mkDeque MAX_BUFFER [7])
                      (mkDeque MAX_BUFFER [7]) (mkDeque MAX_BUFFER [0.5])
                      None false [] in
  samples (session_of (script ui w st)) = samples st
  \/ samples (session_of (script ui w st)) = []
  \/ exists t v p n,
       F64.ph_two_point v (pH1 ui) (V1 ui) (pH2 ui) (V2 ui) = Ok p
       /\ F64.ph_nernst v (E0 ui) (temp_c ui) sign = Ok n
       /\ samples (session_of (script ui w st)) =
            items (append (mkSample t v p n) (mkDeque MAX_BUFFER (samples st))).
Proof.
  intros ui w st.
  assert (Hc : coherent st) by (repeat split).
  exact (script_never_rewrites_samples ui w st Hc).
Defined.

(** X11: on the serial source a run records nothing while no port is open:
    the session is not connected and this run does not connect (the button
    is not pressed, pyserial is missing, or the port fails to open). *)
Theorem disconnected_serial_records_nothing (ui : widgets) (w : env) (st : session) :
  source ui = Serial ->
  btn_rescan ui = false -> btn_reset ui = false ->
  serial_connected st = false ->
  btn_connect ui = false \/ pyserial_installed w = false \/ open_ok w = false ->
  buf_t (session_of (script ui w st)) = buf_t st
  /\ buf_V (session_of (script ui w st)) = buf_V st
  /\ buf_pH_tp (session_of (script ui w st)) = buf_pH_tp st
  /\ buf_pH_nernst (session_of (script ui w st)) = buf_pH_nernst st
  /\ t0 (session_of (script ui w st)) = t0 st.
Proof.
  intros Hsrc Hr Hx Hd Hno.
  assert (H3 : serial_connected (sidebar ui w st) = false).
  { unfold sidebar, refresh_ports, connect, disconnect, set_serial.
    destruct Hno as [-> | [-> | ->]];
      destruct (cached_ports st), (btn_connect ui), (btn_disconnect ui),
        (pyserial_installed w), (open_ok w); cbn; auto. }
  rewrite (serial_run_absent ui w st (sidebar ui w st) Hr Hx Hsrc eq_refl).
  - destruct (sidebar_same_buffers ui w st) as ((E1 & E2 & E3 & E4) & Et).
    auto.
  - unfold read_sample_serial. now rewrite H3.
Qed.

Lemma disconnected_serial_records_nothing_witness :
  let st := mkSession 0 (mkDeque MAX_BUFFER [2.5]) (mkDeque MAX_BUFFER [7])
                      (mkDeque MAX_BUFFER [7]) (mkDeque MAX_BUFFER [0.5])
                      None false [] in
  buf_V (session_of
           (script (mkWidgets true false false false "COM3" Serial 60 7 2.5 4 3 25 2.5)
                   (mkEnv [] true false (Some (Re.text_of_string "V=2.5")) 5 5 5
                          (fun x => x))
                   st))
  = buf_V st.
Proof.
  intros st.
  exact (proj1 (proj2
    (disconnected_serial_records_nothing
       (mkWidgets true false false false "COM3" Serial 60 7 2.5 4 3 25 2.5)
       (mkEnv [] true false (Some (Re.text_of_string "V=2.5")) 5 5 5 (fun x => x))
       st eq_refl eq_refl eq_refl eq_refl (or_intror (or_intror eq_refl))))).
Defined.




End RunFacts.

(** ** More on the list buffer of [tests/test2.py] *)

Section StreamMore.

Import Deque Stream F64.
Open Scope float_scope.

Lemma ph_from_voltage_returns (c : CalibParams) (V : float) :
  (cp_V2 c - cp_V1 c =? 0) = false -> exists x, ph_from_voltage c V = Ok x.
Proof.
  intros H. unfold ph_from_voltage, b_off, a_gain, py_truediv. rewrite H.
  cbn [bind]. eauto.
Qed.

Lemma drain_loop_raises (c : CalibParams) (pre post : list item)
    (t V pc pn : float) (st : state) :
  (cp_V2 c - cp_V1 c =? 0) = true ->
  forallb is_log pre = true ->
  drain_loop true c (pre ++ DATA t V pc pn :: post) st = Raise ZeroDivisionError.
Proof.
  intros Hz. revert st. induction pre as [| it pre IH]; intros st Hp.
  - cbn [app drain_loop]. now rewrite (ph_from_voltage_zero_divisor c V Hz).
  - destruct it as [t' V' pc' pn' | line | msg]; try discriminate Hp.
    cbn [app drain_loop]. apply IH. exact Hp.
Qed.

(** X14: with the local re-calibration switched on and equal calibration
    voltages, a drain raises [ZeroDivisionError] at the first data item it
    meets, log lines before it notwithstanding: the record is not appended
    and the trim is not reached. *)
Theorem drain_degenerate_raises (st : state) (pre post : list item)
    (t V pc pn : float) :
  (cp_V2 (calib st) - cp_V1 (calib st) =? 0) = true ->
  q st = pre ++ DATA t V pc pn :: post ->
  forallb is_log pre = true ->
  drain_queue_to_buffer true st = Raise ZeroDivisionError
  /\ exists st', drain_queue_to_buffer false st = Ok st'.
Proof.
  intros Hz Hq Hp. split.
  - unfold drain_queue_to_buffer. rewrite Hq.
    now rewrite (drain_loop_raises _ _ _ _ _ _ _ st Hz Hp).
  - unfold drain_queue_to_buffer.
    destruct (drain_loop_returns (calib st) (q st) st) as (st1 & ->).
    eexists. reflexivity.
Qed.

Lemma drain_degenerate_raises_witness :
  drain_queue_to_buffer true
    (mkState true false (mkCalibParams 7 2.5 4 2.5 25)
             [LOG (Re.text_of_string "boot"); DATA 1 2.6 6.4 8.7; DATA 2 2.7 5.8 10.4] [])
  = Raise ZeroDivisionError.
Proof.
  exact (proj1 (drain_degenerate_raises
                  (mkState true false (mkCalibParams 7 2.5 4 2.5 25)
                           [LOG (Re.text_of_string "boot"); DATA 1 2.6 6.4 8.7; DATA 2 2.7 5.8 10.4] [])
                  [LOG (Re.text_of_string "boot")] [DATA 2 2.7 5.8 10.4] 1 2.6 6.4 8.7
                  eq_refl eq_refl eq_refl)).
Defined.

Lemma drain_loop_error (u : bool) (c : CalibParams) (pre post : list item)
    (msg : message) (st : state) :
  (u = true -> (cp_V2 c - cp_V1 c =? 0) = false) ->
  forallb (fun it => negb (is_error it)) pre = true ->
  drain_loop u c (pre ++ ERROR msg :: post) st =
    Ok (mkState false true c post (data st ++ drained u c pre)).
Proof.
  intros Hu. revert st. induction pre as [| it pre IH]; intros st Hp.
  - cbn [app drain_loop drained]. now rewrite app_nil_r.
  - destruct it as [t V pc pn | line | m]; try discriminate Hp;
      cbn [app drain_loop drained forallb is_error negb andb] in *.
    + destruct u.
      * destruct (ph_from_voltage_returns c V (Hu eq_refl)) as (x & ->).
        cbn [bind]. rewrite IH by exact Hp. cbn [data].
        now rewrite <- app_assoc.
      * cbn [bind]. rewrite IH by exact Hp. cbn [data].
        now rewrite <- app_assoc.
    + rewrite IH by exact Hp. reflexivity.
Qed.

(** X15: a drain stops at the first ["__ERROR__"] item: it clears [running],
    sets the stop event, keeps the records of the data items in front of
    the error, and leaves what follows the error in the queue. *)
Theorem drain_stops_at_error (u : bool) (st : state) (pre post : list item)
    (msg : message) :
  (u = true -> (cp_V2 (calib st) - cp_V1 (calib st) =? 0) = false) ->
  q st = pre ++ ERROR msg :: post ->
  forallb (fun it => negb (is_error it)) pre = true ->
  exists st',
    drain_queue_to_buffer u st = Ok st'
    /\ running st' = false /\ stop_event st' = true
    /\ q st' = post
    /\ data st' = lastn MAX_POINTS (data st ++ drained u (calib st) pre).
Proof.
  intros Hu Hq Hp. unfold drain_queue_to_buffer. rewrite Hq.
  rewrite (drain_loop_error u (calib st) pre post msg st Hu Hp). cbn [bind].
  eexists. split; [ reflexivity | ].
  rewrite trim_data. unfold trim.
  destruct (MAX_POINTS <? _)%nat; cbn [running stop_event q data]; auto.
Qed.

Lemma drain_stops_at_error_witness :
  exists st',
    drain_queue_to_buffer true
      (mkState true false (mkCalibParams 7 2.5 4 2.677 25)
               [DATA 1 2.5 7 7; ERROR (ReadFailed ValueError); DATA 2 2.6 6.4 8.7] [])
    = Ok st'
    /\ running st' = false /\ stop_event st' = true
    /\ q st' = [DATA 2 2.6 6.4 8.7]
    /\ data st' = [mkRec 1 2.5 7 7 (Some 7)].
Proof.
  exact (drain_stops_at_error true
           (mkState true false (mkCalibParams 7 2.5 4 2.677 25)
                    [DATA 1 2.5 7 7; ERROR (ReadFailed ValueError); DATA 2 2.6 6.4 8.7] [])
           [DATA 1 2.5 7 7] [DATA 2 2.6 6.4 8.7] (ReadFailed ValueError)
           (fun _ => eq_refl) eq_refl eq_refl).
Defined.

(** X16: a drain that returns with the queue empty has settled: draining
    again, with the switch either way, changes nothing. *)
Theorem drain_settles (u u' : bool) (st st' : state) :
  drain_queue_to_buffer u st = Ok st' ->
  q st' = [] ->
  drain_queue_to_buffer u' st' = Ok st'.
Proof.
  intros H Hq. apply drain_keeps_last in H as [_ Hl].
  unfold drain_queue_to_buffer. rewrite Hq. cbn [drain_loop bind]. f_equal.
  unfold trim. cbn [data].
  destruct (Nat.ltb_spec MAX_POINTS (List.length (data st'))) as [Hlt | _];
    [ lia | ].
  destruct st'. cbn in *. now subst.
Qed.

Lemma drain_settles_witness :
  let st' := mkState true false (mkCalibParams 7 2.5 4 2.677 25) []
                     [mkRec 1 2.5 7 7 None; mkRec 2 2.6 6.4 8.7 None] in
  drain_queue_to_buffer true st' = Ok st'.
Proof.
  intros st'.
  exact (drain_settles false true
           (mkState true false (mkCalibParams 7 2.5 4 2.677 25)
                    [DATA 1 2.5 7 7; LOG (Re.text_of_string "ok"); DATA 2 2.6 6.4 8.7] [])
           st' eq_refl eq_refl).
Defined.

End StreamMore.

(** ** [float] in full, and the reader thread of [tests/test2.py] *)

Section FloatStrFacts.

Import Re Parse PyFloat.

Lemma fspace_space (c : char) : is_fspace c = true -> is_space c = true.
Proof.
  unfold is_fspace. intros H.
  apply orb_prop in H as [H | H].
  1: apply orb_prop in H as [H | H].
  - apply andb_prop in H as [H1 H2].
    apply N.leb_le in H1, H2.
    assert (C : (c = 9 \/ c = 10 \/ c = 11 \/ c = 12 \/ c = 13)%N) by lia.
    destruct C as [-> | [-> | [-> | [-> | ->]]]]; reflexivity.
  - apply N.eqb_eq in H. subst c. reflexivity.
  - now apply andb_prop in H as [_ H].
Qed.

Lemma digit_not_fspace (c : char) : is_digit c = true -> is_fspace c = false.
Proof.
  intros H. destruct (is_fspace c) eqn:E; [ | reflexivity ].
  apply fspace_space in E. destruct (is_space c) eqn:Es; [ | discriminate ].
  rewrite (space_not_digit c Es) in H. discriminate.
Qed.

(** A decimal digit is an ASCII digit or stands beyond [U+0660]. *)
Lemma digit_range (c : char) :
  is_digit c = true -> (48 <= c <= 57)%N \/ (1632 <= c)%N.
Proof.
  unfold is_digit, zero_of. intros H.
  destruct (find _ digit_zeros) as [z |] eqn:E; [ | discriminate ].
  apply find_some in E as [Hin Hz].
  apply andb_prop in Hz as [H1 H2]. apply N.leb_le in H1, H2.
  assert (Hall : forallb (fun z => (z =? 48)%N || (1632 <=? z)%N) digit_zeros = true)
    by reflexivity.
  rewrite forallb_forall in Hall. specialize (Hall z Hin).
  apply orb_prop in Hall as [Hz | Hz].
  - apply N.eqb_eq in Hz. subst z. left. lia.
  - apply N.leb_le in Hz. right. lia.
Qed.

Lemma plain_cases (c : char) :
  plain c = true -> c = 43%N \/ c = 45%N \/ c = 46%N \/ is_digit c = true.
Proof.
  unfold plain. intros H.
  apply orb_prop in H as [H | H].
  1: apply orb_prop in H as [H | H].
  - destruct (sign_cases c H); auto.
  - auto.
  - right. right. left. now apply dot_cases.
Qed.

Lemma plain_not_fspace (c : char) : plain c = true -> is_fspace c = false.
Proof.
  intros H. destruct (plain_cases c H) as [-> | [-> | [-> | Hd]]];
    try reflexivity. now apply digit_not_fspace.
Qed.

Lemma plain_not_underscore (c : char) : plain c = true -> is_underscore c = false.
Proof.
  intros H. destruct (plain_cases c H) as [-> | [-> | [-> | Hd]]];
    try reflexivity.
  unfold is_underscore. apply N.eqb_neq. intros ->. discriminate Hd.
Qed.

Lemma drop_while_none (p : char -> bool) (s : text) :
  forallb (fun c => negb (p c)) s = true -> drop_while p s = s.
Proof.
  destruct s as [| c s]; [ reflexivity | ].
  cbn [forallb drop_while]. intros H. apply andb_prop in H as [Hc _].
  apply negb_true_iff in Hc. now rewrite Hc.
Qed.

Lemma forallb_impl (p q : char -> bool) (l : text) :
  (forall c, p c = true -> q c = true) ->
  forallb p l = true -> forallb q l = true.
Proof.
  intros Hpq. induction l as [| c l IH]; [ reflexivity | ].
  cbn [forallb]. intros H. apply andb_prop in H as [Hc H].
  now rewrite (Hpq c Hc), (IH H).
Qed.

Lemma fstrip_plain (s : text) : forallb plain s = true -> fstrip s = s.
Proof.
  intros H.
  assert (Hn : forallb (fun c => negb (is_fspace c)) s = true).
  { apply (forallb_impl plain); [ | exact H ].
    intros c Hc. now rewrite (plain_not_fspace c Hc). }
  unfold fstrip. rewrite (drop_while_none _ s Hn).
  rewrite drop_while_none by now rewrite forallb_rev.
  apply rev_involutive.
Qed.

Lemma underscores_ok_plain (prev : option char) (s : text) :
  match prev with Some p => is_underscore p = false | None => True end ->
  forallb plain s = true -> underscores_ok prev s = true.
Proof.
  revert prev. induction s as [| c s IH]; intros prev Hp H.
  - destruct prev as [p |]; [ cbn; now rewrite Hp | reflexivity ].
  - cbn [forallb] in H. apply andb_prop in H as [Hc H].
    pose proof (plain_not_underscore c Hc) as Hu.
    cbn [underscores_ok]. rewrite Hu, (IH (Some c) Hu H).
    destruct prev as [p |]; [ now rewrite Hp | reflexivity ].
Qed.

Lemma drop_underscores_plain (s : text) :
  forallb plain s = true -> drop_underscores s = s.
Proof.
  unfold drop_underscores. induction s as [| c s IH]; [ reflexivity | ].
  cbn [forallb filter]. intros H. apply andb_prop in H as [Hc H].
  now rewrite (plain_not_underscore c Hc), (IH H).
Qed.

(** No numeral starts like [inf] or [nan]. *)
Lemma word_at_plain (a : char) (word s : text) (c : char) :
  (a = 105 \/ a = 110)%N ->
  is_digit c = true \/ is_dot c = true ->
  word_at (a :: word) (c :: s) = None.
Proof.
  intros Ha Hc. cbn [word_at].
  assert (E : (lower c =? a)%N = false); [ | now rewrite E ].
  apply N.eqb_neq. unfold lower.
  destruct Hc as [Hd | Hd].
  - destruct (digit_range c Hd) as [R | R].
    + replace ((65 <=? c)%N && (c <=? 90)%N) with false
        by (symmetry; apply andb_false_iff; left; apply N.leb_gt; lia).
      destruct Ha as [-> | ->]; lia.
    + replace ((65 <=? c)%N && (c <=? 90)%N) with false
        by (symmetry; apply andb_false_iff; right; apply N.leb_gt; lia).
      destruct Ha as [-> | ->]; lia.
  - rewrite (dot_cases c Hd). destruct Ha as [-> | ->]; discriminate.
Qed.

Lemma scale10_places (neg : bool) (n : N) (k : nat) :
  scale10 neg n (0 - Z.of_nat k) = float_of_decimal neg n k.
Proof.
  destruct k as [| k].
  - cbn [Z.of_nat Z.sub Z.opp Z.add scale10 Z.to_N N.pow].
    now rewrite N.mul_1_r.
  - rewrite Z.sub_0_l. cbn [Z.of_nat Z.opp scale10].
    now rewrite SuccNat2Pos.id_succ.
Qed.

Lemma split_sign_parts (s : text) :
  s = fst (split_sign s) ++ snd (split_sign s)
  /\ forallb plain (fst (split_sign s)) = true.
Proof.
  unfold split_sign. destruct s as [| c s]; [ now split | ].
  destruct (is_sign c) eqn:Hc; cbn [fst snd app forallb]; [ | now split ].
  split; [ reflexivity | ]. unfold plain. now rewrite Hc.
Qed.

Lemma digits_plain (l : text) :
  forallb is_digit l = true -> forallb plain l = true.
Proof.
  apply forallb_impl. intros c Hc. unfold plain. rewrite Hc.
  now rewrite orb_true_r.
Qed.

(** The numerals the parser's [float] accepts, [float] in full accepts too,
    with the same value. *)
Lemma py_float_refines (s : text) (x : float) :
  py_float s = Ok x -> py_float_str s = Ok x.
Proof.
  unfold py_float. intros H.
  destruct (split_sign_parts s) as [Es Hsg].
  destruct (split_sign s) as [sg s1] eqn:Esg. cbn [fst snd] in Es, Hsg.
  pose proof (span_app is_digit s1) as E1.
  pose proof (span_all is_digit s1) as Hip.
  destruct (span is_digit s1) as [ip s2] eqn:Esp. cbn [fst snd] in E1, Hip.
  assert (Hshape :
            exists fp,
              forallb is_digit fp = true
              /\ (s2 = [] \/ s2 = 46%N :: fp)
              /\ ip ++ fp <> []
              /\ x = float_of_decimal (is_minus sg) (decimal_value (ip ++ fp))
                                      (List.length fp)
              /\ (s2 = [] -> fp = [])).
  { destruct s2 as [| d s3].
    - exists []. rewrite app_nil_r. destruct ip as [| i ip]; [ discriminate | ].
      injection H as <-. repeat split; auto. discriminate.
    - destruct (is_dot d) eqn:Hd; [ | discriminate ].
      pose proof (span_app is_digit s3) as E3.
      pose proof (span_all is_digit s3) as Hfp.
      destruct (span is_digit s3) as [fp s4]. cbn [fst snd] in E3, Hfp.
      destruct s4 as [| c4 s4]; [ | discriminate ].
      destruct (ip ++ fp) as [| i l] eqn:El; [ discriminate | ].
      injection H as <-. exists fp. rewrite app_nil_r in E3. subst s3.
      rewrite (dot_cases d Hd). repeat split; auto; try discriminate;
        rewrite El; [ discriminate | reflexivity ]. }
  destruct Hshape as (fp & Hfp & Hs2 & Hne & -> & Hnil).
  assert (Hplain : forallb plain s = true).
  { rewrite Es, E1, !forallb_app, Hsg, (digits_plain ip Hip).
    destruct Hs2 as [-> | ->]; [ reflexivity | ].
    cbn [forallb]. now rewrite (digits_plain fp Hfp). }
  unfold py_float_str.
  rewrite (fstrip_plain s Hplain), (underscores_ok_plain None s I Hplain).
  cbn [negb]. rewrite (drop_underscores_plain s Hplain), Esg.
  assert (Hhead : exists c r, s1 = c :: r /\ (is_digit c = true \/ is_dot c = true)).
  { rewrite E1. destruct ip as [| i ip].
    - destruct Hs2 as [-> | ->].
      + rewrite (Hnil eq_refl) in Hne. contradiction.
      + exists 46%N, fp. split; [ reflexivity | now right ].
    - exists i, (ip ++ s2). split; [ reflexivity | left ].
      cbn [forallb] in Hip. now apply andb_prop in Hip as [Hi _]. }
  destruct Hhead as (c & r & Ec & Hc).
  assert (Wi : word_at (text_of_string "inf") s1 = None).
  { rewrite Ec. apply (word_at_plain 105 _ r c); auto. }
  assert (Wn : word_at (text_of_string "nan") s1 = None).
  { rewrite Ec. apply (word_at_plain 110 _ r c); auto. }
  rewrite Wi, Wn, Esp.
  destruct Hs2 as [-> | ->].
  - rewrite (Hnil eq_refl) in *. rewrite app_nil_r in *.
    destruct ip as [| i ip]; [ contradiction | ].
    cbn [exponent_at List.length Z.of_nat].
    now rewrite (scale10_places (is_minus sg) _ 0).
  - change (is_dot 46%N) with true. cbv iota.
    rewrite (span_whole is_digit fp Hfp).
    destruct (ip ++ fp) as [| i l] eqn:El; [ contradiction | ].
    cbn [exponent_at]. now rewrite scale10_places.
Qed.

End FloatStrFacts.

Section ReaderFacts.

Import Re Parse PyFloat Deque Stream Reader.
Open Scope float_scope.

Lemma split_comma_cons (s : text) : exists p ps, split_comma s = p :: ps.
Proof.
  induction s as [| c s (p & ps & E)]; [ now exists [], [] | ].
  cbn [split_comma]. destruct (c =? 44)%N; [ eauto | ].
  rewrite E. eauto.
Qed.

Lemma length_split_comma (s : text) :
  List.length (split_comma s) = S (commas s).
Proof.
  unfold commas. induction s as [| c s IH]; [ reflexivity | ].
  cbn [split_comma filter]. rewrite (N.eqb_sym 44 c).
  destruct (c =? 44)%N.
  - cbn [List.length]. now rewrite IH.
  - destruct (split_comma_cons s) as (p & ps & E). rewrite E in *.
    exact IH.
Qed.

Lemma split_comma_app (l more : text) :
  split_comma (l ++ 44%N :: more) = split_comma l ++ split_comma more.
Proof.
  induction l as [| c l IH]; [ reflexivity | ].
  cbn [app split_comma]. destruct (c =? 44)%N.
  - now rewrite IH.
  - rewrite IH. destruct (split_comma_cons l) as (p & ps & ->). reflexivity.
Qed.

Lemma join_split_comma (s : text) : join_comma (split_comma s) = s.
Proof.
  induction s as [| c s IH]; [ reflexivity | ].
  cbn [split_comma]. destruct (c =? 44)%N eqn:Ec.
  - apply N.eqb_eq in Ec. subst c.
    destruct (split_comma_cons s) as (p & ps & E). rewrite E in *.
    change (join_comma ([] :: p :: ps)) with (44%N :: join_comma (p :: ps)).
    now rewrite IH.
  - destruct (split_comma_cons s) as (p & ps & E). rewrite E in *.
    destruct ps as [| p' ps].
    + cbn [join_comma] in *. now rewrite IH.
    + change (join_comma ((c :: p) :: p' :: ps))
        with (c :: (p ++ 44%N :: join_comma (p' :: ps))).
      change (join_comma (p :: p' :: ps))
        with (p ++ 44%N :: join_comma (p' :: ps)) in IH.
      now rewrite IH.
Qed.

Lemma split_comma_fields (s : text) :
  Forall (fun p => commas p = 0%nat) (split_comma s).
Proof.
  induction s as [| c s IH]; [ repeat constructor | ].
  cbn [split_comma]. destruct (c =? 44)%N eqn:Ec.
  - constructor; [ reflexivity | exact IH ].
  - destruct (split_comma_cons s) as (p & ps & E). rewrite E in *.
    inversion IH as [| ? ? Hp Hps]; subst. constructor; [ | exact Hps ].
    unfold commas in *. cbn [filter]. rewrite (N.eqb_sym 44 c), Ec. exact Hp.
Qed.

(** The loop's output: no error item, or one, which is the last. *)
Lemma reader_loop_shape (reads : list (option text * float)) :
  forallb (fun it => negb (is_error it)) (reader_loop reads) = true
  \/ exists pre m,
       reader_loop reads = pre ++ [ERROR m]
       /\ forallb (fun it => negb (is_error it)) pre = true.
Proof.
  induction reads as [| [[raw |] now] rest IH].
  - now left.
  - cbn [reader_loop]. destruct (App.strip raw) as [| c line]; [ exact IH | ].
    destruct (classify now (c :: line)) as [t V pc pn | l | m] eqn:Ec;
      cbn [is_error].
    + destruct IH as [IH | (pre & m & -> & Hp)].
      * left. cbn [forallb is_error negb andb]. exact IH.
      * right. exists (DATA t V pc pn :: pre), m. split; [ reflexivity | exact Hp ].
    + destruct IH as [IH | (pre & m & -> & Hp)].
      * left. cbn [forallb is_error negb andb]. exact IH.
      * right. exists (LOG l :: pre), m. split; [ reflexivity | exact Hp ].
    + right. exists [], m. split; reflexivity.
  - right. exists [], (ReadFailed OSError). split; reflexivity.
Qed.

Lemma run_shape (opens : bool) (reads : list (option text * float)) :
  forallb (fun it => negb (is_error it)) (run opens reads) = true
  \/ exists pre m,
       run opens reads = pre ++ [ERROR m]
       /\ forallb (fun it => negb (is_error it)) pre = true.
Proof.
  unfold run. destruct opens; [ apply reader_loop_shape | ].
  right. exists [], CannotOpen. split; reflexivity.
Qed.

Lemma drain_loop_all (u : bool) (c : F64.CalibParams) (queue : list item)
    (st : state) :
  (u = true -> (F64.cp_V2 c - F64.cp_V1 c =? 0) = false) ->
  forallb (fun it => negb (is_error it)) queue = true ->
  drain_loop u c queue st =
    Ok (mkState (running st) (stop_event st) c [] (data st ++ drained u c queue)).
Proof.
  intros Hu. revert st. induction queue as [| it queue IH]; intros st Hp.
  - cbn [drain_loop drained]. now rewrite app_nil_r.
  - destruct it as [t V pc pn | line | m]; try discriminate Hp;
      cbn [drain_loop drained forallb is_error negb andb] in *.
    + destruct u.
      * destruct (ph_from_voltage_returns c V (Hu eq_refl)) as (x & ->).
        cbn [bind]. rewrite IH by exact Hp. cbn [data running stop_event].
        now rewrite <- app_assoc.
      * cbn [bind]. rewrite IH by exact Hp. cbn [data running stop_event].
        now rewrite <- app_assoc.
    + rewrite IH by exact Hp. reflexivity.
Qed.

Lemma drained_before_error (u : bool) (c : F64.CalibParams) (pre post : list item)
    (m : message) :
  drained u c (pre ++ ERROR m :: post) = drained u c pre.
Proof.
  induction pre as [| it pre IH]; [ reflexivity | ].
  destruct it as [t V pc pn | line | m']; cbn [app drained].
  - now rewrite IH.
  - exact IH.
  - reflexivity.
Qed.


Lemma drop_while_pad (p : char -> bool) (pre s : text) :
  forallb p pre = true ->
  match s with c :: _ => p c = false | [] => True end ->
  drop_while p (pre ++ s) = s.
Proof.
  intros H Hs. induction pre as [| c pre IH].
  - cbn [app]. destruct s as [| d s]; [ reflexivity | ].
    cbn [drop_while]. now rewrite Hs.
  - cbn [app drop_while forallb] in *. apply andb_prop in H as [-> H].
    now apply IH.
Qed.

Lemma fstrip_pad (pre s post : text) :
  forallb is_fspace pre = true -> forallb is_fspace post = true ->
  forallb plain s = true -> fstrip (pre ++ s ++ post) = s.
Proof.
  intros Hpre Hpost Hs. destruct s as [| c s].
  - cbn [app]. unfold fstrip.
    assert (E : drop_while is_fspace (pre ++ post) = []).
    { rewrite <- (app_nil_r (pre ++ post)). apply drop_while_pad; [ | exact I ].
      now rewrite forallb_app, Hpre, Hpost. }
    now rewrite E.
  - unfold fstrip. rewrite drop_while_pad;
      [ | exact Hpre
        | cbn [app forallb] in *; apply andb_prop in Hs as [Hc _];
          now apply plain_not_fspace ].
    rewrite rev_app_distr, drop_while_pad.
    + apply rev_involutive.
    + now rewrite forallb_rev.
    + assert (Hr : forallb plain (rev (c :: s)) = true)
        by now rewrite forallb_rev.
      destruct (rev (c :: s)) as [| d r] eqn:E.
      * apply (f_equal (@List.length N)) in E. rewrite length_rev in E.
        discriminate E.
      * cbn [forallb] in Hr. apply andb_prop in Hr as [Hd _].
        now apply plain_not_fspace.
Qed.

(** X17: the value [parse_voltage_from_line] returns is what Python's
    [float], in full, makes of the first voltage token of the line: the
    decimal grammar the parser's [float] is modelled on loses nothing on
    the tokens the two patterns capture. *)
Theorem parsed_value_is_full_float (line : text) (x : float) :
  parse_voltage_from_line line = Ok (Some x) ->
  exists tok,
    first_voltage_token line = Some tok
    /\ py_float_str tok = Ok x
    /\ x = token_value tok.
Proof.
  rewrite parse_voltage_from_line_spec. intros H.
  destruct (first_voltage_token line) as [tok |] eqn:E; [ | discriminate ].
  cbn [option_map] in H. injection H as <-. exists tok.
  split; [ reflexivity | ]. split; [ | reflexivity ].
  apply py_float_refines, py_float_token.
  unfold first_voltage_token in E.
  destruct (first_tagged line) as [t |] eqn:Et.
  - injection E as <-. now apply (first_tagged_token line).
  - now apply (first_number_token line).
Qed.

Lemma parsed_value_is_full_float_witness :
  exists tok,
    first_voltage_token (text_of_string "pH 7 V = -2.5e3") = Some tok
    /\ py_float_str tok = Ok (-2.5)
    /\ (-2.5) = token_value tok.
Proof.
  exact (parsed_value_is_full_float (text_of_string "pH 7 V = -2.5e3") (-2.5)
           eq_refl).
Defined.

(** X18: a plain decimal numeral, an optional sign, digits and an optional
    point with digits, is read by [float] to the same value with any
    blanks [float] strips around it. *)
Theorem float_reads_padded_numeral (pre s post : text) (x : float) :
  py_float s = Ok x ->
  forallb is_fspace pre = true -> forallb is_fspace post = true ->
  py_float_str (pre ++ s ++ post) = Ok x.
Proof.
  intros H Hpre Hpost.
  pose proof (py_float_refines s x H) as R.
  assert (Hplain : forallb plain s = true).
  { unfold py_float in H.
    destruct (split_sign_parts s) as [Es Hsg].
    destruct (split_sign s) as [sg s1]. cbn [fst snd] in Es, Hsg.
    pose proof (span_app is_digit s1) as E1.
    pose proof (span_all is_digit s1) as Hip.
    destruct (span is_digit s1) as [ip s2]. cbn [fst snd] in E1, Hip.
    rewrite Es, E1, !forallb_app, Hsg, (digits_plain ip Hip). cbn [andb].
    destruct s2 as [| d s3]; [ reflexivity | ].
    destruct (is_dot d) eqn:Hd; [ | discriminate ].
    pose proof (span_app is_digit s3) as E3.
    pose proof (span_all is_digit s3) as Hfp.
    destruct (span is_digit s3) as [fp s4]. cbn [fst snd] in E3, Hfp.
    destruct s4 as [| c4 s4]; [ | now destruct (ip ++ fp) ].
    rewrite app_nil_r in E3. subst s3. cbn [forallb].
    rewrite (digits_plain fp Hfp). unfold plain. rewrite Hd.
    now rewrite orb_true_r. }
  unfold py_float_str in *.
  now rewrite (fstrip_pad pre s post Hpre Hpost Hplain),
              <- (fstrip_plain s Hplain).
Qed.

Lemma float_reads_padded_numeral_witness :
  py_float_str ([32; 9; 12288] ++ text_of_string "-12.50" ++ [10; 160])%N
  = Ok (-12.5).
Proof.
  exact (float_reads_padded_numeral [32; 9; 12288]%N (text_of_string "-12.50")
           [10; 160]%N (-12.5) eq_refl eq_refl eq_refl).
Defined.

(** X19: a line with fewer than two commas is logged as it is, whatever it
    holds: it is never data and never an error, and the loop goes on. *)
Theorem short_line_is_logged (raw line : text) (now : float)
    (rest : list (option text * float)) :
  App.strip raw = line -> line <> [] -> commas line < 2 ->
  classify now line = LOG line
  /\ reader_loop ((Some raw, now) :: rest) = LOG line :: reader_loop rest.
Proof.
  intros Hs Hne Hc.
  assert (E : classify now line = LOG line).
  { unfold classify. pose proof (length_split_comma line) as L.
    destruct (split_comma line) as [| p0 [| p1 [| p2 ps]]]; try reflexivity.
    cbn [List.length] in L. lia. }
  split; [ exact E | ].
  cbn [reader_loop]. rewrite Hs. destruct line as [| c l]; [ contradiction | ].
  now rewrite E.
Qed.

Lemma short_line_is_logged_witness :
  reader_loop [(Some (text_of_string "  boot ok, v1.2 "), 1);
               (Some (text_of_string "2.5,7.0,6.9"), 2)]
  = [LOG (text_of_string "boot ok, v1.2"); DATA 2 2.5 7 6.9].
Proof.
  exact (proj2 (short_line_is_logged (text_of_string "  boot ok, v1.2 ")
                  (text_of_string "boot ok, v1.2") 1
                  [(Some (text_of_string "2.5,7.0,6.9"), 2)]
                  eq_refl ltac:(discriminate) ltac:(vm_compute; lia))).
Defined.

(** X20: of a line with three fields or more only the first three count:
    what follows the third field, commas included, changes nothing, and
    such a line is never logged. *)
Theorem extra_fields_ignored (now : float) (l more : text) :
  2 <= commas l ->
  classify now (l ++ 44%N :: more) = classify now l
  /\ is_log (classify now l) = false.
Proof.
  intros Hc. unfold classify. rewrite split_comma_app.
  pose proof (length_split_comma l) as L.
  destruct (split_comma l) as [| p0 [| p1 [| p2 ps]]];
    cbn [List.length] in L; try lia.
  cbn [app]. split; [ reflexivity | ].
  destruct (py_float_str p0); cbn [bind]; [ | reflexivity ].
  destruct (py_float_str p1); cbn [bind]; [ | reflexivity ].
  destruct (py_float_str p2); reflexivity.
Qed.

Lemma extra_fields_ignored_witness :
  classify 5 (text_of_string "2.5, 7.01 ,6.98" ++ 44%N :: text_of_string "x,,42")
  = DATA 5 2.5 7.01 6.98.
Proof.
  exact (proj1 (extra_fields_ignored 5 (text_of_string "2.5, 7.01 ,6.98")
                  (text_of_string "x,,42") ltac:(vm_compute; lia))).
Defined.

(** X21: [split] and [join] on commas: joining the fields gives the line
    back, there is one field more than commas, and no field holds a
    comma. *)
Theorem split_comma_round_trip (s : text) :
  join_comma (split_comma s) = s
  /\ List.length (split_comma s) = S (commas s)
  /\ Forall (fun p => commas p = 0%nat) (split_comma s).
Proof.
  split; [ apply join_split_comma | ].
  split; [ apply length_split_comma | apply split_comma_fields ].
Qed.

(** X22: the reader thread puts at most one error item on the queue, and
    nothing after it: every item that is followed by another is data or a
    log line. *)
Theorem reader_error_is_last (opens : bool) (reads : list (option text * float))
    (pre post : list item) (it : item) :
  run opens reads = pre ++ it :: post -> post <> [] -> is_error it = false.
Proof.
  intros E Hpost.
  assert (Hin : forall l : list item,
             forallb (fun i => negb (is_error i)) l = true ->
             In it l -> is_error it = false).
  { intros l Hl Hi. rewrite forallb_forall in Hl.
    now apply negb_true_iff, Hl. }
  destruct (run_shape opens reads) as [Hc | (pre' & m & E' & Hc)].
  - apply (Hin _ Hc). rewrite E. apply in_elt.
  - apply (Hin _ Hc).
    rewrite E in E'. rewrite (app_removelast_last it Hpost) in E'.
    change (pre ++ it :: removelast post ++ [last post it])
      with (pre ++ (it :: removelast post) ++ [last post it]) in E'.
    rewrite app_assoc in E'. apply app_inj_tail in E' as [<- _].
    apply in_or_app. right. now left.
Qed.

Lemma reader_error_is_last_witness :
  is_error (LOG (text_of_string "boot")) = false.
Proof.
  exact (reader_error_is_last true
           [(Some (text_of_string "boot"), 1); (Some (text_of_string "a,b,c"), 2);
            (Some (text_of_string "2.5,7,7"), 3)]
           [] [ERROR (ReadFailed ValueError)] (LOG (text_of_string "boot"))
           eq_refl ltac:(discriminate)).
Defined.

(** X23: draining what a reader thread has put on the queue empties the
    queue and keeps, trimmed to the last [MAX_POINTS], every data item as a
    record; the session stops running exactly when the reader ended in an
    error. *)
Theorem drain_after_reader (u : bool) (st : state) (opens : bool)
    (reads : list (option text * float)) :
  (u = true -> (F64.cp_V2 (calib st) - F64.cp_V1 (calib st) =? 0) = false) ->
  q st = run opens reads ->
  exists st',
    drain_queue_to_buffer u st = Ok st'
    /\ q st' = []
    /\ data st' =
         lastn MAX_POINTS (data st ++ drained u (calib st) (run opens reads))
    /\ running st' =
         (if existsb is_error (run opens reads) then false else running st)
    /\ stop_event st' =
         (if existsb is_error (run opens reads) then true else stop_event st).
Proof.
  intros Hu Hq. unfold drain_queue_to_buffer. rewrite Hq.
  destruct (run_shape opens reads) as [Hc | (pre & m & E & Hc)].
  - rewrite (drain_loop_all u (calib st) _ st Hu Hc). cbn [bind].
    assert (Ex : existsb is_error (run opens reads) = false).
    { clear -Hc. induction (run opens reads) as [| i l IH]; [ reflexivity | ].
      cbn [forallb existsb] in *. apply andb_prop in Hc as [Hi Hl].
      apply negb_true_iff in Hi. now rewrite Hi, (IH Hl). }
    rewrite Ex. eexists. split; [ reflexivity | ].
    rewrite trim_data. unfold trim.
    destruct (MAX_POINTS <? _)%nat; cbn [running stop_event q data]; auto.
  - rewrite E.
    rewrite (drain_loop_error u (calib st) pre [] m st Hu Hc). cbn [bind].
    rewrite drained_before_error.
    assert (Ex : existsb is_error (pre ++ [ERROR m]) = true).
    { rewrite existsb_app. cbn. apply orb_true_r. }
    rewrite Ex. eexists. split; [ reflexivity | ].
    rewrite trim_data. unfold trim.
    destruct (MAX_POINTS <? _)%nat; cbn [running stop_event q data]; auto.
Qed.

Lemma drain_after_reader_witness :
  let reads := [(Some (text_of_string "boot"), 1);
                (Some (text_of_string "2.5,7,7"), 2);
                (Some (text_of_string " "), 3);
                (Some (text_of_string "2.6,6.4,x"), 4);
                (Some (text_of_string "2.7,5.8,9"), 5)] in
  let st := mkState true false (F64.mkCalibParams 7 2.5 4 2.677 25)
                    (run true reads) [] in
  exists st',
    drain_queue_to_buffer true st = Ok st'
    /\ q st' = []
    /\ data st' = [mkRec 2 2.5 7 7 (Some 7)]
    /\ running st' = false
    /\ stop_event st' = true.
Proof.
  intros reads st.
  exact (drain_after_reader true st true reads (fun _ => eq_refl) eq_refl).
Defined.

End ReaderFacts.
